(** * Smart advertising system: detection merge, tracking, aggregation, scoring

    A shallow embedding of the decision logic of the system:
    - [AdQueue]          the ad queue scorer            (hooks/useAdQueue, scoreAd)
    - [Detection]        vote stabilisation and configs (types/detection.ts)
    - [GenderHeuristics] female-boost bias correction   (utils/genderHeuristics.ts)
    - [FaceDetection]    merge and the multi-pass orchestrator (hooks/useFaceDetection)
    - [SmartAds]         the tracker cycle and the capture session (SmartAdsSystem)

    JavaScript numbers are embedded as exact rationals ([Q]); comparisons are
    the boolean ones of the source.  String-literal unions are inductive types,
    optional fields are [option]s, a [Map] is an association list in insertion
    order (the order in which the source iterates it). *)

From Stdlib Require Import QArith Qminmax Qabs ZArith List String Bool Lia Lqa.
From Stdlib Require Import Qround Sorted DecimalString Permutation.
Import ListNotations.
Open Scope Q_scope.

(* ================================================================== *)
(** * Part I: the embedding                                            *)
(* ================================================================== *)

(** ** Numbers *)

Module Num.

(** [a >= b], [a > b], [a <= b], [a < b] on JavaScript numbers. *)
Definition geb (a b : Q) : bool := Qle_bool b a.
Definition gtb (a b : Q) : bool := negb (Qle_bool a b).
Definition leb (a b : Q) : bool := Qle_bool a b.
Definition ltb (a b : Q) : bool := negb (Qle_bool b a).

(** [Math.max], [Math.min], [Math.abs]. *)
Definition max (a b : Q) : Q := Qmax a b.
Definition min (a b : Q) : Q := Qmin a b.
Definition abs (a : Q) : Q := Qabs a.

(** [x ?? d] *)
Definition orElse {A : Type} (x : option A) (d : A) : A :=
  match x with Some v => v | None => d end.

End Num.

Infix ">=?" := Num.geb (at level 70, no associativity) : Q_scope.
Infix ">?"  := Num.gtb (at level 70, no associativity) : Q_scope.
Infix "<=?" := Num.leb (at level 70, no associativity) : Q_scope.
Infix "<?"  := Num.ltb (at level 70, no associativity) : Q_scope.
Infix "??"  := Num.orElse (at level 45, left associativity).

(** ** Arrays *)

Module JsArray.

(** [arr.sort((a, b) => key(b) - key(a))]: the sort of the language is
    stable, and on numbers this comparator is a total preorder, so the
    result is the one stable arrangement by descending key.  Written as an
    insertion sort from the right: an element goes behind the strictly
    greater ones and in front of the equal ones that followed it. *)
Section Sort.
Context {A : Type} (key : A -> Q).

Fixpoint insertDesc (e : A) (l : list A) : list A :=
  match l with
  | [] => [e]
  | h :: t => if key h >? key e then h :: insertDesc e t else e :: h :: t
  end.

Fixpoint sortDesc (l : list A) : list A :=
  match l with
  | [] => []
  | e :: t => insertDesc e (sortDesc t)
  end.
End Sort.

(** [a] may stand in front of [b] in an array sorted by descending key. *)
Definition descending {A : Type} (key : A -> Q) (a b : A) : Prop := key b <= key a.

(** [arr.flat()] on an array of arrays. *)
Definition flat {A : Type} (l : list (list A)) : list A := List.concat l.

(** [arr.filter(p).length] *)
Definition countIf {A : Type} (p : A -> bool) (l : list A) : Z :=
  Z.of_nat (List.length (filter p l)).

End JsArray.

(** ** Maps

    A [Map<string, V>]: the entries in insertion order, one per key. *)

Module JsMap.

Definition t (V : Type) : Type := list (string * V).

Fixpoint get {V : Type} (m : t V) (k : string) : option V :=
  match m with
  | [] => None
  | (k', v) :: rest => if String.eqb k' k then Some v else get rest k
  end.

(** [m.set(k, v)]: a present key keeps its place, a new key goes last. *)
Fixpoint set {V : Type} (m : t V) (k : string) (v : V) : t V :=
  match m with
  | [] => [(k, v)]
  | (k', v') :: rest =>
      if String.eqb k' k then (k', v) :: rest else (k', v') :: set rest k v
  end.

Definition keys {V : Type} (m : t V) : list string := map fst m.
Definition values {V : Type} (m : t V) : list V := map snd m.

(** One entry per key. *)
Definition wf {V : Type} (m : t V) : Prop := NoDup (keys m).

(** [m.has(k)] *)
Definition has {V : Type} (m : t V) (k : string) : bool :=
  match get m k with Some _ => true | None => false end.

(** [m.delete(k)]: the entry of [k] goes, the others keep their order. *)
Fixpoint delete {V : Type} (m : t V) (k : string) : t V :=
  match m with
  | [] => []
  | (k', v) :: rest =>
      if String.eqb k' k then rest else (k', v) :: delete rest k
  end.

End JsMap.

(** ** types/ad.ts *)

Module Ad.

(** ['male' | 'female'] *)
Inductive Gender : Type := male | female.

(** ['kid' | 'young' | 'adult'] *)
Inductive AgeGroup : Type := kid | young | adult.

(** ['male' | 'female' | 'all'], the targeting of a spot. *)
Inductive TargetGender : Type := forGender (g : Gender) | allGenders.

(** ['kid' | 'young' | 'adult' | 'all'] *)
Inductive TargetAge : Type := forAge (a : AgeGroup) | allAges.

Definition Gender_eqb (a b : Gender) : bool :=
  match a, b with male, male | female, female => true | _, _ => false end.

Definition AgeGroup_eqb (a b : AgeGroup) : bool :=
  match a, b with
  | kid, kid | young, young | adult, adult => true
  | _, _ => false
  end.

(** [ad.gender === g] for a ['male' | 'female'] value [g]. *)
Definition targetsGender (t : TargetGender) (g : Gender) : bool :=
  match t with forGender g' => Gender_eqb g' g | allGenders => false end.

Definition targetsAge (t : TargetAge) (a : AgeGroup) : bool :=
  match t with forAge a' => AgeGroup_eqb a' a | allAges => false end.

(** [ad.gender === 'all'] *)
Definition isAllGenders (t : TargetGender) : bool :=
  match t with allGenders => true | _ => false end.

Definition isAllAges (t : TargetAge) : bool :=
  match t with allAges => true | _ => false end.

Record AdMetadata : Type := mkAd {
  id : string;
  filename : string;
  title : string;
  gender : TargetGender;
  ageGroup : TargetAge;
  duration : Q;
  captureStart : Q;
  captureEnd : Q;
  thumbnail : option string;
  videoUrl : string
}.

(** Counts of viewers per bucket ([number]s that are always array lengths). *)
Record DemographicCounts : Type := mkCounts {
  c_male : Z;
  c_female : Z;
  c_kid : Z;
  c_young : Z;
  c_adult : Z
}.

Record FaceBoundingBox : Type := mkBox {
  x : Q;
  y : Q;
  width : Q;
  height : Q
}.

(** [boundingBox] is declared optional, but [detectFaces] fills it in every
    result and the tracker dereferences it unchecked ([boundingBox!]); the
    embedding keeps it mandatory. *)
Record DetectionResult : Type := mkResult {
  r_gender : Gender;
  r_ageGroup : AgeGroup;
  r_confidence : Q;
  r_faceScore : Q;
  r_boundingBox : FaceBoundingBox;
  r_trackingId : option string;
  r_lastSeen : option Z;
  r_isUserCorrected : option bool
}.

(** The entries pushed on [reasons]; each stands for the message built by
    the source at that place. *)
Inductive Reason : Type :=
| PerfectMatch (g : Gender) (a : AgeGroup)
| MatchesBoth
| MatchesGender (g : Gender)
| MatchesAge (a : AgeGroup)
| NoMatch
| JustPlayed.

Record AdScore : Type := mkScore {
  ad : AdMetadata;
  score : Z;
  reasons : list Reason
}.

End Ad.

(** ** hooks/useAdQueue: scoreAd *)

Module AdQueue.
Import Ad.

Definition dominantGender (d : DemographicCounts) : Gender :=
  if (c_male d >=? c_female d)%Z then male else female.

Definition dominantAge (d : DemographicCounts) : AgeGroup :=
  if ((c_kid d >=? c_young d) && (c_kid d >=? c_adult d))%Z then kid
  else if ((c_adult d >? c_young d) && (c_adult d >? c_kid d))%Z then adult
  else young.

(** [lastPlayedId] is [lastPlayedIdRef.current], a [string | null]. *)
Definition isLastPlayed (a : AdMetadata) (lastPlayedId : option string) : bool :=
  match lastPlayedId with
  | Some l => String.eqb (id a) l
  | None => false
  end.

Definition scoreAd (lastPlayedId : option string)
           (a : AdMetadata) (demographics : DemographicCounts) : AdScore :=
  let dg := dominantGender demographics in
  let da := dominantAge demographics in
  let genderMatches := targetsGender (gender a) dg || isAllGenders (gender a) in
  let ageMatches := targetsAge (ageGroup a) da || isAllAges (ageGroup a) in
  let '(score1, reasons1) :=
    if targetsGender (gender a) dg && targetsAge (ageGroup a) da then
      (0 + 10, [PerfectMatch dg da])%Z
    else if genderMatches && ageMatches then
      (0 + 5, [MatchesBoth])%Z
    else if targetsGender (gender a) dg then
      (0 + 3, [MatchesGender dg])%Z
    else if targetsAge (ageGroup a) da then
      (0 + 3, [MatchesAge da])%Z
    else
      (0 - 5, [NoMatch])%Z in
  let '(score2, reasons2) :=
    if isLastPlayed a lastPlayedId
    then ((score1 - 3)%Z, reasons1 ++ [JustPlayed])
    else (score1, reasons1) in
  mkScore a score2 reasons2.

(** The demographics of the worked example of the scorer. *)
Definition exampleDemographics : DemographicCounts := mkCounts 5 1 0 4 1.

Definition exampleAd (g : TargetGender) (a : TargetAge) : AdMetadata :=
  mkAd "ad-1" "ad.mp4" "Ad" g a 15 9 15 None "ad.mp4".

End AdQueue.

(** ** types/detection.ts: vote stabilisation *)

Module Detection.
Import Ad.

Record GenderVotes : Type := mkGV { v_male : Q; v_female : Q }.
Record AgeVotes : Type := mkAV { v_kid : Q; v_young : Q; v_adult : Q }.

(** [opts: { minTotal?: number; minMargin?: number }] *)
Record StableOpts : Type := mkOpts {
  minTotal : option Q;
  minMargin : option Q
}.

(** The default [opts = {}]. *)
Definition noOpts : StableOpts := mkOpts None None.

Definition getStableGender (votes : GenderVotes) (previous : Gender)
           (opts : StableOpts) : Gender :=
  let total := v_male votes + v_female votes in
  let minTotal := minTotal opts ?? 0.9 in
  let minMargin := minMargin opts ?? 0.25 in
  if total <? minTotal then previous
  else
    let diff := Num.abs (v_female votes - v_male votes) in
    if diff <? minMargin then previous
    else if v_female votes >? v_male votes then female else male.

Definition getStableAgeGroup (votes : AgeVotes) (previous : AgeGroup)
           (opts : StableOpts) : AgeGroup :=
  let total := v_kid votes + v_young votes + v_adult votes in
  let minTotal := minTotal opts ?? 0.9 in
  let minMargin := minMargin opts ?? 0.25 in
  if total <? minTotal then previous
  else
    match JsArray.sortDesc snd [(kid, v_kid votes); (young, v_young votes);
                                (adult, v_adult votes)] with
    | e0 :: e1 :: _ =>
        if snd e0 - snd e1 <? minMargin then previous else fst e0
    | _ => previous
    end.

(** The evidence the stabiliser looks at. *)
Definition genderTotal (votes : GenderVotes) : Q := v_male votes + v_female votes.
Definition genderMargin (votes : GenderVotes) : Q :=
  Qabs (v_female votes - v_male votes).

(** *** Configuration *)

Inductive DetectorKind : Type := tiny | ssd | dual.

Definition DetectorKind_eqb (a b : DetectorKind) : bool :=
  match a, b with
  | tiny, tiny | ssd, ssd | dual, dual => true
  | _, _ => false
  end.

Record PreprocessingOptions : Type := mkPre {
  gamma : Q;
  contrast : Q;
  sharpen : Q;
  denoise : bool
}.

Record ROIConfig : Type := mkROI {
  roi_enabled : bool;
  roi_x : Q;
  roi_y : Q;
  roi_width : Q;
  roi_height : Q
}.

Record CCTVDetectionConfig : Type := mkConfig {
  detector : DetectorKind;
  sensitivity : Q;
  preprocessing : PreprocessingOptions;
  upscale : Q;
  roi : ROIConfig;
  minFaceScore : Q;
  hardMinFaceScore : option Q;
  minFaceSizePx : Q;
  minFaceSizePercent : Q;
  aspectRatioMin : Q;
  aspectRatioMax : Q;
  minConsecutiveFrames : Z;
  holdFrames : Z;
  maxVelocityPx : Q;
  debugMode : bool;
  femaleBoostFactor : option Q;
  enableHairHeuristics : option bool;
  requireFaceTexture : option bool;
  enableEnhancedRescue : option bool
}.

Definition DEFAULT_CCTV_CONFIG : CCTVDetectionConfig :=
  {| detector := dual;
     sensitivity := 0.15;
     preprocessing := mkPre 1.4 1.5 0.4 true;
     upscale := 2.0;
     roi := mkROI false 0 0 1 1;
     minFaceScore := 0.1;
     hardMinFaceScore := None;
     minFaceSizePx := 12;
     minFaceSizePercent := 0.05;
     aspectRatioMin := 0.25;
     aspectRatioMax := 4.0;
     minConsecutiveFrames := 2;
     holdFrames := 8;
     maxVelocityPx := 250;
     debugMode := false;
     femaleBoostFactor := None;
     enableHairHeuristics := None;
     requireFaceTexture := None;
     enableEnhancedRescue := None |}.

Definition DEFAULT_WEBCAM_CONFIG : CCTVDetectionConfig :=
  {| detector := tiny;
     sensitivity := 0.2;
     preprocessing := mkPre 1.0 1.0 0 false;
     upscale := 1;
     roi := mkROI false 0 0 1 1;
     minFaceScore := 0.15;
     hardMinFaceScore := None;
     minFaceSizePx := 12;
     minFaceSizePercent := 0.1;
     aspectRatioMin := 0.25;
     aspectRatioMax := 4.0;
     minConsecutiveFrames := 2;
     holdFrames := 3;
     maxVelocityPx := 250;
     debugMode := false;
     femaleBoostFactor := None;
     enableHairHeuristics := None;
     requireFaceTexture := None;
     enableEnhancedRescue := None |}.

(** *** Tracks and capture sessions *)

Record Velocity : Type := mkVel { vx : Q; vy : Q }.

Record TrackedFace : Type := mkTracked {
  t_id : string;
  t_boundingBox : FaceBoundingBox;
  t_velocity : Velocity;
  t_confidence : Q;
  t_faceScore : Q;
  t_gender : Gender;
  t_ageGroup : AgeGroup;
  t_consecutiveHits : Z;
  t_missedFrames : Z;
  t_firstSeenAt : Z;
  t_lastSeenAt : Z;
  t_detectorUsed : DetectorKind;
  t_genderVotes : GenderVotes;
  t_ageVotes : AgeVotes;
  t_stableGender : Gender;
  t_stableAgeGroup : AgeGroup;
  t_isUserCorrected : option bool
}.

Record ViewerAggregate : Type := mkViewer {
  a_trackingId : string;
  a_genderVotes : GenderVotes;
  a_ageVotes : AgeVotes;
  a_seenFrames : Z;
  a_bestFaceScore : Q;
  a_bestConfidence : Q;
  a_finalGender : Gender;
  a_finalAgeGroup : AgeGroup
}.

Record CaptureSessionSummary : Type := mkSummary {
  s_startedAt : Z;
  s_endedAt : option Z;
  s_totalFrames : Z;
  s_uniqueViewers : Z;
  s_demographics : DemographicCounts;
  s_viewers : list ViewerAggregate
}.

Definition toDetectionResult (tracked : TrackedFace) : DetectionResult :=
  {| r_gender := t_stableGender tracked;
     r_ageGroup := t_stableAgeGroup tracked;
     r_confidence := t_confidence tracked;
     r_faceScore := t_faceScore tracked;
     r_boundingBox := t_boundingBox tracked;
     r_trackingId := Some (t_id tracked);
     r_lastSeen := Some (t_lastSeenAt tracked);
     r_isUserCorrected := None |}.

End Detection.

(** ** hooks/useFaceDetection: merging and the multi-pass orchestrator *)

Module FaceDetection.
Import Ad Detection.

(** *** Raw detector output

    The detector results are untyped in the source.  A result of the face
    library wraps box and score in a [detection] member, a bare detection
    carries them itself; every reader accepts both shapes. *)
Record FaceDetectionBox : Type := mkInner {
  d_box : option FaceBoundingBox;
  d_score : option Q
}.

Record RawDetection : Type := mkRaw {
  detection : option FaceDetectionBox;
  box : option FaceBoundingBox;
  score : option Q;
  age : Q;
  rawGender : Gender;
  genderProbability : Q
}.

(** [a ?? b] between two optional values. *)
Definition orOpt {A : Type} (a b : option A) : option A :=
  match a with Some _ => a | None => b end.

(** [d.detection?.score ?? d.score ?? 0] *)
Definition getScore (d : RawDetection) : Q :=
  orOpt (match detection d with Some i => d_score i | None => None end)
        (score d) ?? 0.

(** [d.detection?.box ?? d.box] *)
Definition getBox (d : RawDetection) : option FaceBoundingBox :=
  orOpt (match detection d with Some i => d_box i | None => None end) (box d).

(** *** mergeDetections *)

(** The body of the inner loop: is [boxB] a duplicate of the kept [boxA]? *)
Definition overlaps (iouThreshold containmentThreshold : Q)
           (boxA boxB : FaceBoundingBox) : bool :=
  let x1 := Num.max (x boxA) (x boxB) in
  let y1 := Num.max (y boxA) (y boxB) in
  let x2 := Num.min (x boxA + width boxA) (x boxB + width boxB) in
  let y2 := Num.min (y boxA + height boxA) (y boxB + height boxB) in
  let intersection := Num.max 0 (x2 - x1) * Num.max 0 (y2 - y1) in
  let areaA := width boxA * height boxA in
  let areaB := width boxB * height boxB in
  let union := areaA + areaB - intersection in
  let iou := if union >? 0 then intersection / union else 0 in
  let containment := if areaB >? 0 then intersection / areaB else 0 in
  (iou >=? iouThreshold) || (containment >=? containmentThreshold).

(** The inner loop over [merged], left with [break] at the first hit. *)
Definition isDuplicate (iouThreshold containmentThreshold : Q)
           (merged : list RawDetection) (boxB : FaceBoundingBox) : bool :=
  existsb (fun kept =>
             match getBox kept with
             | None => false
             | Some boxA => overlaps iouThreshold containmentThreshold boxA boxB
             end) merged.

(** One turn of the outer loop. *)
Definition mergeStep (iouThreshold containmentThreshold : Q)
           (merged : list RawDetection) (cand : RawDetection) : list RawDetection :=
  match getBox cand with
  | None => merged
  | Some boxB =>
      if isDuplicate iouThreshold containmentThreshold merged boxB
      then merged
      else merged ++ [cand]
  end.

(** The outer loop over [sorted], started with [merged]. *)
Definition mergeLoop (iouThreshold containmentThreshold : Q)
           (merged sorted : list RawDetection) : list RawDetection :=
  fold_left (mergeStep iouThreshold containmentThreshold) sorted merged.

Definition mergeDetections (detections : list RawDetection)
           (_videoWidth _videoHeight : Q)
           (iouThreshold containmentThreshold : Q) : list RawDetection :=
  if (List.length detections =? 0)%nat then []
  else
    let sorted := JsArray.sortDesc getScore detections in
    mergeLoop iouThreshold containmentThreshold [] sorted.

(** An array is deduplicated when each element would be kept by the step
    that meets it behind the elements in front of it: it has a box and is no
    duplicate of any of them. *)
Definition deduplicated (iouThreshold containmentThreshold : Q)
           (m : list RawDetection) : Prop :=
  forall p c s,
    m = p ++ c :: s ->
    mergeStep iouThreshold containmentThreshold p c = p ++ [c].

(** The default thresholds of the parameter list. *)
Definition defaultIou : Q := 0.55.
Definition defaultContainment : Q := 0.85.

(** *** Exceptions *)

Inductive Outcome (A : Type) : Type :=
| Returned (a : A)
| Thrown.
Arguments Returned {A} a.
Arguments Thrown {A}.

Definition bind {A B : Type} (o : Outcome A) (k : A -> Outcome B) : Outcome B :=
  match o with Returned a => k a | Thrown => Thrown end.

(** [try { o } catch { fallback }] *)
Definition tryCatch {A : Type} (o : Outcome A) (fallback : A) : A :=
  match o with Returned a => a | Thrown => fallback end.

(** *** The thresholds of the passes *)

Definition detectionThreshold (config : CCTVDetectionConfig) : Q :=
  Num.max (sensitivity config - 0.05) 0.15.

Definition pass1Threshold (config : CCTVDetectionConfig) : Q :=
  Num.max (detectionThreshold config - 0.05) 0.1.

Definition rescueThreshold (config : CCTVDetectionConfig) : Q :=
  Num.max (sensitivity config - 0.10) 0.12.

Definition ultraLowThreshold : Q := 0.08.

Definition pass3MinCandidateScore (config : CCTVDetectionConfig) : Q :=
  Num.max (Num.max (minFaceScore config) (hardMinFaceScore config ?? 0.15)) 0.20.

Definition pass1Scales (isCCTV : bool) : list Z :=
  if isCCTV then [320; 416; 512; 608]%Z else [416; 512]%Z.

Definition pass2Scales : list Z := [320; 416; 512; 608]%Z.

(** [shouldRunPass2], from the number of faces Pass 1 left. *)
Definition shouldRunPass2 (isCCTV : bool) (config : CCTVDetectionConfig)
           (found : list RawDetection) : bool :=
  let enableEnhancedRescue := enableEnhancedRescue config ?? false in
  isCCTV && negb (DetectorKind_eqb (detector config) tiny)
  && ((List.length found <? 3)%nat || enableEnhancedRescue).

Definition shouldRunPass3 (isCCTV : bool) (config : CCTVDetectionConfig)
           (found : list RawDetection) : bool :=
  let enableEnhancedRescue := enableEnhancedRescue config ?? false in
  isCCTV && negb (DetectorKind_eqb (detector config) tiny)
  && (List.length found <? 5)%nat && enableEnhancedRescue.

(** The candidate filter of Pass 3 (boxes are in the 2.5x canvas). *)
Definition isStrongCandidate (config : CCTVDetectionConfig)
           (videoWidth videoHeight : Q) (d : RawDetection) : bool :=
  let '(detBox, detScore) :=
    match detection d with
    | Some i => (d_box i, d_score i)
    | None => (box d, score d)
    end in
  let score := detScore ?? 0 in
  if score <? pass3MinCandidateScore config then false
  else
    match detBox with
    | None => false
    | Some b =>
        if Qeq_bool (width b) 0 || Qeq_bool (height b) 0 then false
        else
          let actualWidth := width b / 2.5 in
          let actualHeight := height b / 2.5 in
          if (actualWidth <? minFaceSizePx config)
             || (actualHeight <? minFaceSizePx config) then false
          else
            let frameArea := videoWidth * videoHeight in
            let faceArea := actualWidth * actualHeight in
            if faceArea >? frameArea * 0.30 then false
            else
              let aspectRatio := actualWidth / actualHeight in
              if (aspectRatio <? aspectRatioMin config)
                 || (aspectRatio >? aspectRatioMax config) then false
              else true
    end.

(** *** detectFaces

    The neural detector and the canvas are outside the program: a detector
    call on an input either returns raw detections or throws, and building a
    processed canvas returns a canvas, returns [null] or throws.  Every call
    of a cycle is a different request to the detector, so the calls are told
    apart by their place: the pass and the position in the order in which the
    pass issues them. *)

Record CallSite : Type := mkSite { pass : nat; slot : nat }.

Inductive DetectorOptions : Type :=
| TinyFaceDetectorOptions (inputSize : Z) (scoreThreshold : Q)
| SsdMobilenetv1Options (minConfidence : Q).

Inductive Input (Canvas : Type) : Type :=
| VideoElement
| CanvasElement (c : Canvas).
Arguments VideoElement {Canvas}.
Arguments CanvasElement {Canvas} c.

(** What the orchestration hands to [processDetections]. *)
Record Collected (Canvas : Type) : Type := mkCollected {
  detections : list RawDetection;
  detectorUsed : DetectorKind;
  passUsed : Z;
  upscaled : bool;
  preprocessingApplied : bool;
  scaleBack : Q;
  roiOffset : option (Q * Q);
  textureCheckCanvas : option Canvas
}.
Arguments mkCollected {Canvas}.
Arguments detections {Canvas}.
Arguments detectorUsed {Canvas}.
Arguments passUsed {Canvas}.
Arguments upscaled {Canvas}.
Arguments preprocessingApplied {Canvas}.
Arguments scaleBack {Canvas}.
Arguments roiOffset {Canvas}.
Arguments textureCheckCanvas {Canvas}.

(** [arr.map((v, i) => f i v)] *)
Definition mapi {A B : Type} (f : nat -> A -> B) (l : list A) : list B :=
  map (fun iv => f (fst iv) (snd iv)) (combine (seq 0 (List.length l)) l).

Section DetectFaces.

Variable Canvas : Type.

(** [faceapi.detectAllFaces(input, options).withAgeAndGender()] *)
Variable detectAllFaces :
  CallSite -> Input Canvas -> DetectorOptions -> Outcome (list RawDetection).

(** [createPreprocessedCanvas(videoElement, preprocessing, scale, roi)] *)
Variable createProcessedCanvas :
  PreprocessingOptions -> Q -> option ROIConfig -> Outcome (option Canvas).

(** [processDetections] (filter, classification, bias correction, which read
    the pixels of the texture canvas), the debug counters and
    [dedupeResultsByIoU]: the tail of the cycle behind the candidate set. *)
Variable processAndDedupe : Collected Canvas -> Outcome (list DetectionResult).

Variable ssdLoaded : bool.
Variable isCCTV : bool.
Variable config : CCTVDetectionConfig.
Variables videoWidth videoHeight : Q.

Definition runTinyDetection (site : CallSite) (input : Input Canvas)
           (inputSize : Z) (scoreThreshold : Q) : Outcome (list RawDetection) :=
  detectAllFaces site input (TinyFaceDetectorOptions inputSize scoreThreshold).

Definition runSsdDetection (site : CallSite) (input : Input Canvas)
           (minConfidence : Q) : Outcome (list RawDetection) :=
  if negb ssdLoaded then Returned []
  else detectAllFaces site input (SsdMobilenetv1Options minConfidence).

Definition isDualMode : bool := DetectorKind_eqb (detector config) dual && ssdLoaded.
Definition useSsdOnly : bool := DetectorKind_eqb (detector config) ssd && ssdLoaded.

(** Pass 1: every scale under its own [try]/[catch], then the extra SSD call
    under its own.  Returns the per-call arrays and [detectorUsed]. *)
Definition pass1Detections : list (list RawDetection) * DetectorKind :=
  let scales := pass1Scales isCCTV in
  let allPass1Detections :=
    mapi (fun k inputSize =>
            tryCatch
              (if useSsdOnly
               then runSsdDetection (mkSite 1 k) VideoElement (pass1Threshold config)
               else runTinyDetection (mkSite 1 k) VideoElement inputSize
                                     (pass1Threshold config))
              []) scales in
  let '(allPass1Detections, detectorUsed) :=
    if ssdLoaded && (isDualMode || negb (DetectorKind_eqb (detector config) tiny)) then
      match runSsdDetection (mkSite 1 (List.length scales)) VideoElement
                            (pass1Threshold config) with
      | Returned ssdResults =>
          if (0 <? List.length ssdResults)%nat
          then (allPass1Detections ++ [ssdResults], ssd)
          else (allPass1Detections, tiny)
      | Thrown => (allPass1Detections, tiny)
      end
    else (allPass1Detections, tiny) in
  (allPass1Detections, if isDualMode then ssd else detectorUsed).

(** The detector calls of Pass 2 on the processed canvas. *)
Definition pass2Detections (processedCanvas : Canvas)
  : list (list RawDetection) * bool :=
  let pass2Detections :=
    mapi (fun k inputSize =>
            tryCatch
              (runTinyDetection (mkSite 2 k) (CanvasElement processedCanvas)
                                inputSize (rescueThreshold config))
              []) pass2Scales in
  if ssdLoaded then
    match runSsdDetection (mkSite 2 (List.length pass2Scales))
                          (CanvasElement processedCanvas) (rescueThreshold config) with
    | Returned ssdResults =>
        if (0 <? List.length ssdResults)%nat
        then (pass2Detections ++ [ssdResults], true)
        else (pass2Detections, false)
    | Thrown => (pass2Detections, false)
    end
  else (pass2Detections, false).

(** The body of the [try] of Pass 3: the candidates it would add. *)
Definition pass3Candidates : Outcome (option (list RawDetection)) :=
  bind (createProcessedCanvas (mkPre 1.8 2.0 0.6 true) 2.5 None)
       (fun enhancedCanvas =>
          match enhancedCanvas with
          | None => Returned None
          | Some c =>
              (* Promise.all: both calls are started, one rejection rejects all *)
              let tinyCall := runTinyDetection (mkSite 3 0) (CanvasElement c) 608
                                               ultraLowThreshold in
              let ssdCall := if ssdLoaded
                             then runSsdDetection (mkSite 3 1) (CanvasElement c)
                                                  ultraLowThreshold
                             else Returned [] in
              bind tinyCall (fun tinyResults =>
              bind ssdCall (fun ssdResults =>
                let pass3Detections := [tinyResults; ssdResults] in
                let strongCandidates :=
                  filter (isStrongCandidate config videoWidth videoHeight)
                         (JsArray.flat pass3Detections) in
                Returned (Some (mergeDetections strongCandidates
                                                videoWidth videoHeight 0.6 0.9))))
          end).

(** Pass 1 and Pass 2: the state of the cycle in front of Pass 3. *)
Definition collectPass1And2 : Outcome (Collected Canvas) :=
  let roiOffset :=
    if roi_enabled (roi config)
    then Some (roi_x (roi config) * videoWidth, roi_y (roi config) * videoHeight)
    else None in
  (* Pass 1 *)
  let '(allPass1Detections, detectorUsed) := pass1Detections in
  let mergedPass1 := mergeDetections (JsArray.flat allPass1Detections)
                                     videoWidth videoHeight
                                     defaultIou defaultContainment in
  let detections := mergedPass1 in
  let runPass2 := shouldRunPass2 isCCTV config detections in
  bind (if requireFaceTexture config ?? false
        then createProcessedCanvas (mkPre 1 1 0 false) 1 None
        else Returned None)
       (fun textureCheckCanvas =>
  (* Pass 2 *)
  if runPass2 then
    let aggressivePreprocessing :=
      mkPre (Num.max (gamma (preprocessing config)) 1.5)
            (Num.max (contrast (preprocessing config)) 1.6)
            (Num.max (sharpen (preprocessing config)) 0.5)
            true in
    bind (createProcessedCanvas aggressivePreprocessing (upscale config)
            (if roi_enabled (roi config) then Some (roi config) else None))
         (fun processedCanvas =>
            match processedCanvas with
            | None =>
                Returned (mkCollected detections detectorUsed 2 false false 1
                                      roiOffset textureCheckCanvas)
            | Some c =>
                let '(pass2, ssdHit) := pass2Detections c in
                let mergedPass2 :=
                  mergeDetections (JsArray.flat pass2) videoWidth videoHeight
                                  defaultIou defaultContainment in
                let detections :=
                  if (0 <? List.length mergedPass2)%nat
                  then mergeDetections (detections ++ mergedPass2)
                                       videoWidth videoHeight
                                       defaultIou defaultContainment
                  else detections in
                Returned (mkCollected detections
                                      (if ssdHit then ssd else detectorUsed) 2
                                      (upscale config >? 1) true (upscale config)
                                      roiOffset textureCheckCanvas)
            end)
  else Returned (mkCollected detections detectorUsed 1 false false 1
                             roiOffset textureCheckCanvas)).

(** Pass 3 on the state Pass 2 left; its [try]/[catch] swallows every
    exception of the pass. *)
Definition applyPass3 (afterPass2 : Collected Canvas) : Collected Canvas :=
  if shouldRunPass3 isCCTV config (detections afterPass2) then
    match pass3Candidates with
    | Returned (Some mergedPass3) =>
        if (0 <? List.length mergedPass3)%nat then
          mkCollected
            (mergeDetections (detections afterPass2 ++ mergedPass3)
                             videoWidth videoHeight 0.6 0.9)
            (detectorUsed afterPass2)
            (passUsed afterPass2) true true 2.5
            (roiOffset afterPass2) (textureCheckCanvas afterPass2)
        else afterPass2
    | Returned None => afterPass2
    | Thrown => afterPass2
    end
  else afterPass2.

(** The orchestration of the passes, up to the call of [processDetections]. *)
Definition collectDetections : Outcome (Collected Canvas) :=
  bind collectPass1And2 (fun afterPass2 => Returned (applyPass3 afterPass2)).

(** [detectFaces]: the in-flight guard and the readiness test, then the cycle
    under the outer [try]/[catch].  (The race against the timer is not part
    of the embedding.) *)
Definition detectFaces (inFlight ready : bool) : list DetectionResult :=
  if inFlight then []
  else if negb ready then []
  else tryCatch (bind collectDetections processAndDedupe) [].

End DetectFaces.

(** Two detectors that answer alike, except that per-call requests of Pass 1
    and Pass 2 on which the first one throws are answered by the second one
    with no detection at all. *)
Definition failsQuietly {Canvas : Type}
           (detect detect' :
              CallSite -> Input Canvas -> DetectorOptions -> Outcome (list RawDetection))
  : Prop :=
  forall site input options,
    detect' site input options = detect site input options
    \/ ((pass site = 1 \/ pass site = 2)%nat
        /\ detect site input options = Thrown
        /\ detect' site input options = Returned []).

End FaceDetection.

(** ** SmartAdsSystem: the tracker cycle and the capture session *)

Module SmartAds.
Import Ad Detection.

(** Minimum confidence to count a detection vote. *)
Definition MIN_VOTE_CONFIDENCE : Q := 0.65.
(** Minimum frames a face must be seen to count in the session summary. *)
Definition MIN_FRAMES_FOR_SESSION : Z := 2.

(** A number or [Infinity]. *)
Inductive Distance : Type := Finite (d : Q) | Infinity.

(** [Math.min] on two distances. *)
Definition minDistance (a b : Distance) : Distance :=
  match a, b with
  | Finite p, Finite q => Finite (Num.min p q)
  | Finite p, Infinity => Finite p
  | Infinity, Finite q => Finite q
  | Infinity, Infinity => Infinity
  end.

Definition calculateIoU (box1 box2 : option FaceBoundingBox) : Q :=
  match box1, box2 with
  | Some box1, Some box2 =>
      let x1 := Num.max (x box1) (x box2) in
      let y1 := Num.max (y box1) (y box2) in
      let x2 := Num.min (x box1 + width box1) (x box2 + width box2) in
      let y2 := Num.min (y box1 + height box1) (y box2 + height box2) in
      let intersection := Num.max 0 (x2 - x1) * Num.max 0 (y2 - y1) in
      let area1 := width box1 * height box1 in
      let area2 := width box2 * height box2 in
      let union := area1 + area2 - intersection in
      if union >? 0 then intersection / union else 0
  | _, _ => 0
  end.

(** The capture session held in [captureSessionRef]. *)
Record CaptureSession : Type := mkSession {
  startedAt : Z;
  frameCount : Z;
  viewers : JsMap.t ViewerAggregate
}.

(** The state the detection loop writes: the track table and the session. *)
Record TrackerState : Type := mkState {
  tracked : JsMap.t TrackedFace;
  captureSession : option CaptureSession
}.

(** [set.has(i)] on the sets of the loop. *)
Definition hasIndex (used : list nat) (i : nat) : bool :=
  existsb (Nat.eqb i) used.

Definition hasId (ids : list string) (k : string) : bool :=
  existsb (String.eqb k) ids.

(** The votes one confident detection adds ([voteWeight] on its gender, with
    the female share boosted by uncertainty, and on its age group). *)
Definition voteWeight (detection : DetectionResult) : Q :=
  r_confidence detection * Num.min (r_faceScore detection) 1.

Definition femaleBoost (femaleBoostFactor : Q) (detection : DetectionResult) : Q :=
  let confidenceScale := Num.max 0 (1 - (r_confidence detection - 0.5) * 2) in
  femaleBoostFactor * confidenceScale.

Definition addGenderVote (votes : GenderVotes) (g : Gender) (w : Q) : GenderVotes :=
  match g with
  | male => mkGV (v_male votes + w) (v_female votes)
  | female => mkGV (v_male votes) (v_female votes + w)
  end.

Definition addAgeVote (votes : AgeVotes) (a : AgeGroup) (w : Q) : AgeVotes :=
  match a with
  | kid => mkAV (v_kid votes + w) (v_young votes) (v_adult votes)
  | young => mkAV (v_kid votes) (v_young votes + w) (v_adult votes)
  | adult => mkAV (v_kid votes) (v_young votes) (v_adult votes + w)
  end.

(** [votes[g] = w] on a fresh vote record. *)
Definition setGenderVote (votes : GenderVotes) (g : Gender) (w : Q) : GenderVotes :=
  match g with
  | male => mkGV w (v_female votes)
  | female => mkGV (v_male votes) w
  end.

Definition setAgeVote (votes : AgeVotes) (a : AgeGroup) (w : Q) : AgeVotes :=
  match a with
  | kid => mkAV w (v_young votes) (v_adult votes)
  | young => mkAV (v_kid votes) w (v_adult votes)
  | adult => mkAV (v_kid votes) (v_young votes) w
  end.

(** [detection.trackingId?.startsWith('ssd') ? 'ssd' : 'tiny'] *)
Definition detectorOf (detection : DetectionResult) : DetectorKind :=
  match r_trackingId detection with
  | Some s => if String.prefix "ssd" s then ssd else tiny
  | None => tiny
  end.

(** The track written by [tracked.set(id, ...)] when [trackedFace] is matched
    by [detection]. *)
Definition updateMatched (femaleBoostFactor : Q) (currentTime : Z)
           (trackedFace : TrackedFace) (detection : DetectionResult) : TrackedFace :=
  let alpha := 0.7 in
  let newVx := x (r_boundingBox detection) - x (t_boundingBox trackedFace) in
  let newVy := y (r_boundingBox detection) - y (t_boundingBox trackedFace) in
  let isUserCorrected :=
    match t_isUserCorrected trackedFace with Some true => true | _ => false end in
  let '(newGenderVotes, newAgeVotes) :=
    if negb isUserCorrected && (r_confidence detection >=? MIN_VOTE_CONFIDENCE) then
      let w := voteWeight detection in
      ((match r_gender detection with
        | male => addGenderVote (t_genderVotes trackedFace) male w
        | female =>
            addGenderVote (t_genderVotes trackedFace) female
                          (w * (1 + femaleBoost femaleBoostFactor detection))
        end),
       addAgeVote (t_ageVotes trackedFace) (r_ageGroup detection) w)
    else (t_genderVotes trackedFace, t_ageVotes trackedFace) in
  let stableGender :=
    if isUserCorrected then t_stableGender trackedFace
    else getStableGender newGenderVotes (t_stableGender trackedFace) noOpts in
  let stableAgeGroup :=
    if isUserCorrected then t_stableAgeGroup trackedFace
    else getStableAgeGroup newAgeVotes (t_stableAgeGroup trackedFace) noOpts in
  {| t_id := t_id trackedFace;
     t_boundingBox :=
       mkBox (x (t_boundingBox trackedFace) * (1 - alpha)
              + x (r_boundingBox detection) * alpha)
             (y (t_boundingBox trackedFace) * (1 - alpha)
              + y (r_boundingBox detection) * alpha)
             (width (t_boundingBox trackedFace) * (1 - alpha)
              + width (r_boundingBox detection) * alpha)
             (height (t_boundingBox trackedFace) * (1 - alpha)
              + height (r_boundingBox detection) * alpha);
     t_velocity := mkVel (vx (t_velocity trackedFace) * 0.5 + newVx * 0.5)
                         (vy (t_velocity trackedFace) * 0.5 + newVy * 0.5);
     t_confidence := if isUserCorrected then 1.0 else r_confidence detection;
     t_faceScore := r_faceScore detection;
     t_gender := if isUserCorrected then t_gender trackedFace else r_gender detection;
     t_ageGroup :=
       if isUserCorrected then t_ageGroup trackedFace else r_ageGroup detection;
     t_consecutiveHits := t_consecutiveHits trackedFace + 1;
     t_missedFrames := 0;
     t_firstSeenAt := t_firstSeenAt trackedFace;
     t_lastSeenAt := currentTime;
     t_detectorUsed := detectorOf detection;
     t_genderVotes := newGenderVotes;
     t_ageVotes := newAgeVotes;
     t_stableGender := stableGender;
     t_stableAgeGroup := stableAgeGroup;
     t_isUserCorrected := Some isUserCorrected |}.

(** The track created for an unmatched detection. *)
Definition newTrack (femaleBoostFactor : Q) (currentTime : Z) (newId : string)
           (detection : DetectionResult) : TrackedFace :=
  let initialGenderVotes := mkGV 0 0 in
  let initialAgeVotes := mkAV 0 0 0 in
  let '(initialGenderVotes, initialAgeVotes) :=
    if r_confidence detection >=? MIN_VOTE_CONFIDENCE then
      let w := voteWeight detection in
      ((match r_gender detection with
        | male => setGenderVote initialGenderVotes male w
        | female =>
            setGenderVote initialGenderVotes female
                          (w * (1 + femaleBoost femaleBoostFactor detection))
        end),
       setAgeVote initialAgeVotes (r_ageGroup detection) w)
    else (initialGenderVotes, initialAgeVotes) in
  {| t_id := newId;
     t_boundingBox := r_boundingBox detection;
     t_velocity := mkVel 0 0;
     t_confidence := r_confidence detection;
     t_faceScore := r_faceScore detection;
     t_gender := r_gender detection;
     t_ageGroup := r_ageGroup detection;
     t_consecutiveHits := 1;
     t_missedFrames := 0;
     t_firstSeenAt := currentTime;
     t_lastSeenAt := currentTime;
     t_detectorUsed := detectorOf detection;
     t_genderVotes := initialGenderVotes;
     t_ageVotes := initialAgeVotes;
     t_stableGender := r_gender detection;
     t_stableAgeGroup := r_ageGroup detection;
     t_isUserCorrected := None |}.

(** The reading of "seeded with the detection's own values": the bucket of
    the detection's gender and the bucket of its age group hold its weight,
    confidence times face score. *)
Definition seededWithOwnValues (t : TrackedFace) (detection : DetectionResult) : Prop :=
  (match r_gender detection with
   | male => v_male (t_genderVotes t)
   | female => v_female (t_genderVotes t)
   end) == voteWeight detection
  /\ (match r_ageGroup detection with
      | kid => v_kid (t_ageVotes t)
      | young => v_young (t_ageVotes t)
      | adult => v_adult (t_ageVotes t)
      end) == voteWeight detection.

(** The session entry of a stable track that was matched in this cycle. *)
Definition observeViewer (session : CaptureSession) (id : string)
           (detection : DetectionResult) : CaptureSession :=
  match JsMap.get (viewers session) id with
  | Some existing =>
      let '(gv, av) :=
        if r_confidence detection >=? MIN_VOTE_CONFIDENCE then
          (addGenderVote (a_genderVotes existing) (r_gender detection)
                         (r_confidence detection),
           addAgeVote (a_ageVotes existing) (r_ageGroup detection)
                      (r_confidence detection))
        else (a_genderVotes existing, a_ageVotes existing) in
      let updated :=
        {| a_trackingId := a_trackingId existing;
           a_genderVotes := gv;
           a_ageVotes := av;
           a_seenFrames := a_seenFrames existing + 1;
           a_bestFaceScore := Num.max (a_bestFaceScore existing) (r_faceScore detection);
           a_bestConfidence :=
             Num.max (a_bestConfidence existing) (r_confidence detection);
           a_finalGender := getStableGender gv (a_finalGender existing) noOpts;
           a_finalAgeGroup := getStableAgeGroup av (a_finalAgeGroup existing) noOpts |} in
      mkSession (startedAt session) (frameCount session)
                (JsMap.set (viewers session) id updated)
  | None =>
      let fresh :=
        {| a_trackingId := id;
           a_genderVotes :=
             mkGV (match r_gender detection with
                   | male => r_confidence detection | female => 0 end)
                  (match r_gender detection with
                   | female => r_confidence detection | male => 0 end);
           a_ageVotes :=
             mkAV (match r_ageGroup detection with
                   | kid => r_confidence detection | _ => 0 end)
                  (match r_ageGroup detection with
                   | young => r_confidence detection | _ => 0 end)
                  (match r_ageGroup detection with
                   | adult => r_confidence detection | _ => 0 end);
           a_seenFrames := 1;
           a_bestFaceScore := r_faceScore detection;
           a_bestConfidence := r_confidence detection;
           a_finalGender := r_gender detection;
           a_finalAgeGroup := r_ageGroup detection |} in
      mkSession (startedAt session) (frameCount session)
                (JsMap.set (viewers session) id fresh)
  end.

(** A track matched tick after tick: the states [updateMatched] writes for
    the detections [(currentTime, detection)] it is matched with. *)
Fixpoint matchedTimeline (femaleBoostFactor : Q) (trackedFace : TrackedFace)
         (ds : list (Z * DetectionResult)) : list TrackedFace :=
  match ds with
  | [] => []
  | (currentTime, detection) :: rest =>
      let next := updateMatched femaleBoostFactor currentTime trackedFace detection in
      next :: matchedTimeline femaleBoostFactor next rest
  end.

(** *** One tick of the detection loop

    [Math.sqrt] is a primitive of the platform, [femaleBoostFactor] and
    [minDemographicConfidence] are read from the capture settings, [config]
    is [trackingConfig]. *)

Section DetectionLoop.

Variable sqrt : Q -> Q.
Variable femaleBoostFactor : Q.
Variable minDemographicConfidence : Q.
Variable config : CCTVDetectionConfig.

Definition calculateCenterDistance (box1 box2 : option FaceBoundingBox) : Distance :=
  match box1, box2 with
  | Some box1, Some box2 =>
      let cx1 := x box1 + width box1 / 2 in
      let cy1 := y box1 + height box1 / 2 in
      let cx2 := x box2 + width box2 / 2 in
      let cy2 := y box2 + height box2 / 2 in
      Finite (sqrt ((cx2 - cx1) ^ 2 + (cy2 - cy1) ^ 2))
  | _, _ => Infinity
  end.

(** The body of the inner matching loop for detection [i]: the new
    [(bestMatch, bestScore)]. *)
Definition considerDetection (usedDetections : list nat) (trackedFace : TrackedFace)
           (best : option (nat * DetectionResult) * Q)
           (i : nat) (detection : DetectionResult)
  : option (nat * DetectionResult) * Q :=
  if hasIndex usedDetections i then best
  else
    let iou := calculateIoU (Some (r_boundingBox detection))
                            (Some (t_boundingBox trackedFace)) in
    let distance := calculateCenterDistance (Some (r_boundingBox detection))
                                            (Some (t_boundingBox trackedFace)) in
    let predictedX := x (t_boundingBox trackedFace) + vx (t_velocity trackedFace) in
    let predictedY := y (t_boundingBox trackedFace) + vy (t_velocity trackedFace) in
    let predictedBox := mkBox predictedX predictedY
                              (width (t_boundingBox trackedFace))
                              (height (t_boundingBox trackedFace)) in
    let predictedDistance :=
      calculateCenterDistance (Some (r_boundingBox detection)) (Some predictedBox) in
    match minDistance distance predictedDistance with
    | Infinity => best
    | Finite effectiveDistance =>
        if effectiveDistance >? maxVelocityPx config then best
        else
          let score := iou * 0.6 + Num.max 0 (1 - effectiveDistance / 200) * 0.4 in
          if (score >? snd best) && ((iou >? 0.2) || (effectiveDistance <? 80))
          then (Some (i, detection), score)
          else best
    end.

(** [results] with their indices. *)
Definition indexed {A : Type} (l : list A) : list (nat * A) :=
  combine (seq 0 (List.length l)) l.

Definition findBestMatch (usedDetections : list nat) (trackedFace : TrackedFace)
           (results : list DetectionResult) : option (nat * DetectionResult) :=
  fst (fold_left
         (fun best iv => considerDetection usedDetections trackedFace best
                                           (fst iv) (snd iv))
         (indexed results) (None, 0)).

(** The variables the matching loop carries. *)
Record Matching : Type := mkMatching {
  m_tracked : JsMap.t TrackedFace;
  m_session : option CaptureSession;
  matchedIds : list string;
  usedDetections : list nat
}.

(** What the matching loop leaves alone: the keys of the table and
    every track whose id it does not put into [matchedIds]. *)
Definition untouched (m m' : Matching) : Prop :=
  JsMap.keys (m_tracked m') = JsMap.keys (m_tracked m)
  /\ forall k, hasId (matchedIds m') k = false ->
               hasId (matchedIds m) k = false
               /\ JsMap.get (m_tracked m') k = JsMap.get (m_tracked m) k
               /\ forall v, In (k, v) (m_tracked m) -> In (k, v) (m_tracked m').

(** One turn of the loop over [tracked.entries()]. *)
Definition matchTrack (currentTime : Z) (results : list DetectionResult)
           (m : Matching) (entry : string * TrackedFace) : Matching :=
  let '(id, trackedFace) := entry in
  match findBestMatch (usedDetections m) trackedFace results with
  | None => m
  | Some (bestMatch, detection) =>
      {| m_tracked :=
           JsMap.set (m_tracked m) id
                     (updateMatched femaleBoostFactor currentTime trackedFace detection);
         m_session :=
           match m_session m with
           | Some session =>
               if (t_consecutiveHits trackedFace >=? minConsecutiveFrames config)%Z
               then Some (observeViewer session id detection)
               else Some session
           | None => None
           end;
         matchedIds := id :: matchedIds m;
         usedDetections := bestMatch :: usedDetections m |}
  end.

Definition matchTracks (currentTime : Z) (results : list DetectionResult)
           (st : TrackerState) : Matching :=
  fold_left (matchTrack currentTime results) (tracked st)
            (mkMatching (tracked st) (captureSession st) [] []).

(** [`face_${currentTime}_${suffix}`], [suffix] being the random characters
    drawn for the detection. *)
Definition string_of_Z (n : Z) : string := NilZero.string_of_int (Z.to_int n).

Definition newId (currentTime : Z) (suffix : string) : string :=
  ("face_" ++ string_of_Z currentTime ++ "_" ++ suffix)%string.

(** The loop that adds the unmatched detections. *)
Definition addNewTracks (currentTime : Z) (randomSuffix : nat -> string)
           (results : list DetectionResult) (usedDetections : list nat)
           (tracked : JsMap.t TrackedFace) : JsMap.t TrackedFace :=
  fold_left
    (fun tracked iv =>
       let '(i, detection) := iv in
       if hasIndex usedDetections i then tracked
       else
         let id := newId currentTime (randomSuffix i) in
         JsMap.set tracked id (newTrack femaleBoostFactor currentTime id detection))
    (indexed results) tracked.

(** [results.some((_, i) => !usedDetections.has(i))] *)
Definition someUnusedDetection (results : list DetectionResult)
           (usedDetections : list nat) : bool :=
  existsb (fun iv => negb (hasIndex usedDetections (fst iv))) (indexed results).

(** The body of the missed-frame branch: the aged track, or [None] when the
    track is deleted. *)
Definition ageTrack (trackedFace : TrackedFace) : option TrackedFace :=
  let missedFrames := (t_missedFrames trackedFace + 1)%Z in
  let boundingBox :=
    if inject_Z missedFrames <=? inject_Z (holdFrames config) / 2 then
      mkBox (x (t_boundingBox trackedFace) + vx (t_velocity trackedFace) * 0.5)
            (y (t_boundingBox trackedFace) + vy (t_velocity trackedFace) * 0.5)
            (width (t_boundingBox trackedFace))
            (height (t_boundingBox trackedFace))
    else t_boundingBox trackedFace in
  if (missedFrames >? holdFrames config)%Z then None
  else
    Some {| t_id := t_id trackedFace;
            t_boundingBox := boundingBox;
            t_velocity := t_velocity trackedFace;
            t_confidence := t_confidence trackedFace;
            t_faceScore := t_faceScore trackedFace;
            t_gender := t_gender trackedFace;
            t_ageGroup := t_ageGroup trackedFace;
            t_consecutiveHits := t_consecutiveHits trackedFace;
            t_missedFrames := missedFrames;
            t_firstSeenAt := t_firstSeenAt trackedFace;
            t_lastSeenAt := t_lastSeenAt trackedFace;
            t_detectorUsed := t_detectorUsed trackedFace;
            t_genderVotes := t_genderVotes trackedFace;
            t_ageVotes := t_ageVotes trackedFace;
            t_stableGender := t_stableGender trackedFace;
            t_stableAgeGroup := t_stableAgeGroup trackedFace;
            t_isUserCorrected := t_isUserCorrected trackedFace |}.

(** The loop that updates missed frames and removes stale faces.  It works
    on the entries where they stand: a track is mutated in place, or deleted
    under the id being visited. *)
Definition updateMissedFrames (results : list DetectionResult)
           (matchedIds : list string) (usedDetections : list nat)
           (tracked : JsMap.t TrackedFace) : JsMap.t TrackedFace :=
  flat_map
    (fun entry =>
       let '(id, trackedFace) := entry in
       if negb (hasId matchedIds id)
          && negb (someUnusedDetection results usedDetections)
       then match ageTrack trackedFace with
            | Some aged => [(id, aged)]
            | None => []
            end
       else [(id, trackedFace)])
    tracked.

Definition zeroDemographics : DemographicCounts := mkCounts 0 0 0 0 0.

(** What a tick leaves: the state, and the viewers and demographics shown. *)
Record Tick : Type := mkTick {
  nextState : TrackerState;
  currentViewers : list DetectionResult;
  demographics : DemographicCounts
}.

(** [captureSessionRef.current.frameCount++] *)
Definition countFrame (st : TrackerState) : TrackerState :=
  mkState (tracked st)
          (match captureSession st with
           | Some session =>
               Some (mkSession (startedAt session) (frameCount session + 1)
                               (viewers session))
           | None => None
           end).

Definition detectionTick (currentTime : Z) (randomSuffix : nat -> string)
           (results : list DetectionResult) (st : TrackerState) : Tick :=
  let m := matchTracks currentTime results (countFrame st) in
  let withNew := addNewTracks currentTime randomSuffix results
                              (usedDetections m) (m_tracked m) in
  let aged := updateMissedFrames results (matchedIds m) (usedDetections m) withNew in
  let stableViewers :=
    map toDetectionResult
        (filter (fun face =>
                   (t_consecutiveHits face >=? minConsecutiveFrames config)%Z)
                (JsMap.values aged)) in
  let newDemographics :=
    if (0 <? List.length stableViewers)%nat then
      let confident :=
        filter (fun d => r_confidence d >=? minDemographicConfidence) stableViewers in
      mkCounts
        (JsArray.countIf (fun d => Gender_eqb (r_gender d) male) confident)
        (JsArray.countIf (fun d => Gender_eqb (r_gender d) female) confident)
        (JsArray.countIf (fun d => AgeGroup_eqb (r_ageGroup d) kid) confident)
        (JsArray.countIf (fun d => AgeGroup_eqb (r_ageGroup d) young) confident)
        (JsArray.countIf (fun d => AgeGroup_eqb (r_ageGroup d) adult) confident)
    else zeroDemographics in
  mkTick (mkState aged (m_session m)) stableViewers newDemographics.

(** *** Closing the capture window *)

Definition finalizeSession (now : Z) (session : CaptureSession)
  : CaptureSessionSummary :=
  let stableViewers :=
    filter (fun v => a_bestConfidence v >=? minDemographicConfidence)
           (filter (fun v => (a_seenFrames v >=? MIN_FRAMES_FOR_SESSION)%Z)
                   (JsMap.values (viewers session))) in
  let sessionDemographics :=
    mkCounts
      (JsArray.countIf (fun v => Gender_eqb (a_finalGender v) male) stableViewers)
      (JsArray.countIf (fun v => Gender_eqb (a_finalGender v) female) stableViewers)
      (JsArray.countIf (fun v => AgeGroup_eqb (a_finalAgeGroup v) kid) stableViewers)
      (JsArray.countIf (fun v => AgeGroup_eqb (a_finalAgeGroup v) young) stableViewers)
      (JsArray.countIf (fun v => AgeGroup_eqb (a_finalAgeGroup v) adult) stableViewers) in
  {| s_startedAt := startedAt session;
     s_endedAt := Some now;
     s_totalFrames := frameCount session;
     s_uniqueViewers := Z.of_nat (List.length stableViewers);
     s_demographics := sessionDemographics;
     s_viewers := stableViewers |}.

(** The end of the capture window: the summary shown, the demographics handed
    to [reorderQueue] (when somebody was counted), and the cleared session. *)
Definition endCaptureWindow (now : Z) (st : TrackerState)
  : TrackerState * option CaptureSessionSummary * option DemographicCounts :=
  match captureSession st with
  | Some session =>
      let summary := finalizeSession now session in
      let d := s_demographics summary in
      (mkState (tracked st) None, Some summary,
       if (c_male d + c_female d >? 0)%Z then Some d else None)
  | None => (st, None, None)
  end.

End DetectionLoop.

(** No track of the table has used up its hold budget. *)
Definition withinBudget (config : CCTVDetectionConfig)
           (tracked : JsMap.t TrackedFace) : Prop :=
  Forall (fun entry => (t_missedFrames (snd entry) <= holdFrames config)%Z) tracked.

(** The capture session a fresh detection loop starts with. *)
Definition startDetectionLoop (now : Z) : TrackerState :=
  mkState [] (Some (mkSession now 0 [])).

End SmartAds.

(** ** utils/genderHeuristics.ts: bias correction *)

Module GenderHeuristics.
Import Ad.

Record Boosted : Type := mkBoosted {
  b_gender : Gender;
  b_confidence : Q
}.

Definition applyFemaleBoost (rawGender : Gender) (rawConfidence : Q)
           (femaleBoostFactor : Q) (hairScore : Q) : Boosted :=
  if (rawConfidence <? 0.45) || (rawConfidence >? 0.70) then
    mkBoosted rawGender rawConfidence
  else
    let femaleProb0 :=
      match rawGender with
      | female => rawConfidence
      | male => 1 - rawConfidence
      end in
    let boost := femaleBoostFactor * (0.3 + hairScore * 0.7) in
    let femaleProb := Num.min 0.95 (femaleProb0 + boost) in
    if femaleProb >? 0.5 then mkBoosted female femaleProb
    else mkBoosted male (1 - femaleProb).

(** The quantities the contract of the correction is stated with: the female
    probability it starts from, and the probability after the boost
    [boostFactor * (0.3 + 0.7 * hairScore)] and the clamp at 0.95. *)
Definition femaleProbability (g : Gender) (confidence : Q) : Q :=
  match g with female => confidence | male => 1 - confidence end.

Definition adjustedProbability (g : Gender) (confidence boostFactor hairScore : Q) : Q :=
  Qmin 0.95 (femaleProbability g confidence + boostFactor * (0.3 + 0.7 * hairScore)).

End GenderHeuristics.

(** ** Concrete data for the worked examples *)

Module Examples.
Import Ad Detection SmartAds.

(** A stand-in for [Math.sqrt] that is exact on the perfect squares the
    examples use: the integer square root of the integer part. *)
Definition exampleSqrt (q : Q) : Q := inject_Z (Z.sqrt (Qfloor q)).

Definition boxAt (left top : Q) : FaceBoundingBox := mkBox left top 100 100.

Definition detectionAt (g : Gender) (a : AgeGroup) (confidence faceScore : Q)
           (left top : Q) : DetectionResult :=
  {| r_gender := g;
     r_ageGroup := a;
     r_confidence := confidence;
     r_faceScore := faceScore;
     r_boundingBox := boxAt left top;
     r_trackingId := Some "tiny_0_0"%string;
     r_lastSeen := Some 1000%Z;
     r_isUserCorrected := None |}.

(** A stable male track at the origin holding the votes [votes]. *)
Definition trackWithVotes (votes : GenderVotes) : TrackedFace :=
  {| t_id := "face_1"%string;
     t_boundingBox := boxAt 0 0;
     t_velocity := mkVel 0 0;
     t_confidence := 0.8;
     t_faceScore := 0.9;
     t_gender := male;
     t_ageGroup := young;
     t_consecutiveHits := 3;
     t_missedFrames := 0;
     t_firstSeenAt := 1000;
     t_lastSeenAt := 1000;
     t_detectorUsed := tiny;
     t_genderVotes := votes;
     t_ageVotes := mkAV 0 2 0;
     t_stableGender := male;
     t_stableAgeGroup := young;
     t_isUserCorrected := None |}.

(** A session of two viewers: one seen once with a high confidence, one seen
    three times. *)
Definition viewerSeen (id : string) (frames : Z) (confidence : Q) : ViewerAggregate :=
  {| a_trackingId := id;
     a_genderVotes := mkGV confidence 0;
     a_ageVotes := mkAV 0 confidence 0;
     a_seenFrames := frames;
     a_bestFaceScore := 0.9;
     a_bestConfidence := confidence;
     a_finalGender := male;
     a_finalAgeGroup := young |}.

Definition exampleSession : CaptureSession :=
  mkSession 1000 5
            [("face_a"%string, viewerSeen "face_a" 1 0.99);
             ("face_b"%string, viewerSeen "face_b" 3 0.8)].

(** A configuration for recorded sources at the default sensitivity of the
    application. *)
Definition recordedConfig : CCTVDetectionConfig :=
  {| detector := dual;
     sensitivity := 0.35;
     preprocessing := mkPre 1.4 1.5 0.4 true;
     upscale := 2.0;
     roi := mkROI false 0 0 1 1;
     minFaceScore := 0.1;
     hardMinFaceScore := Some 0.18;
     minFaceSizePx := 12;
     minFaceSizePercent := 0.05;
     aspectRatioMin := 0.25;
     aspectRatioMax := 4.0;
     minConsecutiveFrames := 2;
     holdFrames := 8;
     maxVelocityPx := 250;
     debugMode := false;
     femaleBoostFactor := Some 0.15;
     enableHairHeuristics := Some true;
     requireFaceTexture := Some false;
     enableEnhancedRescue := Some true |}.

(** The same configuration at the most sensitive setting. *)
Definition sensitiveConfig : CCTVDetectionConfig :=
  {| detector := dual;
     sensitivity := 0.15;
     preprocessing := mkPre 1.4 1.5 0.4 true;
     upscale := 2.0;
     roi := mkROI false 0 0 1 1;
     minFaceScore := 0.1;
     hardMinFaceScore := Some 0.18;
     minFaceSizePx := 12;
     minFaceSizePercent := 0.05;
     aspectRatioMin := 0.25;
     aspectRatioMax := 4.0;
     minConsecutiveFrames := 2;
     holdFrames := 8;
     maxVelocityPx := 250;
     debugMode := false;
     femaleBoostFactor := Some 0.15;
     enableHairHeuristics := Some true;
     requireFaceTexture := Some false;
     enableEnhancedRescue := Some true |}.

(** Raw detections in the shape of the face library. *)
Definition rawFace (faceScore : Q) (left top size : Q) : FaceDetection.RawDetection :=
  FaceDetection.mkRaw
    (Some (FaceDetection.mkInner (Some (mkBox left top size size)) (Some faceScore)))
    None None 30 male 0.8.

(** A detector that sees one face at every scale, except that its first
    request of Pass 1 throws; and the same detector with that request
    answered by an empty array. *)
Definition flakyDetector (site : FaceDetection.CallSite)
           (input : FaceDetection.Input unit)
           (options : FaceDetection.DetectorOptions)
  : FaceDetection.Outcome (list FaceDetection.RawDetection) :=
  match FaceDetection.pass site, FaceDetection.slot site with
  | 1%nat, 0%nat => FaceDetection.Thrown
  | _, _ => FaceDetection.Returned [rawFace 0.9 100 100 80]
  end.

Definition quietDetector (site : FaceDetection.CallSite)
           (input : FaceDetection.Input unit)
           (options : FaceDetection.DetectorOptions)
  : FaceDetection.Outcome (list FaceDetection.RawDetection) :=
  match FaceDetection.pass site, FaceDetection.slot site with
  | 1%nat, 0%nat => FaceDetection.Returned []
  | _, _ => FaceDetection.Returned [rawFace 0.9 100 100 80]
  end.

(** A detector whose Pass 3 request throws. *)
Definition pass3Failing (site : FaceDetection.CallSite)
           (input : FaceDetection.Input unit)
           (options : FaceDetection.DetectorOptions)
  : FaceDetection.Outcome (list FaceDetection.RawDetection) :=
  match FaceDetection.pass site with
  | 3%nat => FaceDetection.Thrown
  | _ => FaceDetection.Returned [rawFace 0.9 100 100 80]
  end.

Definition unitCanvas (_ : PreprocessingOptions) (_ : Q) (_ : option ROIConfig)
  : FaceDetection.Outcome (option unit) :=
  FaceDetection.Returned (Some tt).

(** A tail of the cycle that reports one result per candidate. *)
Definition reportAll (c : FaceDetection.Collected unit)
  : FaceDetection.Outcome (list DetectionResult) :=
  FaceDetection.Returned
    (map (fun d => detectionAt male young 0.8 (FaceDetection.getScore d) 0 0)
         (FaceDetection.detections c)).

(** The example track after [missed] missed frames, and a table holding
    just that track, no session open. *)
Definition staleTrack (missed : Z) : TrackedFace :=
  let t := trackWithVotes (mkGV 1.0 0.9) in
  {| t_id := t_id t;
     t_boundingBox := t_boundingBox t;
     t_velocity := t_velocity t;
     t_confidence := t_confidence t;
     t_faceScore := t_faceScore t;
     t_gender := t_gender t;
     t_ageGroup := t_ageGroup t;
     t_consecutiveHits := t_consecutiveHits t;
     t_missedFrames := missed;
     t_firstSeenAt := t_firstSeenAt t;
     t_lastSeenAt := t_lastSeenAt t;
     t_detectorUsed := t_detectorUsed t;
     t_genderVotes := t_genderVotes t;
     t_ageVotes := t_ageVotes t;
     t_stableGender := t_stableGender t;
     t_stableAgeGroup := t_stableAgeGroup t;
     t_isUserCorrected := t_isUserCorrected t |}.

Definition oneTrack (missed : Z) : TrackerState :=
  mkState [("face_1"%string, staleTrack missed)] None.

(** A confident face 1000 pixels to the right of the track, out of its reach. *)
Definition stranger : DetectionResult := detectionAt male young 0.9 0.9 1000 0.

(** A face whose gender confidence is below the vote threshold. *)
Definition unconfident : DetectionResult := detectionAt male young 0.5 0.9 1000 0.

(** The random characters drawn for the detections. *)
Definition suffixes (i : nat) : string :=
  match i with 0%nat => "k3x9q" | 1%nat => "p07ab" | _ => "zz1yy" end%string.

(** One tick of the webcam tracker on the example data. *)
Definition webcamTick (results : list DetectionResult) (st : TrackerState) : Tick :=
  detectionTick exampleSqrt 0.15 0.75 DEFAULT_WEBCAM_CONFIG 1800 suffixes results st.

(** Five ticks of a fresh loop: four without a face, the fifth with one
    strong male/young face. *)
Definition fiveTicks : TrackerState :=
  let strong := detectionAt male young 0.95 0.9 200 100 in
  fold_left (fun st results => nextState (webcamTick results st))
            [[]; []; []; []; [strong]]
            (startDetectionLoop 1000).

End Examples.

(** ** useFaceDetection: dedupeResultsByIoU *)

Module FaceResults.
Import Ad Detection FaceDetection.

(** The two constants of the inner loop. *)
Definition resultIou : Q := 0.6.
Definition resultContainment : Q := 0.9.

(** The inner loop over [kept], left with [break] at the first hit.  Its
    body computes what the body of the inner loop of [mergeDetections]
    computes, on the bounding boxes of the results and with constant
    thresholds. *)
Definition isDup (kept : list DetectionResult) (r : DetectionResult) : bool :=
  let b := r_boundingBox r in
  existsb (fun k =>
             let a := r_boundingBox k in
             overlaps resultIou resultContainment a b) kept.

(** One turn of the outer loop: [if (!dup) kept.push(r)]. *)
Definition dedupeStep (kept : list DetectionResult) (r : DetectionResult)
  : list DetectionResult :=
  if isDup kept r then kept else kept ++ [r].

(** [faceScore] is a mandatory number, so [faceScore ?? 0] is [faceScore]. *)
Definition dedupeResultsByIoU (results : list DetectionResult)
  : list DetectionResult :=
  if (List.length results <=? 1)%nat then results
  else
    let sorted := JsArray.sortDesc r_faceScore results in
    fold_left dedupeStep sorted [].

End FaceResults.

(** ** utils/genderHeuristics.ts: face shape and the combined analysis *)

Module GenderSignals.
Import Ad.

(** [height / width] of two numbers: a quotient by zero is [Infinity] for a
    positive numerator, [-Infinity] for a negative one and [NaN] for zero,
    and every comparison with [NaN] is false. *)
Definition analyzeFaceShape (boundingBox : FaceBoundingBox) : Q :=
  if Qeq_bool (width boundingBox) 0 then
    if height boundingBox <? 0 then 0.2 else 0.8
  else
    let aspectRatio := height boundingBox / width boundingBox in
    if aspectRatio <? 1.0 then 0.2
    else if aspectRatio <? 1.15 then 0.35
    else if aspectRatio <? 1.25 then 0.5
    else if aspectRatio <? 1.35 then 0.65
    else 0.8.

(** ['male' | 'female' | 'uncertain'] *)
Inductive Suggestion : Type :=
| suggest (g : Gender)
| uncertain.

Record GenderHeuristicResult : Type := mkHeuristic {
  suggestedGender : Suggestion;
  h_hairScore : Q;
  h_jawScore : Q;
  overallFemaleScore : Q;
  h_confidence : Q
}.

Section Analysis.

(** The canvas and the pixel sampling of [analyzeHairRegion], which reads
    the image. *)
Variable Canvas : Type.
Variable analyzeHairRegion : Canvas -> FaceBoundingBox -> bool -> Q.

Definition analyzeGenderHeuristics (canvas : option Canvas)
           (boundingBox : FaceBoundingBox) (rawGender : Gender)
           (rawConfidence : Q) (femaleBoostFactor : Q) (debugMode : bool)
  : GenderHeuristicResult :=
  match canvas with
  | None =>
      {| suggestedGender :=
           if rawConfidence >? 0.6 then suggest rawGender else uncertain;
         h_hairScore := 0.5;
         h_jawScore := 0.5;
         overallFemaleScore :=
           match rawGender with
           | female => rawConfidence
           | male => 1 - rawConfidence
           end;
         h_confidence := rawConfidence |}
  | Some c =>
      let hairScore := analyzeHairRegion c boundingBox debugMode in
      let jawScore := analyzeFaceShape boundingBox in
      let rawFemaleProb :=
        match rawGender with
        | female => rawConfidence
        | male => 1 - rawConfidence
        end in
      let modelWeight := if rawConfidence >? 0.65 then 0.75 else 0.55 in
      let heuristicWeight := 1 - modelWeight in
      let heuristicFemaleScore := hairScore * 0.6 + jawScore * 0.4 in
      let overall0 :=
        rawFemaleProb * modelWeight + heuristicFemaleScore * heuristicWeight in
      let overall :=
        if (rawConfidence <? 0.65) && (femaleBoostFactor >? 0)
        then Num.min 0.95 (overall0 + femaleBoostFactor * 0.5)
        else overall0 in
      let suggested :=
        if overall >? 0.55 then suggest female
        else if overall <? 0.45 then suggest male
        else uncertain in
      let finalConfidence := Num.abs (overall - 0.5) * 2 in
      {| suggestedGender := suggested;
         h_hairScore := hairScore;
         h_jawScore := jawScore;
         overallFemaleScore := overall;
         h_confidence := finalConfidence |}
  end.

End Analysis.

End GenderSignals.

(** ** SmartAdsSystem: handleLabelDetection

    The part of the handler that corrects the live track table; before it
    the handler stores the entry with the evaluation sessions of the browser,
    and in both branches it writes a log line. *)

Module Labeling.
Import Ad Detection SmartAds.

(** The members of [GroundTruthEntry & { trackingId?: string }] the
    correction reads. *)
Record GroundTruthEntry : Type := mkEntry {
  e_trackingId : option string;
  actualGender : Gender;
  actualAgeGroup : AgeGroup;
  isFalsePositive : bool
}.

(** The track after the assignments of the correcting branch. *)
Definition correctTrack (entry : GroundTruthEntry) (tracked : TrackedFace)
  : TrackedFace :=
  let correctionWeight := 100 in
  {| t_id := t_id tracked;
     t_boundingBox := t_boundingBox tracked;
     t_velocity := t_velocity tracked;
     t_confidence := 1.0;
     t_faceScore := 1.0;
     t_gender := actualGender entry;
     t_ageGroup := actualAgeGroup entry;
     t_consecutiveHits := t_consecutiveHits tracked;
     t_missedFrames := t_missedFrames tracked;
     t_firstSeenAt := t_firstSeenAt tracked;
     t_lastSeenAt := t_lastSeenAt tracked;
     t_detectorUsed := t_detectorUsed tracked;
     t_genderVotes :=
       mkGV (if Gender_eqb (actualGender entry) male then correctionWeight else 0)
            (if Gender_eqb (actualGender entry) female then correctionWeight else 0);
     t_ageVotes :=
       mkAV (if AgeGroup_eqb (actualAgeGroup entry) kid then correctionWeight else 0)
            (if AgeGroup_eqb (actualAgeGroup entry) young then correctionWeight else 0)
            (if AgeGroup_eqb (actualAgeGroup entry) adult then correctionWeight else 0);
     t_stableGender := actualGender entry;
     t_stableAgeGroup := actualAgeGroup entry;
     t_isUserCorrected := Some true |}.

(** [f.isUserCorrected ? 1.0 : v] *)
Definition userCorrected (f : TrackedFace) : bool :=
  match t_isUserCorrected f with Some true => true | _ => false end.

(** The viewers shown right after a correction. *)
Definition updatedDetections (table : JsMap.t TrackedFace) : list DetectionResult :=
  map (fun f =>
         {| r_gender := t_stableGender f;
            r_ageGroup := t_stableAgeGroup f;
            r_confidence := if userCorrected f then 1.0 else t_confidence f;
            r_faceScore := if userCorrected f then 1.0 else t_faceScore f;
            r_boundingBox := t_boundingBox f;
            r_trackingId := Some (t_id f);
            r_lastSeen := None;
            r_isUserCorrected := t_isUserCorrected f |})
      (filter (fun f => (t_consecutiveHits f >=? 2)%Z) (JsMap.values table)).

(** The table the handler leaves, and the viewers it shows when it touched
    the table.  An empty tracking id counts as none. *)
Definition handleLabelDetection (entry : GroundTruthEntry)
           (table : JsMap.t TrackedFace)
  : JsMap.t TrackedFace * option (list DetectionResult) :=
  match e_trackingId entry with
  | Some id =>
      if negb (String.eqb id "") && JsMap.has table id then
        match JsMap.get table id with
        | Some tracked =>
            let table' :=
              if isFalsePositive entry then JsMap.delete table id
              else JsMap.set table id (correctTrack entry tracked) in
            (table', Some (updatedDetections table'))
        | None => (table, None)
        end
      else (table, None)
  | None => (table, None)
  end.

End Labeling.

(** ** An invariant of the capture session *)

Module SessionInvariant.
Import Ad Detection SmartAds.

(** The session holds one aggregate per viewer, and no viewer was seen in
    more frames than the session has counted. *)
Definition seenWithinFrames (session : CaptureSession) : Prop :=
  JsMap.wf (viewers session)
  /\ (0 <= frameCount session)%Z
  /\ forall id v, In (id, v) (viewers session) ->
                  (1 <= a_seenFrames v <= frameCount session)%Z.

End SessionInvariant.

(** ** data/sampleAds.ts and the useAdQueue hook: the queue *)

Module AdRotation.
Import Ad AdQueue.

Definition sampleAds : list AdMetadata :=
  [ mkAd "ad-001" "tech-gadgets.mp4" "TechPro Gadgets"
         (forGender male) (forAge young) 15 9 14 None
         "https://storage.googleapis.com/gtv-videos-bucket/sample/ForBiggerBlazes.mp4";
    mkAd "ad-002" "luxury-fashion.mp4" "Elegance Fashion"
         (forGender female) (forAge adult) 15 9 14 None
         "https://storage.googleapis.com/gtv-videos-bucket/sample/ForBiggerEscapes.mp4";
    mkAd "ad-003" "sports-energy.mp4" "PowerBoost Energy"
         (forGender male) (forAge young) 60 36 56 None
         "https://storage.googleapis.com/gtv-videos-bucket/sample/ForBiggerFun.mp4";
    mkAd "ad-004" "skincare-premium.mp4" "GlowUp Skincare"
         (forGender female) (forAge young) 15 9 14 None
         "https://storage.googleapis.com/gtv-videos-bucket/sample/ForBiggerJoyrides.mp4";
    mkAd "ad-005" "financial-services.mp4" "WealthGuard Insurance"
         allGenders (forAge adult) 53 32 49 None
         "https://storage.googleapis.com/gtv-videos-bucket/sample/ForBiggerMeltdowns.mp4";
    mkAd "ad-006" "gaming-console.mp4" "NexGen Gaming"
         allGenders (forAge young) 60 36 56 None
         "https://storage.googleapis.com/gtv-videos-bucket/sample/ElephantsDream.mp4" ].

(** [Math.floor] *)
Definition floor (q : Q) : Q := inject_Z (Qfloor q).

(** [{ ...ad, captureStart: Math.floor(ad.duration * startPercent / 100),
       captureEnd: Math.floor(ad.duration * endPercent / 100) }] *)
Definition withCapture (startPercent endPercent : Q) (ad : AdMetadata) : AdMetadata :=
  {| id := id ad;
     filename := filename ad;
     title := title ad;
     gender := gender ad;
     ageGroup := ageGroup ad;
     duration := duration ad;
     captureStart := floor (duration ad * startPercent / 100);
     captureEnd := floor (duration ad * endPercent / 100);
     thumbnail := thumbnail ad;
     videoUrl := videoUrl ad |}.

Definition applyCapture (ads : list AdMetadata) (startPercent endPercent : Q)
  : list AdMetadata :=
  map (withCapture startPercent endPercent) ads.

(** The properties of the hook; the defaults of the parameter list are 75,
    92, [false] and the empty array. *)
Record UseAdQueueProps : Type := mkProps {
  customAds : option (list AdMetadata);
  captureStartPercent : Q;
  captureEndPercent : Q;
  manualMode : bool;
  manualQueue : list AdMetadata
}.

(** The state of the hook a call reads and writes: [queue], [playedAds],
    [lastPlayedIdRef.current] and [manualQueueIndexRef.current].  A call
    sees the queue as it stands when the call is made. *)
Record QueueState : Type := mkQueue {
  queue : list AdMetadata;
  playedAds : list string;
  lastPlayedId : option string;
  manualQueueIndex : nat
}.

(** [customAds && customAds.length > 0 ? customAds : sampleAds] *)
Definition allAds (props : UseAdQueueProps) : list AdMetadata :=
  match customAds props with
  | Some (a :: l) => a :: l
  | _ => sampleAds
  end.

Definition initialAds (props : UseAdQueueProps) : list AdMetadata :=
  applyCapture (allAds props) (captureStartPercent props) (captureEndPercent props).

(** The state of a freshly mounted hook. *)
Definition initialState (props : UseAdQueueProps) : QueueState :=
  mkQueue (initialAds props) [] None 0.

Definition updateQueue (props : UseAdQueueProps) (ads : list AdMetadata)
           (st : QueueState) : QueueState :=
  mkQueue (map (withCapture (captureStartPercent props) (captureEndPercent props)) ads)
          (playedAds st) (lastPlayedId st) (manualQueueIndex st).



Definition getNextAd (props : UseAdQueueProps) (st : QueueState)
  : option AdMetadata * QueueState :=
  let n := List.length (manualQueue props) in
  if manualMode props && (0 <? n)%nat then
    let nextIndex := (manualQueueIndex st mod n)%nat in
    match nth_error (manualQueue props) nextIndex with
    | Some entry =>
        let nextAd :=
          withCapture (captureStartPercent props) (captureEndPercent props) entry in
        (Some nextAd,
         mkQueue (queue st) (playedAds st) (Some (id nextAd))
                 ((nextIndex + 1) mod n)%nat)
    | None => (None, st)
    end
  else
    match queue st with
    | [] =>
        let resetAds := initialAds props in
        (hd_error resetAds, mkQueue resetAds [] None (manualQueueIndex st))
    | first :: rest =>
        let trySecond :=
          isLastPlayed first (lastPlayedId st)
          && (1 <? List.length (queue st))%nat in
        let '(nextAd, newQueue) :=
          match trySecond, rest with
          | true, second :: others => (second, second :: first :: others)
          | _, _ => (first, rest ++ [first])
          end in
        (Some nextAd,
         mkQueue newQueue (firstn 5 (id nextAd :: playedAds st))
                 (Some (id nextAd)) (manualQueueIndex st))
    end.

(** [calls] successive calls of [getNextAd]: the ads returned, in order. *)
Fixpoint played (props : UseAdQueueProps) (calls : nat) (st : QueueState)
  : list (option AdMetadata) :=
  match calls with
  | O => []
  | S k =>
      let '(next, st') := getNextAd props st in
      next :: played props k st'
  end.

End AdRotation.

(** ** useFaceDetection: processDetections

    The function takes the results of the face library, each with its
    [detection] member holding a box and a score, and its age and gender
    readings.  The quotients by [scaleBack], by the area of the frame and by
    the height of a face are those of the source where the divisor is not
    zero; [detectFaces] hands over a frame of 640 by 480 when the video
    reports no size. *)

Module FaceFilter.
Import Ad Detection FaceDetection GenderHeuristics.

(** [detection.detection.box], [detection.detection.score], [detection.age],
    [detection.gender], [detection.genderProbability]. *)
Record FaceWithAgeAndGender : Type := mkFace {
  f_box : FaceBoundingBox;
  f_score : Q;
  f_age : Q;
  f_gender : Gender;
  f_genderProbability : Q
}.

(** [Math.round]: the nearest integer, halves upwards. *)
Definition round (q : Q) : Z := Qfloor (q + (1 # 2)).

Definition detectorName (k : DetectorKind) : string :=
  match k with tiny => "tiny" | ssd => "ssd" | dual => "dual" end.

Record Processed : Type := mkProcessed {
  results : list DetectionResult;
  rawCount : nat;
  filteredCount : nat
}.

Section ProcessDetections.

(** The canvas and the two functions that read its pixels. *)
Variable Canvas : Type.
Variable hasTextureVariation : Canvas -> FaceBoundingBox -> bool.
Variable analyzeHairRegion : Canvas -> FaceBoundingBox -> bool -> Outcome Q.

Variables videoWidth videoHeight scaleBack : Q.
Variable config : CCTVDetectionConfig.
Variable detectorUsed : DetectorKind.
Variable roiOffset : option (Q * Q).
Variable debugMode : bool.
Variable textureCheckCanvas : option Canvas.
(** [Date.now()] *)
Variable now : Z.

Definition requiredMinScore : Q :=
  let hardMinScore := hardMinFaceScore config ?? 0.15 in
  Num.max hardMinScore (minFaceScore config).

(** [roiOffset?.x ?? 0], [roiOffset?.y ?? 0] *)
Definition offsetX : Q := match roiOffset with Some o => fst o | None => 0 end.
Definition offsetY : Q := match roiOffset with Some o => snd o | None => 0 end.

(** The callback of [filter]. *)
Definition keeps (detection : FaceWithAgeAndGender) : bool :=
  let box := f_box detection in
  let faceScore := f_score detection in
  let faceWidth := width box / scaleBack in
  let faceHeight := height box / scaleBack in
  let faceX := x box / scaleBack + offsetX in
  let faceY := y box / scaleBack + offsetY in
  if faceScore <? requiredMinScore then false
  else if (faceWidth <? minFaceSizePx config) || (faceHeight <? minFaceSizePx config)
  then false
  else
    let facePercent := (faceWidth * faceHeight) / (videoWidth * videoHeight) * 100 in
    if facePercent <? minFaceSizePercent config then false
    else if facePercent >? 35 then false
    else
      let aspectRatio := faceWidth / faceHeight in
      if (aspectRatio <? aspectRatioMin config) || (aspectRatio >? aspectRatioMax config)
      then false
      else if (faceX <? 0) || (faceY <? 0)
              || (faceX + faceWidth >? videoWidth)
              || (faceY + faceHeight >? videoHeight)
      then false
      else
        match requireFaceTexture config ?? false, textureCheckCanvas with
        | true, Some canvas =>
            let bbox := mkBox faceX faceY faceWidth faceHeight in
            if negb (hasTextureVariation canvas bbox) then false else true
        | _, _ => true
        end.

(** The callback of [map]. *)
Definition toResult (detection : FaceWithAgeAndGender) : DetectionResult :=
  let box := f_box detection in
  let faceScore := f_score detection in
  let boundingBox :=
    mkBox (Num.max 0 (x box / scaleBack + offsetX))
          (Num.max 0 (y box / scaleBack + offsetY))
          (Num.min (width box / scaleBack) (videoWidth - x box / scaleBack))
          (Num.min (height box / scaleBack) (videoHeight - y box / scaleBack)) in
  let age := round (f_age detection) in
  let ageGroup :=
    if (age <? 13)%Z then kid
    else if (age <? 35)%Z then young
    else adult in
  let femaleBoostFactor := femaleBoostFactor config ?? 0 in
  let enableHairHeuristics := enableHairHeuristics config ?? false in
  let '(gender, confidence) :=
    if femaleBoostFactor >? 0 then
      let hairScore :=
        match enableHairHeuristics, textureCheckCanvas with
        | true, Some canvas =>
            tryCatch (analyzeHairRegion canvas boundingBox debugMode) 0.5
        | _, _ => 0.5
        end in
      let adjusted :=
        applyFemaleBoost (f_gender detection) (f_genderProbability detection)
                         femaleBoostFactor hairScore in
      (b_gender adjusted, b_confidence adjusted)
    else (f_gender detection, f_genderProbability detection) in
  {| r_gender := gender;
     r_ageGroup := ageGroup;
     r_confidence := confidence;
     r_faceScore := faceScore;
     r_boundingBox := boundingBox;
     r_trackingId :=
       Some (detectorName detectorUsed ++ "_"
             ++ SmartAds.string_of_Z (round (x boundingBox)) ++ "_"
             ++ SmartAds.string_of_Z (round (y boundingBox)))%string;
     r_lastSeen := Some now;
     r_isUserCorrected := None |}.

Definition processDetections (detections : list FaceWithAgeAndGender) : Processed :=
  let rawCount := List.length detections in
  let results := map toResult (filter keeps detections) in
  mkProcessed results rawCount (List.length results).

End ProcessDetections.

End FaceFilter.

(** ** Image preprocessing: applyContrast

    [data] is the [Uint8ClampedArray] of an image: red, green, blue and
    alpha of one pixel after the other, each a whole number from 0 to 255. *)

Module ImagePreprocessing.

(** [Math.round]: the nearest integer, halves upwards. *)
Definition round (q : Q) : Z := Qfloor (q + (1 # 2)).

(** [Math.min(255, Math.max(0, Math.round(factor * (v - 128) + 128)))].  When
    [259 - contrast * 255] is zero the factor is [Infinity]: the channel goes
    to 255 above 128, to 0 below it, and at 128 the product is [NaN], which
    the array stores as 0. *)
Definition contrastChannel (contrast : Q) (v : Z) : Z :=
  if Qeq_bool (259 - contrast * 255) 0 then
    if (v >? 128)%Z then 255%Z else 0%Z
  else
    let factor := (259 * (contrast * 255 + 255)) / (255 * (259 - contrast * 255)) in
    Z.min 255 (Z.max 0 (round (factor * (inject_Z v - 128) + 128))).

(** The loop [for (let i = 0; i < data.length; i += 4)]: three channels are
    written, the fourth is passed over.  Channels missing at the end of the
    array are neither read to any effect nor written. *)
Fixpoint contrastLoop (contrast : Q) (data : list Z) : list Z :=
  match data with
  | r :: g :: b :: a :: rest =>
      contrastChannel contrast r :: contrastChannel contrast g
        :: contrastChannel contrast b :: a :: contrastLoop contrast rest
  | short => map (contrastChannel contrast) short
  end.

Definition applyContrast (data : list Z) (contrast : Q) : list Z :=
  if Qeq_bool contrast 1.0 then data else contrastLoop contrast data.

End ImagePreprocessing.

(* ================================================================== *)
(** * Part II: properties                                              *)
(* ================================================================== *)

(** ** Boolean comparisons reflect the order of [Q] *)

Section NumFacts.

Lemma geb_spec (a b : Q) : (a >=? b) = true <-> b <= a.
Proof. unfold Num.geb. apply Qle_bool_iff. Qed.

Lemma leb_spec (a b : Q) : (a <=? b) = true <-> a <= b.
Proof. unfold Num.leb. apply Qle_bool_iff. Qed.

Lemma ltb_spec (a b : Q) : (a <? b) = true <-> a < b.
Proof.
  unfold Num.ltb. rewrite negb_true_iff. split; intro H.
  - apply Qnot_le_lt. intro L. apply Qle_bool_iff in L. congruence.
  - destruct (Qle_bool b a) eqn:E; [|reflexivity].
    apply Qle_bool_iff in E. exfalso. exact (Qlt_not_le _ _ H E).
Qed.

Lemma gtb_spec (a b : Q) : (a >? b) = true <-> b < a.
Proof. unfold Num.gtb. exact (ltb_spec b a). Qed.

Lemma ltb_false (a b : Q) : (a <? b) = false <-> b <= a.
Proof.
  unfold Num.ltb. rewrite negb_false_iff. apply Qle_bool_iff.
Qed.

Lemma gtb_false (a b : Q) : (a >? b) = false <-> a <= b.
Proof. unfold Num.gtb. rewrite negb_false_iff. apply Qle_bool_iff. Qed.

End NumFacts.

(** ** The ad queue scorer *)

Module AdQueueProps.
Import Ad AdQueue.

Lemma targetsGender_spec (t : TargetGender) (g : Gender) :
  targetsGender t g = true <-> t = forGender g.
Proof.
  destruct t as [g'|]; simpl.
  - destruct g', g; simpl; split; intro H; congruence.
  - split; intro H; discriminate.
Qed.

Lemma targetsAge_spec (t : TargetAge) (a : AgeGroup) :
  targetsAge t a = true <-> t = forAge a.
Proof.
  destruct t as [a'|]; simpl.
  - destruct a', a; simpl; split; intro H; congruence.
  - split; intro H; discriminate.
Qed.

Lemma isLastPlayed_spec (a : AdMetadata) (l : option string) :
  isLastPlayed a l = true <-> l = Some (id a).
Proof.
  destruct l as [s|]; simpl.
  - rewrite String.eqb_eq. split; intro H; [subst; reflexivity | congruence].
  - split; intro H; discriminate.
Qed.

(** The penalty is applied on top of whatever tier the spot reached. *)
Lemma scoreAd_penalty (l : option string) (a : AdMetadata) (d : DemographicCounts) :
  score (scoreAd l a d)
  = (score (scoreAd None a d) - (if isLastPlayed a l then 3 else 0))%Z.
Proof.
  unfold scoreAd. simpl isLastPlayed at 2.
  destruct (targetsGender (gender a) (dominantGender d));
    destruct (targetsAge (ageGroup a) (dominantAge d));
    destruct (isAllGenders (gender a)); destruct (isAllAges (ageGroup a));
    destruct (isLastPlayed a l); simpl; reflexivity.
Qed.

(** The dominant gender is male exactly when there are at least as many men
    as women. *)
Lemma dominantGender_spec (d : DemographicCounts) :
  (dominantGender d = male <-> (c_female d <= c_male d)%Z)
  /\ (dominantGender d = female <-> (c_male d < c_female d)%Z).
Proof.
  unfold dominantGender. rewrite Z.geb_leb.
  destruct (Z.leb_spec (c_female d) (c_male d));
    repeat split; intros; try reflexivity; try discriminate; lia.
Qed.

(** The dominant age is a bucket with the highest count: kid when no bucket
    has more than kid, adult only when it has more than both others, young
    in every other case. *)
Lemma dominantAge_spec (d : DemographicCounts) :
  (dominantAge d = kid <-> (c_young d <= c_kid d /\ c_adult d <= c_kid d)%Z)
  /\ (dominantAge d = adult <-> (c_young d < c_adult d /\ c_kid d < c_adult d)%Z)
  /\ (dominantAge d = young <->
      ~ (c_young d <= c_kid d /\ c_adult d <= c_kid d)%Z
      /\ ~ (c_young d < c_adult d /\ c_kid d < c_adult d)%Z)
  /\ (let top := match dominantAge d with
                 | kid => c_kid d
                 | young => c_young d
                 | adult => c_adult d
                 end in
      c_kid d <= top /\ c_young d <= top /\ c_adult d <= top)%Z.
Proof.
  unfold dominantAge. rewrite !Z.geb_leb, !Z.gtb_ltb.
  destruct (Z.leb_spec (c_young d) (c_kid d));
    destruct (Z.leb_spec (c_adult d) (c_kid d));
    destruct (Z.ltb_spec (c_young d) (c_adult d));
    destruct (Z.ltb_spec (c_kid d) (c_adult d));
    cbn [andb]; repeat split; intros;
    try reflexivity; try discriminate; lia.
Qed.

(** C1.  The tiers of [scoreAd], read top down as the scorer lists them.
    The dominant gender [dg] of the demographics is male when the male count
    is at least the female count and female otherwise; the dominant age [da]
    is a bucket with the highest count, kid when no bucket has more than
    kid, adult only when it has more than both others, young otherwise.  A
    spot whose gender is [dg] and whose age is [da] scores 10; a spot whose
    two criteria are both satisfied, at least one of them by the wildcard,
    scores 5; a spot with exactly one criterion matched exactly (the other
    one not satisfied at all) scores 3; a spot with no exact match that is
    not in the wildcard tier scores -5.  A spot whose id is the last played
    id scores 3 less, any other spot scores its tier.  Against male 5,
    female 1, kid 0, young 4, adult 1 the spots male/young, all/all and
    female/young score 10, 5 and 3. *)
Theorem scoreAd_tiers :
  (forall (a : AdMetadata) (d : DemographicCounts),
      let exactGender := gender a = forGender (dominantGender d) in
      let exactAge := ageGroup a = forAge (dominantAge d) in
      let genderOk := exactGender \/ gender a = allGenders in
      let ageOk := exactAge \/ ageGroup a = allAges in
      let tier := score (scoreAd None a d) in
      (exactGender /\ exactAge -> tier = 10%Z)
      /\ (genderOk /\ ageOk /\ (gender a = allGenders \/ ageGroup a = allAges) ->
          tier = 5%Z)
      /\ ((exactGender /\ ~ ageOk) \/ (~ genderOk /\ exactAge) -> tier = 3%Z)
      /\ (~ exactGender /\ ~ exactAge /\ ~ (genderOk /\ ageOk) -> tier = (-5)%Z))
  /\ (forall (a : AdMetadata) (d : DemographicCounts),
         score (scoreAd (Some (id a)) a d) = (score (scoreAd None a d) - 3)%Z)
  /\ (forall (l : option string) (a : AdMetadata) (d : DemographicCounts),
         l <> Some (id a) -> score (scoreAd l a d) = score (scoreAd None a d))
  /\ (forall a : AdMetadata,
         (gender a = forGender male -> ageGroup a = forAge young ->
          score (scoreAd None a exampleDemographics) = 10%Z)
         /\ (gender a = allGenders -> ageGroup a = allAges ->
             score (scoreAd None a exampleDemographics) = 5%Z)
         /\ (gender a = forGender female -> ageGroup a = forAge young ->
             score (scoreAd None a exampleDemographics) = 3%Z))
  /\ (forall d : DemographicCounts,
         (dominantGender d = male <-> (c_female d <= c_male d)%Z)
         /\ (dominantGender d = female <-> (c_male d < c_female d)%Z))
  /\ (forall d : DemographicCounts,
         (dominantAge d = kid <-> (c_young d <= c_kid d /\ c_adult d <= c_kid d)%Z)
         /\ (dominantAge d = adult <->
             (c_young d < c_adult d /\ c_kid d < c_adult d)%Z)
         /\ (dominantAge d = young <->
             ~ (c_young d <= c_kid d /\ c_adult d <= c_kid d)%Z
             /\ ~ (c_young d < c_adult d /\ c_kid d < c_adult d)%Z)
         /\ (let top := match dominantAge d with
                        | kid => c_kid d
                        | young => c_young d
                        | adult => c_adult d
                        end in
             c_kid d <= top /\ c_young d <= top /\ c_adult d <= top)%Z).
Proof.
  split; [|split; [|split; [|split; [|split]]]];
    [| | | | exact dominantGender_spec | exact dominantAge_spec].
  - intros a d exactGender exactAge genderOk ageOk tier.
    subst exactGender exactAge genderOk ageOk tier.
    unfold scoreAd. simpl isLastPlayed.
    destruct (targetsGender (gender a) (dominantGender d)) eqn:G;
      destruct (targetsAge (ageGroup a) (dominantAge d)) eqn:A.
    all: try (apply targetsGender_spec in G).
    all: try (apply targetsAge_spec in A).
    all: try (assert (NG : gender a <> forGender (dominantGender d))
               by (intro E; apply targetsGender_spec in E; congruence)).
    all: try (assert (NA : ageGroup a <> forAge (dominantAge d))
               by (intro E; apply targetsAge_spec in E; congruence)).
    all: destruct (gender a) as [g|] eqn:EG; destruct (ageGroup a) as [g'|] eqn:EA;
      simpl; repeat split; intros; try reflexivity; try discriminate;
      try congruence; exfalso; intuition congruence.
  - intros a d. rewrite scoreAd_penalty.
    replace (isLastPlayed a (Some (id a))) with true; [reflexivity|].
    symmetry. apply isLastPlayed_spec. reflexivity.
  - intros l a d Hl. rewrite scoreAd_penalty.
    destruct (isLastPlayed a l) eqn:E.
    + apply isLastPlayed_spec in E. contradiction.
    + lia.
  - intros a. repeat split; intros Hg Ha; unfold scoreAd; rewrite Hg, Ha;
      reflexivity.
Qed.

(** The worked example, through the theorem: the three spots and the
    repetition penalty on the first of them; and an audience of mostly adult
    women, for which the male/young spot drops to -5 and a female/adult spot
    scores 10. *)
Lemma scoreAd_tiers_witness :
  score (scoreAd None (exampleAd (forGender male) (forAge young)) exampleDemographics)
  = 10%Z
  /\ score (scoreAd None (exampleAd allGenders allAges) exampleDemographics) = 5%Z
  /\ score (scoreAd None (exampleAd (forGender female) (forAge young))
                    exampleDemographics) = 3%Z
  /\ score (scoreAd None (exampleAd allGenders (forAge adult)) exampleDemographics)
     = (-5)%Z
  /\ score (scoreAd (Some "ad-1"%string)
                    (exampleAd (forGender male) (forAge young)) exampleDemographics)
     = 7%Z
  /\ dominantGender (mkCounts 1 5 0 1 4) = female
  /\ dominantAge (mkCounts 1 5 0 1 4) = adult
  /\ score (scoreAd None (exampleAd (forGender male) (forAge young))
                    (mkCounts 1 5 0 1 4)) = (-5)%Z
  /\ score (scoreAd None (exampleAd (forGender female) (forAge adult))
                    (mkCounts 1 5 0 1 4)) = 10%Z.
Proof.
  destruct scoreAd_tiers as [T [P [_ [_ [DG DA]]]]].
  pose proof (T (exampleAd (forGender male) (forAge young)) exampleDemographics)
    as [T10 _].
  pose proof (T (exampleAd allGenders allAges) exampleDemographics)
    as [_ [T5 _]].
  pose proof (T (exampleAd (forGender female) (forAge young)) exampleDemographics)
    as [_ [_ [T3 _]]].
  pose proof (T (exampleAd allGenders (forAge adult)) exampleDemographics)
    as [_ [_ [_ Tm5]]].
  assert (G : dominantGender (mkCounts 1 5 0 1 4) = female).
  { apply (proj2 (DG (mkCounts 1 5 0 1 4))). simpl. lia. }
  assert (A : dominantAge (mkCounts 1 5 0 1 4) = adult).
  { apply (proj1 (proj2 (DA (mkCounts 1 5 0 1 4)))). simpl. lia. }
  split; [|split; [|split; [|split; [|split; [|split; [|split; [|split]]]]]]].
  - apply T10. split; reflexivity.
  - apply T5. simpl. split; [right; reflexivity|].
    split; [right; reflexivity | left; reflexivity].
  - apply T3. right. simpl. split; [|reflexivity].
    intros [H|H]; discriminate.
  - apply Tm5. simpl. split; [discriminate|]. split; [discriminate|].
    intros [_ [H|H]]; discriminate.
  - pose proof (P (exampleAd (forGender male) (forAge young)) exampleDemographics)
      as HP.
    simpl id in HP. rewrite HP.
    rewrite T10; [reflexivity | split; reflexivity].
  - exact G.
  - exact A.
  - pose proof (T (exampleAd (forGender male) (forAge young)) (mkCounts 1 5 0 1 4))
      as [_ [_ [_ Tm]]].
    apply Tm. rewrite G, A. simpl.
    split; [discriminate|]. split; [discriminate|].
    intros [[H|H] _]; discriminate.
  - pose proof (T (exampleAd (forGender female) (forAge adult)) (mkCounts 1 5 0 1 4))
      as [Tt _].
    apply Tt. rewrite G, A. split; reflexivity.
Defined.

End AdQueueProps.

(** ** Bias correction *)

Module GenderHeuristicsProps.
Import Ad GenderHeuristics.

Lemma adjusted_is_computed (g : Gender) (c b h : Q) :
  Num.min 0.95 ((match g with female => c | male => 1 - c end) + b * (0.3 + h * 0.7))
  == adjustedProbability g c b h.
Proof.
  unfold adjustedProbability, femaleProbability, Num.min.
  apply Q.min_compat; [reflexivity|].
  destruct g; ring.
Qed.

Lemma in_band (c : Q) :
  0.45 <= c -> c <= 0.70 -> ((c <? 0.45) || (c >? 0.70)) = false.
Proof.
  intros L U. apply orb_false_iff. split.
  - apply ltb_false. exact L.
  - apply gtb_false. exact U.
Qed.

Lemma boost_out_of_band (g : Gender) (c b h : Q) :
  c < 0.45 \/ 0.70 < c -> applyFemaleBoost g c b h = mkBoosted g c.
Proof.
  intros H. unfold applyFemaleBoost.
  replace ((c <? 0.45) || (c >? 0.70)) with true; [reflexivity|].
  symmetry. apply orb_true_iff.
  destruct H as [H|H]; [left; apply ltb_spec | right; apply gtb_spec]; exact H.
Qed.

Lemma boost_in_band (g : Gender) (c b h : Q) :
  0.45 <= c -> c <= 0.70 ->
  let p := adjustedProbability g c b h in
  let r := applyFemaleBoost g c b h in
  (0.5 < p -> b_gender r = female /\ b_confidence r == p)
  /\ (p <= 0.5 -> b_gender r = male /\ b_confidence r == 1 - p).
Proof.
  intros L U p r. subst p r. unfold applyFemaleBoost.
  rewrite (in_band c L U).
  pose proof (adjusted_is_computed g c b h) as E.
  set (q := Num.min 0.95 _) in *.
  split.
  - intros P. replace (q >? 0.5) with true.
    + simpl. split; [reflexivity | exact E].
    + symmetry. apply gtb_spec. rewrite E. exact P.
  - intros P. replace (q >? 0.5) with false.
    + simpl. split; [reflexivity | rewrite E; reflexivity].
    + symmetry. apply gtb_false. rewrite E. exact P.
Qed.

(** C5.  Outside the band [0.45, 0.70] the input comes back unchanged.
    Inside it, with [p] the female probability of the input plus
    [boostFactor * (0.3 + 0.7 * hairScore)], clamped to at most 0.95: the
    result is female with confidence [p] when [p > 0.5], and male with
    confidence [1 - p] otherwise. *)
Theorem applyFemaleBoost_spec (g : Gender) (confidence boostFactor hairScore : Q) :
  (confidence < 0.45 \/ 0.70 < confidence ->
   applyFemaleBoost g confidence boostFactor hairScore = mkBoosted g confidence)
  /\ (0.45 <= confidence /\ confidence <= 0.70 ->
      let p := adjustedProbability g confidence boostFactor hairScore in
      let r := applyFemaleBoost g confidence boostFactor hairScore in
      p <= 0.95
      /\ (0.5 < p -> b_gender r = female /\ b_confidence r == p)
      /\ (p <= 0.5 -> b_gender r = male /\ b_confidence r == 1 - p)).
Proof.
  split.
  - apply boost_out_of_band.
  - intros [L U] p r. split.
    + apply Q.le_min_l.
    + exact (boost_in_band g confidence boostFactor hairScore L U).
Qed.

(** Both halves at concrete inputs: a decisive male reading is left alone, an
    uncertain one (0.55, boost 0.15, neutral hair) turns female. *)
Lemma applyFemaleBoost_spec_witness :
  applyFemaleBoost male 0.9 0.15 0.5 = mkBoosted male 0.9
  /\ b_gender (applyFemaleBoost male 0.55 0.15 0.5) = female
  /\ b_confidence (applyFemaleBoost male 0.55 0.15 0.5) == 0.5475.
Proof.
  split.
  - apply (proj1 (applyFemaleBoost_spec male 0.9 0.15 0.5)).
    right. reflexivity.
  - assert (B : 0.45 <= 0.55 /\ 0.55 <= 0.70) by (split; discriminate).
    destruct (proj2 (applyFemaleBoost_spec male 0.55 0.15 0.5) B) as [_ [F _]].
    destruct F as [Fg Fc]; [reflexivity|].
    split; [exact Fg|]. rewrite Fc. reflexivity.
Defined.

(** C10.  A raw female reading at confidence 0.45 is inside the band; when
    the boost term [boostFactor * (0.3 + 0.7 * hairScore)] is at most 0.05 the
    adjusted female probability is at most 0.5 and the label returned is
    male, with confidence one minus that probability. *)
Theorem applyFemaleBoost_flips_female (boostFactor hairScore : Q) :
  boostFactor * (0.3 + 0.7 * hairScore) <= 0.05 ->
  adjustedProbability female 0.45 boostFactor hairScore <= 0.5
  /\ b_gender (applyFemaleBoost female 0.45 boostFactor hairScore) = male
  /\ b_confidence (applyFemaleBoost female 0.45 boostFactor hairScore)
     == 1 - adjustedProbability female 0.45 boostFactor hairScore.
Proof.
  intros H.
  assert (P : adjustedProbability female 0.45 boostFactor hairScore <= 0.5).
  { unfold adjustedProbability, femaleProbability.
    apply Qle_trans with (0.45 + boostFactor * (0.3 + 0.7 * hairScore)).
    - apply Q.le_min_r.
    - apply Qle_trans with (0.45 + 0.05); [|discriminate].
      apply Qplus_le_r. exact H. }
  split; [exact P|].
  assert (L : 0.45 <= 0.45) by discriminate.
  assert (U : 0.45 <= 0.70) by discriminate.
  exact (proj2 (boost_in_band female 0.45 boostFactor hairScore L U) P).
Qed.

(** With no boost at all, and with the boost 0.05 of the short-hair end
    (factor 1/6 on a hair score of 0), the female reading 0.45 comes back
    male. *)
Lemma applyFemaleBoost_flips_female_witness :
  b_gender (applyFemaleBoost female 0.45 0 0.5) = male
  /\ b_gender (applyFemaleBoost female 0.45 (1 # 6) 0) = male.
Proof.
  split.
  - apply (applyFemaleBoost_flips_female 0 0.5). discriminate.
  - apply (applyFemaleBoost_flips_female (1 # 6) 0). discriminate.
Defined.

End GenderHeuristicsProps.

(** ** Vote stabilisation *)

Module StabilisationProps.
Import Ad Detection SmartAds.

Lemma getStableGender_keeps (votes : GenderVotes) (previous : Gender) :
  genderTotal votes < 0.9 \/ genderMargin votes < 0.25 ->
  getStableGender votes previous noOpts = previous.
Proof.
  intros H. unfold getStableGender. simpl Num.orElse.
  destruct (v_male votes + v_female votes <? 0.9) eqn:T; [reflexivity|].
  destruct (Num.abs (v_female votes - v_male votes) <? 0.25) eqn:M; [reflexivity|].
  apply ltb_false in T. apply ltb_false in M.
  destruct H as [H|H].
  - exfalso. exact (Qlt_not_le _ _ H T).
  - exfalso. exact (Qlt_not_le _ _ H M).
Qed.

Lemma getStableGender_changes (votes : GenderVotes) (previous : Gender) :
  getStableGender votes previous noOpts <> previous ->
  0.9 <= genderTotal votes /\ 0.25 <= genderMargin votes.
Proof.
  intros H. unfold getStableGender in H. simpl Num.orElse in H.
  destruct (v_male votes + v_female votes <? 0.9) eqn:T; [congruence|].
  destruct (Num.abs (v_female votes - v_male votes) <? 0.25) eqn:M; [congruence|].
  apply ltb_false in T. apply ltb_false in M. split; assumption.
Qed.

(** The stable gender a matched update writes. *)
Lemma updateMatched_stableGender (boost : Q) (now : Z)
      (t : TrackedFace) (det : DetectionResult) :
  let t' := updateMatched boost now t det in
  t_stableGender t' = t_stableGender t
  \/ t_stableGender t'
     = getStableGender (t_genderVotes t') (t_stableGender t) noOpts.
Proof.
  unfold updateMatched.
  destruct (t_isUserCorrected t) as [[|]|];
    destruct (r_confidence det >=? MIN_VOTE_CONFIDENCE); simpl;
    auto.
Qed.

Lemma updateMatched_changes (boost : Q) (now : Z)
      (t : TrackedFace) (det : DetectionResult) :
  let t' := updateMatched boost now t det in
  t_stableGender t' <> t_stableGender t ->
  0.9 <= genderTotal (t_genderVotes t') /\ 0.25 <= genderMargin (t_genderVotes t').
Proof.
  intros t' H.
  destruct (updateMatched_stableGender boost now t det) as [E|E]; fold t' in E.
  - contradiction.
  - apply getStableGender_changes with (previous := t_stableGender t).
    rewrite <- E. exact H.
Qed.

Lemma timeline_keeps (boost : Q) (ds : list (Z * DetectionResult)) :
  forall t : TrackedFace,
    Forall (fun t' => genderTotal (t_genderVotes t') < 0.9
                      \/ genderMargin (t_genderVotes t') < 0.25)
           (matchedTimeline boost t ds) ->
    Forall (fun t' => t_stableGender t' = t_stableGender t)
           (matchedTimeline boost t ds).
Proof.
  induction ds as [|[now det] rest IH]; intros t H; simpl in *.
  - constructor.
  - inversion H as [|? ? Hweak Hrest]; subst.
    assert (E : t_stableGender (updateMatched boost now t det) = t_stableGender t).
    { destruct (updateMatched_stableGender boost now t det) as [E|E];
        [exact E|].
      rewrite E. apply getStableGender_keeps. exact Hweak. }
    constructor; [exact E|].
    specialize (IH _ Hrest).
    eapply Forall_impl; [|exact IH].
    simpl. intros a Ha. congruence.
Qed.

End StabilisationProps.

(** ** Closing the capture session *)

Module SessionProps.
Import Ad Detection SmartAds.

Lemma countIf_split {A : Type} (p q : A -> bool) (l : list A) :
  (forall a, q a = negb (p a)) ->
  (JsArray.countIf p l + JsArray.countIf q l)%Z = Z.of_nat (List.length l).
Proof.
  intros H. unfold JsArray.countIf.
  induction l as [|a l IH]; simpl; [reflexivity|].
  rewrite (H a). destruct (p a); simpl List.length; lia.
Qed.

Lemma gender_counts (l : list ViewerAggregate) :
  (JsArray.countIf (fun v => Gender_eqb (a_finalGender v) male) l
   + JsArray.countIf (fun v => Gender_eqb (a_finalGender v) female) l)%Z
  = Z.of_nat (List.length l).
Proof.
  apply countIf_split. intros v. destruct (a_finalGender v); reflexivity.
Qed.

Lemma age_counts (l : list ViewerAggregate) :
  (JsArray.countIf (fun v => AgeGroup_eqb (a_finalAgeGroup v) kid) l
   + JsArray.countIf (fun v => AgeGroup_eqb (a_finalAgeGroup v) young) l
   + JsArray.countIf (fun v => AgeGroup_eqb (a_finalAgeGroup v) adult) l)%Z
  = Z.of_nat (List.length l).
Proof.
  unfold JsArray.countIf.
  induction l as [|a l IH]; simpl; [reflexivity|].
  destruct (a_finalAgeGroup a); simpl List.length; lia.
Qed.

Lemma summary_viewers_spec (minConf : Q) (now : Z) (session : CaptureSession)
      (v : ViewerAggregate) :
  In v (s_viewers (finalizeSession minConf now session))
  <-> In v (JsMap.values (viewers session))
      /\ (2 <= a_seenFrames v)%Z /\ minConf <= a_bestConfidence v.
Proof.
  unfold finalizeSession. simpl s_viewers.
  rewrite !filter_In, geb_spec. unfold MIN_FRAMES_FOR_SESSION.
  rewrite Z.geb_le. tauto.
Qed.

(** C2.  The viewers of the summary a closing session produces are exactly
    the viewers of the session with [seenFrames >= 2] and [bestConfidence]
    at least the configured minimum; [uniqueViewers] is their number, and the
    gender buckets, like the age buckets, count each of them once.  A viewer
    with [seenFrames = 1] is not in the summary, whatever its confidence. *)
Theorem finalizeSession_counts_qualified
        (minConf : Q) (now : Z) (session : CaptureSession) :
  let summary := finalizeSession minConf now session in
  (forall v : ViewerAggregate,
      In v (s_viewers summary)
      <-> In v (JsMap.values (viewers session))
          /\ (2 <= a_seenFrames v)%Z /\ minConf <= a_bestConfidence v)
  /\ s_uniqueViewers summary = Z.of_nat (List.length (s_viewers summary))
  /\ (c_male (s_demographics summary) + c_female (s_demographics summary))%Z
     = s_uniqueViewers summary
  /\ (c_kid (s_demographics summary) + c_young (s_demographics summary)
      + c_adult (s_demographics summary))%Z
     = s_uniqueViewers summary
  /\ (c_male (s_demographics summary)
      = JsArray.countIf (fun v => Gender_eqb (a_finalGender v) male)
                        (s_viewers summary))
  /\ (forall v : ViewerAggregate,
         a_seenFrames v = 1%Z -> ~ In v (s_viewers summary)).
Proof.
  intros summary. subst summary.
  split; [intros v; apply summary_viewers_spec|].
  split; [reflexivity|].
  split; [apply gender_counts|].
  split; [apply age_counts|].
  split; [reflexivity|].
  intros v H1 Hin. apply summary_viewers_spec in Hin.
  destruct Hin as [_ [H2 _]]. lia.
Qed.

(** In the example session the viewer seen once (confidence 0.99) is left
    out and the viewer seen three times (confidence 0.8) is counted, at the
    default minimum 0.75. *)
Lemma finalizeSession_counts_qualified_witness :
  ~ In (Examples.viewerSeen "face_a" 1 0.99)
       (s_viewers (finalizeSession 0.75 9000 Examples.exampleSession))
  /\ In (Examples.viewerSeen "face_b" 3 0.8)
        (s_viewers (finalizeSession 0.75 9000 Examples.exampleSession))
  /\ s_uniqueViewers (finalizeSession 0.75 9000 Examples.exampleSession) = 1%Z.
Proof.
  pose proof (finalizeSession_counts_qualified 0.75 9000 Examples.exampleSession)
    as [Hiff [_ [_ [_ [_ Hone]]]]].
  split; [|split].
  - apply Hone. reflexivity.
  - apply Hiff. split; [right; left; reflexivity|].
    split; [vm_compute; discriminate | discriminate].
  - reflexivity.
Defined.

(** Four ticks without a face and a fifth with one strong face: the face has
    a provisional track, no viewer was aggregated, and the closing summary
    counts five frames and nobody. *)
Example five_ticks_count_nobody :
  match endCaptureWindow 0.75 9000 Examples.fiveTicks with
  | (_, Some summary, reorder) =>
      s_uniqueViewers summary = 0%Z
      /\ s_totalFrames summary = 5%Z
      /\ reorder = None
      /\ List.length (tracked Examples.fiveTicks) = 1%nat
  | _ => False
  end.
Proof.
  vm_compute. repeat split; reflexivity.
Qed.

End SessionProps.

(** ** The stable sort *)

Section SortFacts.

Context {A : Type} (key : A -> Q).

Lemma insertDesc_Forall (P : A -> Prop) (e : A) (l : list A) :
  P e -> Forall P l -> Forall P (JsArray.insertDesc key e l).
Proof.
  intros He Hl. induction Hl as [|h t Hh Ht IH]; simpl.
  - constructor; [exact He | constructor].
  - destruct (key h >? key e).
    + constructor; assumption.
    + constructor; [exact He|]. constructor; assumption.
Qed.

Lemma insertDesc_sorted (e : A) (l : list A) :
  StronglySorted (JsArray.descending key) l ->
  StronglySorted (JsArray.descending key) (JsArray.insertDesc key e l).
Proof.
  intros Hl. induction Hl as [|h t Hs IH Hall]; simpl.
  - constructor; constructor.
  - destruct (key h >? key e) eqn:C.
    + constructor; [exact IH|].
      apply insertDesc_Forall; [|exact Hall].
      apply gtb_spec in C. apply Qlt_le_weak. exact C.
    + apply gtb_false in C.
      constructor; [constructor; assumption|].
      constructor; [exact C|].
      eapply Forall_impl; [|exact Hall].
      intros a Ha. unfold JsArray.descending in *.
      eapply Qle_trans; eassumption.
Qed.

Lemma sortDesc_sorted (l : list A) :
  StronglySorted (JsArray.descending key) (JsArray.sortDesc key l).
Proof.
  induction l as [|e t IH]; simpl.
  - constructor.
  - apply insertDesc_sorted. exact IH.
Qed.

(** Sorting leaves a sorted array as it is. *)
Lemma sortDesc_fixes_sorted (l : list A) :
  StronglySorted (JsArray.descending key) l -> JsArray.sortDesc key l = l.
Proof.
  intros Hl. induction Hl as [|h t Hs IH Hall]; simpl.
  - reflexivity.
  - rewrite IH. destruct Hall as [|h' t' Hh' _]; simpl; [reflexivity|].
    replace (key h' >? key h) with false; [reflexivity|].
    symmetry. apply gtb_false. exact Hh'.
Qed.

Lemma sorted_remove_middle (p : list A) (c : A) (s : list A) :
  StronglySorted (JsArray.descending key) (p ++ c :: s) ->
  StronglySorted (JsArray.descending key) (p ++ s).
Proof.
  induction p as [|a p IH]; simpl; intros H.
  - inversion H; assumption.
  - inversion H as [|? ? Hs Hall]; subst.
    constructor; [apply IH; exact Hs|].
    apply Forall_app in Hall. destruct Hall as [Hp Hcs].
    apply Forall_app. split; [exact Hp|].
    inversion Hcs; assumption.
Qed.

End SortFacts.

(** ** Merging detections *)

Module MergeProps.
Import Ad FaceDetection.

Section Greedy.

Variables iouThreshold containmentThreshold : Q.

Local Abbreviation step := (mergeStep iouThreshold containmentThreshold).
Local Abbreviation loop := (mergeLoop iouThreshold containmentThreshold).
Local Abbreviation dedup := (deduplicated iouThreshold containmentThreshold).

Lemma step_cases (acc : list RawDetection) (c : RawDetection) :
  step acc c = acc \/ step acc c = acc ++ [c].
Proof.
  unfold mergeStep.
  destruct (getBox c) as [b|]; [|left; reflexivity].
  destruct (isDuplicate iouThreshold containmentThreshold acc b);
    [left | right]; reflexivity.
Qed.

Lemma deduplicated_nil : dedup [].
Proof.
  intros p c s H. destruct p; discriminate.
Qed.

Lemma deduplicated_snoc (acc : list RawDetection) (c : RawDetection) :
  dedup acc -> step acc c = acc ++ [c] -> dedup (acc ++ [c]).
Proof.
  intros Hacc Hc p c' s E.
  destruct s as [|y s0].
  - apply app_inj_tail in E. destruct E as [E1 E2]. subst. exact Hc.
  - destruct (@exists_last _ (y :: s0)) as [s1 [z1 Es1]]; [discriminate|].
    rewrite Es1 in E.
    change (p ++ c' :: s1 ++ [z1]) with (p ++ (c' :: s1) ++ [z1]) in E.
    rewrite app_assoc in E.
    apply app_inj_tail in E. destruct E as [E1 _].
    apply (Hacc p c' s1). exact E1.
Qed.

Lemma loop_deduplicated (l : list RawDetection) :
  forall acc, dedup acc -> dedup (loop acc l).
Proof.
  unfold mergeLoop.
  induction l as [|c l IH]; intros acc Hacc; simpl.
  - exact Hacc.
  - apply IH. destruct (step_cases acc c) as [E|E]; rewrite E.
    + exact Hacc.
    + apply deduplicated_snoc; assumption.
Qed.

(** The loop keeps a deduplicated array whole. *)
Lemma loop_fixes_deduplicated (s : list RawDetection) :
  forall p, dedup (p ++ s) -> loop p s = p ++ s.
Proof.
  unfold mergeLoop.
  induction s as [|c s IH]; intros p H; simpl.
  - symmetry. apply app_nil_r.
  - rewrite (H p c s eq_refl).
    rewrite IH; rewrite <- app_assoc; [reflexivity | exact H].
Qed.

Lemma loop_sorted (l : list RawDetection) :
  forall acc,
    StronglySorted (JsArray.descending getScore) (acc ++ l) ->
    StronglySorted (JsArray.descending getScore) (loop acc l).
Proof.
  unfold mergeLoop.
  induction l as [|c l IH]; intros acc H; simpl.
  - rewrite app_nil_r in H. exact H.
  - apply IH. destruct (step_cases acc c) as [E|E]; rewrite E.
    + apply (sorted_remove_middle getScore acc c l). exact H.
    + rewrite <- app_assoc. exact H.
Qed.

(** What a merge returns is sorted by descending score and deduplicated. *)
Lemma mergeDetections_shape (detections : list RawDetection) (w h : Q) :
  let m := mergeDetections detections w h iouThreshold containmentThreshold in
  StronglySorted (JsArray.descending getScore) m /\ dedup m.
Proof.
  unfold mergeDetections.
  destruct (List.length detections =? 0)%nat.
  - split; [constructor | apply deduplicated_nil].
  - split.
    + apply loop_sorted. simpl. apply sortDesc_sorted.
    + apply loop_deduplicated. apply deduplicated_nil.
Qed.

(** Merging a sorted, deduplicated array returns it. *)
Lemma mergeDetections_fixes (m : list RawDetection) (w h : Q) :
  StronglySorted (JsArray.descending getScore) m -> dedup m ->
  mergeDetections m w h iouThreshold containmentThreshold = m.
Proof.
  intros Hsorted Hdedup. unfold mergeDetections.
  destruct (List.length m =? 0)%nat eqn:E.
  - apply Nat.eqb_eq in E. destruct m; [reflexivity | discriminate].
  - rewrite (sortDesc_fixes_sorted getScore m Hsorted).
    apply (loop_fixes_deduplicated m []). exact Hdedup.
Qed.

(** C7.  Merging is idempotent: merging the output of a merge, with the same
    overlap and containment thresholds, gives that output again (the same
    detections in the same order), whatever the candidates and the frame
    sizes handed over. *)
Theorem mergeDetections_idempotent
        (detections : list RawDetection) (w h w' h' : Q) :
  mergeDetections
    (mergeDetections detections w h iouThreshold containmentThreshold)
    w' h' iouThreshold containmentThreshold
  = mergeDetections detections w h iouThreshold containmentThreshold.
Proof.
  destruct (mergeDetections_shape detections w h) as [Hsorted Hdedup].
  apply mergeDetections_fixes; assumption.
Qed.

End Greedy.

(** Three candidates on two faces and one candidate without a box: the
    lower-scored box on the first face and the boxless candidate are dropped,
    and merging the result again changes nothing. *)
Example mergeDetections_two_faces :
  let a := Examples.rawFace 0.9 0 0 100 in
  let b := Examples.rawFace 0.8 5 5 100 in
  let c := Examples.rawFace 0.7 500 500 50 in
  let noBox := mkRaw None None (Some 0.99) 30 male 0.8 in
  mergeDetections [c; b; noBox; a] 640 480 defaultIou defaultContainment = [a; c]
  /\ mergeDetections [a; c] 640 480 defaultIou defaultContainment = [a; c].
Proof.
  split; vm_compute; reflexivity.
Qed.

End MergeProps.

(** ** The multi-pass orchestrator *)

Module OrchestratorProps.
Import Ad Detection FaceDetection.

(** *** When Pass 2 runs, and at which threshold *)

Lemma DetectorKind_eqb_spec (a b : DetectorKind) :
  DetectorKind_eqb a b = true <-> a = b.
Proof.
  destruct a, b; simpl; split; intro H; congruence.
Qed.

(** Pass 2 runs exactly for a recorded source, a detector tier other than
    the tiny-only one, and fewer than 3 faces from Pass 1 or the enhanced
    rescue switched on. *)
Lemma shouldRunPass2_spec (isCCTV : bool) (config : CCTVDetectionConfig)
      (found : list RawDetection) :
  shouldRunPass2 isCCTV config found = true
  <-> isCCTV = true
      /\ detector config <> tiny
      /\ ((List.length found < 3)%nat \/ enableEnhancedRescue config = Some true).
Proof.
  unfold shouldRunPass2.
  rewrite !andb_true_iff, orb_true_iff, negb_true_iff, Nat.ltb_lt.
  assert (D : DetectorKind_eqb (detector config) tiny = false
              <-> detector config <> tiny).
  { destruct (detector config); simpl; split; intro H; congruence. }
  assert (R : (enableEnhancedRescue config ?? false) = true
              <-> enableEnhancedRescue config = Some true).
  { destruct (enableEnhancedRescue config) as [[|]|]; simpl; split; intro H;
      congruence. }
  rewrite D, R. tauto.
Qed.

(** The two thresholds over the whole range of the sensitivity. *)
Lemma thresholds_compared (s : Q) :
  let pass1 := Qmax (Qmax (s - 0.05) 0.15 - 0.05) 0.1 in
  let rescue := Qmax (s - 0.10) 0.12 in
  pass1 <= rescue
  /\ (0.22 <= s -> rescue == pass1)
  /\ (s < 0.22 -> pass1 < rescue).
Proof.
  intros pass1 rescue. subst pass1 rescue.
  destruct (Q.max_spec (s - 0.05) 0.15) as [[H1 E1]|[H1 E1]]; rewrite E1.
  - destruct (Q.max_spec (0.15 - 0.05) 0.1) as [[H2 E2]|[H2 E2]]; rewrite E2;
      destruct (Q.max_spec (s - 0.10) 0.12) as [[H4 E4]|[H4 E4]]; rewrite E4;
      repeat split; intros; lra.
  - destruct (Q.max_spec (s - 0.05 - 0.05) 0.1) as [[H3 E3]|[H3 E3]]; rewrite E3;
      destruct (Q.max_spec (s - 0.10) 0.12) as [[H4 E4]|[H4 E4]]; rewrite E4;
      repeat split; intros; lra.
Qed.

(** C6.  Pass 2 runs exactly under the stated condition.  Its threshold
    [rescueThreshold] is never below the threshold of Pass 1, but it is
    strictly above it only for a sensitivity below 0.22; from 0.22 on (the
    default 0.35 included) the two passes detect at the same threshold. *)
Theorem pass2_condition_and_threshold (isCCTV : bool) (config : CCTVDetectionConfig)
        (found : list RawDetection) :
  (shouldRunPass2 isCCTV config found = true
   <-> isCCTV = true
       /\ detector config <> tiny
       /\ ((List.length found < 3)%nat \/ enableEnhancedRescue config = Some true))
  /\ pass1Threshold config <= rescueThreshold config
  /\ (0.22 <= sensitivity config -> rescueThreshold config == pass1Threshold config)
  /\ (sensitivity config < 0.22 -> pass1Threshold config < rescueThreshold config).
Proof.
  split; [apply shouldRunPass2_spec|].
  exact (thresholds_compared (sensitivity config)).
Qed.

(** At the default sensitivity 0.35, with no face found by Pass 1 on a
    recorded source, Pass 2 runs and detects at the threshold of Pass 1
    (0.25); at sensitivity 0.15 it runs at 0.12 against 0.10. *)
Lemma pass2_condition_and_threshold_witness :
  shouldRunPass2 true Examples.recordedConfig [] = true
  /\ rescueThreshold Examples.recordedConfig == pass1Threshold Examples.recordedConfig
  /\ ~ pass1Threshold Examples.recordedConfig < rescueThreshold Examples.recordedConfig
  /\ pass1Threshold Examples.sensitiveConfig < rescueThreshold Examples.sensitiveConfig.
Proof.
  destruct (pass2_condition_and_threshold true Examples.recordedConfig [])
    as [Hrun [_ [Heq _]]].
  destruct (pass2_condition_and_threshold true Examples.sensitiveConfig [])
    as [_ [_ [_ Hlt]]].
  assert (E : rescueThreshold Examples.recordedConfig
              == pass1Threshold Examples.recordedConfig)
    by (apply Heq; discriminate).
  split; [|split; [|split]].
  - apply Hrun. split; [reflexivity|]. split; [discriminate|].
    left. simpl. lia.
  - exact E.
  - rewrite E. apply Qlt_irrefl.
  - apply Hlt. reflexivity.
Defined.

(** *** Detector failures *)

Section Failures.

Variable Canvas : Type.
Variable createProcessedCanvas :
  PreprocessingOptions -> Q -> option ROIConfig -> Outcome (option Canvas).
Variable processAndDedupe : Collected Canvas -> Outcome (list DetectionResult).
Variable ssdLoaded : bool.
Variable isCCTV : bool.
Variable config : CCTVDetectionConfig.
Variables videoWidth videoHeight : Q.

Lemma mapi_ext {A B : Type} (f g : nat -> A -> B) (l : list A) :
  (forall k a, f k a = g k a) -> mapi f l = mapi g l.
Proof.
  intros H. unfold mapi. apply map_ext. intros [k a]. apply H.
Qed.

Section Quiet.

Variables detect detect' :
  CallSite -> Input Canvas -> DetectorOptions -> Outcome (list RawDetection).
Hypothesis quiet : failsQuietly detect detect'.

(** Under its [try]/[catch] a throwing request and an empty answer are the
    same array. *)
Lemma caught_alike (site : CallSite) (input : Input Canvas)
      (options : DetectorOptions) :
  (pass site = 1 \/ pass site = 2)%nat ->
  tryCatch (detect' site input options) [] = tryCatch (detect site input options) [].
Proof.
  intros _. destruct (quiet site input options) as [E|[_ [E1 E2]]].
  - rewrite E. reflexivity.
  - rewrite E1, E2. reflexivity.
Qed.

(** The guarded SSD request: what is pushed and whether SSD counts as used. *)
Lemma ssd_alike (loaded : bool) (site : CallSite) (input : Input Canvas)
      (threshold : Q) {T : Type} (hit miss : list RawDetection -> T) (k : T) :
  (forall l, List.length l = 0%nat -> miss l = k) ->
  match runSsdDetection Canvas detect' loaded site input threshold with
  | Returned r => if (0 <? List.length r)%nat then hit r else miss r
  | Thrown => k
  end
  = match runSsdDetection Canvas detect loaded site input threshold with
    | Returned r => if (0 <? List.length r)%nat then hit r else miss r
    | Thrown => k
    end.
Proof.
  intros Hk. unfold runSsdDetection.
  destruct (negb loaded); [reflexivity|].
  destruct (quiet site input (SsdMobilenetv1Options threshold)) as [E|[_ [E1 E2]]].
  - rewrite E. reflexivity.
  - rewrite E1, E2. simpl. apply Hk. reflexivity.
Qed.

Lemma pass1_alike :
  pass1Detections Canvas detect' ssdLoaded isCCTV config
  = pass1Detections Canvas detect ssdLoaded isCCTV config.
Proof.
  unfold pass1Detections.
  set (scales := pass1Scales isCCTV).
  assert (M : mapi (fun k inputSize =>
                      tryCatch
                        (if useSsdOnly ssdLoaded config
                         then runSsdDetection Canvas detect' ssdLoaded (mkSite 1 k)
                                              VideoElement (pass1Threshold config)
                         else runTinyDetection Canvas detect' (mkSite 1 k)
                                               VideoElement inputSize
                                               (pass1Threshold config)) []) scales
              = mapi (fun k inputSize =>
                        tryCatch
                          (if useSsdOnly ssdLoaded config
                           then runSsdDetection Canvas detect ssdLoaded (mkSite 1 k)
                                                VideoElement (pass1Threshold config)
                           else runTinyDetection Canvas detect (mkSite 1 k)
                                                 VideoElement inputSize
                                                 (pass1Threshold config)) []) scales).
  { apply mapi_ext. intros k a.
    destruct (useSsdOnly ssdLoaded config).
    - unfold runSsdDetection. destruct (negb ssdLoaded); [reflexivity|].
      apply caught_alike. left. reflexivity.
    - unfold runTinyDetection. apply caught_alike. left. reflexivity. }
  rewrite M. set (all := mapi _ scales).
  destruct (ssdLoaded && (isDualMode ssdLoaded config
                          || negb (DetectorKind_eqb (detector config) tiny)));
    [|reflexivity].
  rewrite (ssd_alike ssdLoaded (mkSite 1 (List.length scales)) VideoElement
                     (pass1Threshold config)
                     (fun r => (all ++ [r], ssd)) (fun _ => (all, tiny)) (all, tiny)).
  - reflexivity.
  - reflexivity.
Qed.

Lemma pass2_alike (c : Canvas) :
  pass2Detections Canvas detect' ssdLoaded config c
  = pass2Detections Canvas detect ssdLoaded config c.
Proof.
  unfold pass2Detections.
  assert (M : mapi (fun k inputSize =>
                      tryCatch (runTinyDetection Canvas detect' (mkSite 2 k)
                                  (CanvasElement c) inputSize (rescueThreshold config))
                               []) pass2Scales
              = mapi (fun k inputSize =>
                        tryCatch (runTinyDetection Canvas detect (mkSite 2 k)
                                    (CanvasElement c) inputSize (rescueThreshold config))
                                 []) pass2Scales).
  { apply mapi_ext. intros k a. unfold runTinyDetection.
    apply caught_alike. right. reflexivity. }
  rewrite M. set (all := mapi _ pass2Scales).
  destruct ssdLoaded; [|reflexivity].
  rewrite (ssd_alike true (mkSite 2 (List.length pass2Scales)) (CanvasElement c)
                     (rescueThreshold config)
                     (fun r => (all ++ [r], true)) (fun _ => (all, false))
                     (all, false)).
  - reflexivity.
  - reflexivity.
Qed.

(** The requests of Pass 3 are answered alike by both detectors. *)
Lemma pass3_alike :
  pass3Candidates Canvas detect' createProcessedCanvas ssdLoaded config
                  videoWidth videoHeight
  = pass3Candidates Canvas detect createProcessedCanvas ssdLoaded config
                    videoWidth videoHeight.
Proof.
  assert (Same : forall k input options,
             detect' (mkSite 3 k) input options = detect (mkSite 3 k) input options).
  { intros k input options.
    destruct (quiet (mkSite 3 k) input options) as [E|[[P|P] _]];
      [exact E | discriminate P | discriminate P]. }
  unfold pass3Candidates.
  destruct (createProcessedCanvas (mkPre 1.8 2.0 0.6 true) 2.5 None) as [[c|]|];
    simpl; try reflexivity.
  unfold runTinyDetection, runSsdDetection. rewrite !Same. reflexivity.
Qed.

Lemma collect_alike :
  collectDetections Canvas detect' createProcessedCanvas ssdLoaded isCCTV config
                    videoWidth videoHeight
  = collectDetections Canvas detect createProcessedCanvas ssdLoaded isCCTV config
                      videoWidth videoHeight.
Proof.
  unfold collectDetections.
  assert (E12 : collectPass1And2 Canvas detect' createProcessedCanvas ssdLoaded
                                 isCCTV config videoWidth videoHeight
                = collectPass1And2 Canvas detect createProcessedCanvas ssdLoaded
                                   isCCTV config videoWidth videoHeight).
  { unfold collectPass1And2. rewrite pass1_alike.
    destruct (pass1Detections Canvas detect ssdLoaded isCCTV config) as [all used].
    destruct (if requireFaceTexture config ?? false
              then createProcessedCanvas (mkPre 1 1 0 false) 1 None
              else Returned None) as [texture|]; simpl; [|reflexivity].
    destruct (shouldRunPass2 isCCTV config
                (mergeDetections (JsArray.flat all) videoWidth videoHeight
                                 defaultIou defaultContainment)); [|reflexivity].
    destruct (createProcessedCanvas _ (upscale config) _) as [[c|]|]; simpl;
      try reflexivity.
    rewrite pass2_alike. reflexivity. }
  rewrite E12.
  destruct (collectPass1And2 Canvas detect createProcessedCanvas ssdLoaded isCCTV
                             config videoWidth videoHeight) as [a|]; simpl;
    [|reflexivity].
  unfold applyPass3. rewrite pass3_alike. reflexivity.
Qed.

End Quiet.

Section AnyDetector.

Variable detect :
  CallSite -> Input Canvas -> DetectorOptions -> Outcome (list RawDetection).

(** A request of Pass 3 that throws leaves the candidates of Pass 2. *)
Lemma pass3_failure (c : Canvas) (afterPass2 : Collected Canvas) :
  createProcessedCanvas (mkPre 1.8 2.0 0.6 true) 2.5 None = Returned (Some c) ->
  detect (mkSite 3 0) (CanvasElement c)
         (TinyFaceDetectorOptions 608 ultraLowThreshold) = Thrown
  \/ (ssdLoaded = true
      /\ detect (mkSite 3 1) (CanvasElement c)
                (SsdMobilenetv1Options ultraLowThreshold) = Thrown) ->
  applyPass3 Canvas detect createProcessedCanvas ssdLoaded isCCTV config
             videoWidth videoHeight afterPass2
  = afterPass2.
Proof.
  intros Hc H. unfold applyPass3.
  destruct (shouldRunPass3 isCCTV config (detections afterPass2)); [|reflexivity].
  replace (pass3Candidates Canvas detect createProcessedCanvas ssdLoaded config
                           videoWidth videoHeight) with
      (@Thrown (option (list RawDetection))); [reflexivity|].
  unfold pass3Candidates. rewrite Hc. simpl.
  unfold runTinyDetection, runSsdDetection.
  destruct H as [H|[L H]].
  - rewrite H. reflexivity.
  - rewrite L, H. simpl.
    destruct (detect (mkSite 3 0) (CanvasElement c)
                     (TinyFaceDetectorOptions 608 ultraLowThreshold));
      reflexivity.
Qed.

(** No exception of the detector leaves the orchestration. *)
Lemma collect_returns :
  (forall p q r, createProcessedCanvas p q r <> Thrown) ->
  exists collected,
    collectDetections Canvas detect createProcessedCanvas ssdLoaded isCCTV config
                      videoWidth videoHeight
    = Returned collected.
Proof.
  intros Hcanvas. unfold collectDetections, collectPass1And2.
  destruct (pass1Detections Canvas detect ssdLoaded isCCTV config) as [all used].
  destruct (if requireFaceTexture config ?? false
            then createProcessedCanvas (mkPre 1 1 0 false) 1 None
            else Returned None) as [texture|] eqn:T.
  - simpl.
    destruct (shouldRunPass2 isCCTV config _).
    + destruct (createProcessedCanvas _ (upscale config) _) as [[c|]|] eqn:P2;
        simpl.
      * destruct (pass2Detections Canvas detect ssdLoaded config c).
        eexists. reflexivity.
      * eexists. reflexivity.
      * exfalso. exact (Hcanvas _ _ _ P2).
    + eexists. reflexivity.
  - exfalso. destruct (requireFaceTexture config ?? false).
    + exact (Hcanvas _ _ _ T).
    + discriminate T.
Qed.

(** C9.  A request of Pass 1 or Pass 2 that throws (one resolution, or the
    SSD request of the pass) contributes no candidate: the candidate set, and
    with it the result of the cycle, is the one of the cycle in which that
    request was answered by an empty array, every other request being
    answered as before.  A request of Pass 3 that throws makes Pass 3
    contribute nothing: the candidates are those Pass 2 left.  And whatever
    the detector throws, the orchestration returns its candidate set, nothing
    but the canvas builder can make it raise. *)
Theorem detector_failure_is_contained :
  (forall detect',
      failsQuietly detect detect' ->
      collectDetections Canvas detect createProcessedCanvas ssdLoaded isCCTV config
                        videoWidth videoHeight
      = collectDetections Canvas detect' createProcessedCanvas ssdLoaded isCCTV
                          config videoWidth videoHeight
      /\ forall inFlight ready,
          detectFaces Canvas detect createProcessedCanvas processAndDedupe
                      ssdLoaded isCCTV config videoWidth videoHeight inFlight ready
          = detectFaces Canvas detect' createProcessedCanvas processAndDedupe
                        ssdLoaded isCCTV config videoWidth videoHeight
                        inFlight ready)
  /\ (forall (c : Canvas) (afterPass2 : Collected Canvas),
         createProcessedCanvas (mkPre 1.8 2.0 0.6 true) 2.5 None = Returned (Some c) ->
         detect (mkSite 3 0) (CanvasElement c)
                (TinyFaceDetectorOptions 608 ultraLowThreshold) = Thrown
         \/ (ssdLoaded = true
             /\ detect (mkSite 3 1) (CanvasElement c)
                       (SsdMobilenetv1Options ultraLowThreshold) = Thrown) ->
         applyPass3 Canvas detect createProcessedCanvas ssdLoaded isCCTV config
                    videoWidth videoHeight afterPass2
         = afterPass2)
  /\ ((forall p q r, createProcessedCanvas p q r <> Thrown) ->
      exists collected,
        collectDetections Canvas detect createProcessedCanvas ssdLoaded isCCTV
                          config videoWidth videoHeight
        = Returned collected).
Proof.
  split; [|split].
  - intros detect' Hq.
    assert (E : collectDetections Canvas detect' createProcessedCanvas ssdLoaded
                                  isCCTV config videoWidth videoHeight
                = collectDetections Canvas detect createProcessedCanvas ssdLoaded
                                    isCCTV config videoWidth videoHeight)
      by (apply collect_alike; exact Hq).
    split; [symmetry; exact E|].
    intros inFlight ready. unfold detectFaces. rewrite E. reflexivity.
  - apply pass3_failure.
  - apply collect_returns.
Qed.

End AnyDetector.

End Failures.

Lemma flaky_fails_quietly :
  failsQuietly Examples.flakyDetector Examples.quietDetector.
Proof.
  intros [p k] input options.
  unfold Examples.flakyDetector, Examples.quietDetector. simpl.
  destruct p as [|[|p]]; try (left; reflexivity).
  destruct k as [|k]; [|left; reflexivity].
  right. split; [left; reflexivity|]. split; reflexivity.
Qed.

(** A cycle on a recorded source whose first request throws gives the result
    of the cycle in which that request found nothing; a cycle whose Pass 3
    requests throw keeps the candidates of Pass 2 and returns. *)
Lemma detector_failure_is_contained_witness :
  detectFaces unit Examples.flakyDetector Examples.unitCanvas Examples.reportAll
              true true Examples.recordedConfig 640 480 false true
  = detectFaces unit Examples.quietDetector Examples.unitCanvas Examples.reportAll
                true true Examples.recordedConfig 640 480 false true
  /\ applyPass3 unit Examples.pass3Failing Examples.unitCanvas
                true true Examples.recordedConfig 640 480
                (mkCollected [Examples.rawFace 0.9 100 100 80] ssd 2 true true 2.0
                             None None)
     = mkCollected [Examples.rawFace 0.9 100 100 80] ssd 2 true true 2.0 None None
  /\ exists collected,
      collectDetections unit Examples.pass3Failing Examples.unitCanvas
                        true true Examples.recordedConfig 640 480
      = Returned collected.
Proof.
  split; [|split].
  - destruct (detector_failure_is_contained
                unit Examples.unitCanvas Examples.reportAll true true
                Examples.recordedConfig 640 480 Examples.flakyDetector)
      as [H _].
    destruct (H Examples.quietDetector flaky_fails_quietly) as [_ Hcycle].
    apply Hcycle.
  - destruct (detector_failure_is_contained
                unit Examples.unitCanvas Examples.reportAll true true
                Examples.recordedConfig 640 480 Examples.pass3Failing)
      as [_ [H _]].
    apply (H tt); [reflexivity | left; reflexivity].
  - destruct (detector_failure_is_contained
                unit Examples.unitCanvas Examples.reportAll true true
                Examples.recordedConfig 640 480 Examples.pass3Failing)
      as [_ [_ H]].
    apply H. intros p q r. discriminate.
Defined.

End OrchestratorProps.

(** ** The tracker *)

Module TrackerProps.
Import Ad Detection SmartAds.

(** *** Maps and indexed arrays *)

Lemma get_after_set {V : Type} (m : JsMap.t V) (k : string) (v : V) :
  JsMap.get (JsMap.set m k v) k = Some v.
Proof.
  induction m as [|[k' v'] m IH]; simpl.
  - rewrite String.eqb_refl. reflexivity.
  - destruct (String.eqb k' k) eqn:E; simpl; rewrite E; [reflexivity | exact IH].
Qed.

Lemma get_after_set_other {V : Type} (m : JsMap.t V) (k k' : string) (v : V) :
  k' <> k -> JsMap.get (JsMap.set m k v) k' = JsMap.get m k'.
Proof.
  intros N. induction m as [|[h w] m IH]; simpl.
  - destruct (String.eqb k k') eqn:E; [|reflexivity].
    apply String.eqb_eq in E. congruence.
  - destruct (String.eqb h k) eqn:E; simpl.
    + apply String.eqb_eq in E. subst h.
      destruct (String.eqb k k') eqn:E'; [|reflexivity].
      apply String.eqb_eq in E'. congruence.
    + destruct (String.eqb h k'); [reflexivity | exact IH].
Qed.

Lemma append_cancel_l (p a b : string) :
  (p ++ a)%string = (p ++ b)%string -> a = b.
Proof.
  induction p as [|c p IH]; simpl; intros H; [exact H|].
  injection H as H. exact (IH H).
Qed.

(** Different random suffixes give different ids. *)
Lemma newId_injective (now : Z) (s s' : string) :
  newId now s = newId now s' -> s = s'.
Proof.
  unfold newId. intros H.
  apply append_cancel_l in H. apply append_cancel_l in H.
  apply append_cancel_l in H. exact H.
Qed.

Lemma In_indexed_from {A : Type} (l : list A) :
  forall (s i : nat) (a : A),
    In (i, a) (combine (seq s (List.length l)) l)
    <-> (s <= i)%nat /\ nth_error l (i - s) = Some a.
Proof.
  induction l as [|h t IH]; intros s i a; simpl.
  - split; [contradiction|]. intros [_ H]. destruct (i - s)%nat; discriminate.
  - rewrite IH. split.
    + intros [E|[L N]].
      * injection E as E1 E2. subst. rewrite Nat.sub_diag. split; [lia|reflexivity].
      * split; [lia|].
        replace (i - s)%nat with (S (i - S s)) by lia. exact N.
    + intros [L N]. destruct (Nat.eq_dec i s) as [E|E].
      * subst. rewrite Nat.sub_diag in N. simpl in N. left. congruence.
      * right. split; [lia|].
        replace (i - s)%nat with (S (i - S s)) in N by lia. exact N.
Qed.

Lemma In_indexed {A : Type} (l : list A) (i : nat) (a : A) :
  In (i, a) (indexed l) <-> nth_error l i = Some a.
Proof.
  unfold indexed. rewrite In_indexed_from. rewrite Nat.sub_0_r.
  split; [intros [_ H]; exact H | intros H; split; [lia | exact H]].
Qed.

Lemma keys_unique {V : Type} (m : JsMap.t V) (k : string) (v w : V) :
  JsMap.wf m -> In (k, v) m -> In (k, w) m -> v = w.
Proof.
  unfold JsMap.wf, JsMap.keys.
  induction m as [|[h u] m IH]; simpl; intros Hwf Hv Hw; [contradiction|].
  inversion Hwf as [|? ? Hnotin Hrest]; subst.
  destruct Hv as [Ev|Hv]; destruct Hw as [Ew|Hw].
  - congruence.
  - injection Ev as E1 E2. subst. exfalso. apply Hnotin.
    apply in_map_iff. exists (k, w). split; [reflexivity | exact Hw].
  - injection Ew as E1 E2. subst. exfalso. apply Hnotin.
    apply in_map_iff. exists (k, v). split; [reflexivity | exact Hv].
  - exact (IH Hrest Hv Hw).
Qed.

Lemma In_set_other {V : Type} (m : JsMap.t V) (k k' : string) (v w : V) :
  k' <> k -> In (k', w) m -> In (k', w) (JsMap.set m k v).
Proof.
  intros N. induction m as [|[h u] m IH]; simpl; intros H; [contradiction|].
  destruct (String.eqb h k) eqn:E.
  - apply String.eqb_eq in E. subst h.
    destruct H as [H|H]; [congruence | right; exact H].
  - destruct H as [H|H]; [left; exact H | right; exact (IH H)].
Qed.

Lemma keys_set_existing {V : Type} (m : JsMap.t V) (k : string) (v : V) :
  In k (JsMap.keys m) -> JsMap.keys (JsMap.set m k v) = JsMap.keys m.
Proof.
  unfold JsMap.keys.
  induction m as [|[h u] m IH]; simpl; intros H; [contradiction|].
  destruct (String.eqb h k) eqn:E; simpl; [reflexivity|].
  f_equal. apply IH. destruct H as [H|H]; [|exact H].
  apply String.eqb_neq in E. congruence.
Qed.

Lemma In_keys {V : Type} (m : JsMap.t V) (k : string) (v : V) :
  In (k, v) m -> In k (JsMap.keys m).
Proof.
  intros H. unfold JsMap.keys. apply in_map_iff. exists (k, v). split; auto.
Qed.

Lemma get_In {V : Type} (m : JsMap.t V) (k : string) (v : V) :
  JsMap.get m k = Some v -> In (k, v) m.
Proof.
  induction m as [|[h u] m IH]; simpl; intros H; [discriminate|].
  destruct (String.eqb h k) eqn:E.
  - apply String.eqb_eq in E. left. congruence.
  - right. exact (IH H).
Qed.

Lemma In_get {V : Type} (m : JsMap.t V) (k : string) (v : V) :
  JsMap.wf m -> In (k, v) m -> JsMap.get m k = Some v.
Proof.
  intros Hwf Hin.
  destruct (JsMap.get m k) as [w|] eqn:G.
  - f_equal. apply get_In in G. eapply keys_unique; eassumption.
  - exfalso. clear Hwf. induction m as [|[h u] m IH]; simpl in *; [contradiction|].
    destruct (String.eqb h k) eqn:E; [discriminate|].
    destruct Hin as [Hin|Hin]; [|exact (IH Hin G)].
    apply String.eqb_neq in E. congruence.
Qed.

Lemma In_set_inv {V : Type} (m : JsMap.t V) (k k' : string) (v w : V) :
  k' <> k -> In (k', w) (JsMap.set m k v) -> In (k', w) m.
Proof.
  intros N. induction m as [|[h u] m IH]; simpl; intros H.
  - destruct H as [H|[]]. congruence.
  - destruct (String.eqb h k) eqn:E.
    + apply String.eqb_eq in E. subst h.
      destruct H as [H|H]; [congruence | right; exact H].
    + destruct H as [H|H]; [left; exact H | right; exact (IH H)].
Qed.

Lemma Forall_set {V : Type} (P : string * V -> Prop) (m : JsMap.t V)
      (k : string) (v : V) :
  (forall k', P (k', v)) -> Forall P m -> Forall P (JsMap.set m k v).
Proof.
  intros Hv Hm. induction Hm as [|[h u] m Hh Hm IH]; simpl.
  - constructor; [apply Hv | constructor].
  - destruct (String.eqb h k); constructor; auto.
Qed.

Lemma updateMatched_missedFrames (boost : Q) (now : Z)
      (t : TrackedFace) (det : DetectionResult) :
  t_missedFrames (updateMatched boost now t det) = 0%Z.
Proof.
  unfold updateMatched.
  destruct (negb match t_isUserCorrected t with Some true => true | _ => false end
            && (r_confidence det >=? MIN_VOTE_CONFIDENCE));
    reflexivity.
Qed.

(** *** The matching loop *)

Section MatchingLoop.

Variable sqrt : Q -> Q.
Variable femaleBoostFactor : Q.
Variable config : CCTVDetectionConfig.
Variable currentTime : Z.
Variable results : list DetectionResult.

Lemma untouched_refl (m : Matching) : untouched m m.
Proof.
  split; [reflexivity|]. intros k H. repeat split; auto.
Qed.

Lemma untouched_trans (a b c : Matching) :
  untouched a b -> untouched b c -> untouched a c.
Proof.
  intros [K1 H1] [K2 H2]. split; [congruence|].
  intros k Hk. destruct (H2 k Hk) as [Hb [G2 I2]].
  destruct (H1 k Hb) as [Ha [G1 I1]].
  split; [exact Ha|]. split; [congruence|]. intros v Hv. auto.
Qed.

Lemma matchTrack_untouched (m : Matching) (id : string) (t : TrackedFace) :
  In id (JsMap.keys (m_tracked m)) ->
  untouched m (matchTrack sqrt femaleBoostFactor config currentTime results m (id, t)).
Proof.
  intros Hid. unfold matchTrack.
  destruct (findBestMatch sqrt config (usedDetections m) t results) as [[b d]|];
    [|apply untouched_refl].
  split; simpl.
  - apply keys_set_existing. exact Hid.
  - intros k Hk. apply orb_false_iff in Hk. destruct Hk as [Hne Hold].
    apply String.eqb_neq in Hne.
    split; [exact Hold|]. split.
    + apply get_after_set_other. exact Hne.
    + intros v Hv. apply In_set_other; assumption.
Qed.

Lemma matchLoop_untouched (l : list (string * TrackedFace)) :
  forall m,
    (forall e, In e l -> In (fst e) (JsMap.keys (m_tracked m))) ->
    untouched m (fold_left (matchTrack sqrt femaleBoostFactor config currentTime results)
                           l m).
Proof.
  induction l as [|[id t] l IH]; intros m Hkeys; cbn [fold_left].
  - apply untouched_refl.
  - assert (S : untouched m (matchTrack sqrt femaleBoostFactor config currentTime
                                        results m (id, t))).
    { apply matchTrack_untouched. apply (Hkeys (id, t)). left. reflexivity. }
    eapply untouched_trans; [exact S|].
    apply IH. intros e He. destruct S as [K _]. rewrite K.
    apply Hkeys. right. exact He.
Qed.

Lemma matchTracks_untouched (st : TrackerState) :
  untouched (mkMatching (tracked st) (captureSession (countFrame st)) [] [])
            (matchTracks sqrt femaleBoostFactor config currentTime results
                         (countFrame st)).
Proof.
  unfold matchTracks. simpl tracked.
  apply matchLoop_untouched. intros [k v] H. simpl. eapply In_keys. exact H.
Qed.

(** The entry a turn of the loop leaves under [k]. *)
Lemma matchTrack_get (m : Matching) (id : string) (t : TrackedFace) (k : string) :
  let m' := matchTrack sqrt femaleBoostFactor config currentTime results m (id, t) in
  JsMap.get (m_tracked m') k = JsMap.get (m_tracked m) k
  \/ (k = id
      /\ exists det,
          JsMap.get (m_tracked m') k
          = Some (updateMatched femaleBoostFactor currentTime t det)).
Proof.
  unfold matchTrack.
  destruct (findBestMatch sqrt config (usedDetections m) t results) as [[b d]|];
    [|left; reflexivity].
  simpl. destruct (string_dec k id) as [E|E].
  - right. split; [exact E|]. exists d. subst k. apply get_after_set.
  - left. apply get_after_set_other. exact E.
Qed.

Lemma matchLoop_get (l : list (string * TrackedFace)) :
  forall (m : Matching) (k : string),
    let m' := fold_left (matchTrack sqrt femaleBoostFactor config currentTime results)
                        l m in
    JsMap.get (m_tracked m') k = JsMap.get (m_tracked m) k
    \/ exists t det,
        In (k, t) l
        /\ JsMap.get (m_tracked m') k
           = Some (updateMatched femaleBoostFactor currentTime t det).
Proof.
  induction l as [|[id t] l IH]; intros m k; cbn [fold_left].
  - left. reflexivity.
  - destruct (IH (matchTrack sqrt femaleBoostFactor config currentTime results
                             m (id, t)) k) as [E|[t' [det [Hin E]]]].
    + destruct (matchTrack_get m id t k) as [E'|[Ek [det E']]].
      * left. congruence.
      * right. exists t, det. subst k. split; [left; reflexivity | congruence].
    + right. exists t', det. split; [right; exact Hin | exact E].
Qed.

Lemma matchLoop_within_budget (l : list (string * TrackedFace)) :
  (0 <= holdFrames config)%Z ->
  forall m : Matching,
    withinBudget config (m_tracked m) ->
    withinBudget config
      (m_tracked (fold_left (matchTrack sqrt femaleBoostFactor config currentTime
                                        results) l m)).
Proof.
  intros Hhold. unfold withinBudget.
  induction l as [|[id t] l IH]; intros m Hm; cbn [fold_left]; [exact Hm|].
  apply IH. unfold matchTrack.
  destruct (findBestMatch sqrt config (usedDetections m) t results) as [[b d]|];
    [|exact Hm].
  simpl. apply Forall_set; [|exact Hm].
  intros k'. simpl. rewrite updateMatched_missedFrames. exact Hhold.
Qed.

End MatchingLoop.

(** *** New tracks *)

Section NewTracks.

Variable femaleBoostFactor : Q.
Variable currentTime : Z.
Variable randomSuffix : nat -> string.
Variable used : list nat.

(** The array element the adding loop turns into the track under [key]. *)
Lemma addNewTracks_over (l : list (nat * DetectionResult))
      (i : nat) (det : DetectionResult) :
  let key := newId currentTime (randomSuffix i) in
  hasIndex used i = false ->
  (forall j, j <> i -> hasIndex used j = false ->
             randomSuffix j <> randomSuffix i) ->
  (forall d, In (i, d) l -> d = det) ->
  forall tracked : JsMap.t TrackedFace,
    JsMap.get tracked key = Some (newTrack femaleBoostFactor currentTime key det)
    \/ In (i, det) l ->
    JsMap.get
      (fold_left
         (fun tracked iv =>
            let '(i, detection) := iv in
            if hasIndex used i then tracked
            else
              let id := newId currentTime (randomSuffix i) in
              JsMap.set tracked id
                        (newTrack femaleBoostFactor currentTime id detection))
         l tracked) key
    = Some (newTrack femaleBoostFactor currentTime key det).
Proof.
  intros key Hunused Hfresh.
  induction l as [|[j d] l IH]; intros Hsame tracked H; simpl.
  - destruct H as [H|H]; [exact H | contradiction].
  - apply IH; [intros d' Hd'; apply Hsame; right; exact Hd'|].
    destruct (Nat.eq_dec j i) as [E|E].
    + subst j. rewrite Hunused. left.
      rewrite (Hsame d (or_introl eq_refl)). apply get_after_set.
    + destruct H as [H|[H|H]].
      * left. destruct (hasIndex used j) eqn:U; [exact H|].
        rewrite get_after_set_other; [exact H|].
        intros K. apply newId_injective in K. symmetry in K.
        exact (Hfresh j E U K).
      * congruence.
      * right. exact H.
Qed.

Lemma addNewTracks_spawns (results : list DetectionResult)
      (tracked : JsMap.t TrackedFace) (i : nat) (det : DetectionResult) :
  let key := newId currentTime (randomSuffix i) in
  nth_error results i = Some det ->
  hasIndex used i = false ->
  (forall j, j <> i -> hasIndex used j = false ->
             randomSuffix j <> randomSuffix i) ->
  JsMap.get (addNewTracks femaleBoostFactor currentTime randomSuffix results
                          used tracked) key
  = Some (newTrack femaleBoostFactor currentTime key det).
Proof.
  intros key Hnth Hunused Hfresh. unfold addNewTracks.
  apply addNewTracks_over; try assumption.
  - intros d Hd. apply In_indexed in Hd. congruence.
  - right. apply In_indexed. exact Hnth.
Qed.

(** With every detection matched the adding loop adds nothing. *)
Lemma addNewTracks_none (results : list DetectionResult)
      (tracked : JsMap.t TrackedFace) :
  someUnusedDetection results used = false ->
  addNewTracks femaleBoostFactor currentTime randomSuffix results used tracked
  = tracked.
Proof.
  unfold someUnusedDetection, addNewTracks. intros H.
  assert (A : forall iv, In iv (indexed results) -> hasIndex used (fst iv) = true).
  { intros iv Hiv. destruct (hasIndex used (fst iv)) eqn:E; [reflexivity|].
    assert (X : existsb (fun iv => negb (hasIndex used (fst iv))) (indexed results)
                = true).
    { apply existsb_exists. exists iv. split; [exact Hiv|]. rewrite E. reflexivity. }
    congruence. }
  clear H. revert tracked.
  induction (indexed results) as [|[j d] l IH]; intros tracked; simpl;
    [reflexivity|].
  pose proof (A (j, d) (or_introl eq_refl)) as Hj. simpl in Hj. rewrite Hj.
  apply IH. intros iv Hiv. apply A. right. exact Hiv.
Qed.

(** The adding loop writes under the new ids only. *)
Lemma addNewTracks_elsewhere (results : list DetectionResult) (id : string) :
  (forall j, newId currentTime (randomSuffix j) <> id) ->
  forall tracked : JsMap.t TrackedFace,
    JsMap.get (addNewTracks femaleBoostFactor currentTime randomSuffix results
                            used tracked) id
    = JsMap.get tracked id.
Proof.
  intros Hfresh. unfold addNewTracks.
  induction (indexed results) as [|[j d] l IH]; intros tracked; simpl;
    [reflexivity|].
  rewrite IH. destruct (hasIndex used j); [reflexivity|].
  apply get_after_set_other. intros E. exact (Hfresh j (eq_sym E)).
Qed.

Lemma addNewTracks_In_elsewhere (results : list DetectionResult)
      (id : string) (t : TrackedFace) :
  (forall j, newId currentTime (randomSuffix j) <> id) ->
  forall tracked : JsMap.t TrackedFace,
    In (id, t) (addNewTracks femaleBoostFactor currentTime randomSuffix results
                             used tracked) ->
    In (id, t) tracked.
Proof.
  intros Hfresh. unfold addNewTracks.
  induction (indexed results) as [|[j d] l IH]; intros tracked; simpl;
    [auto|].
  intros H. apply IH in H. destruct (hasIndex used j); [exact H|].
  eapply In_set_inv; [|exact H].
  intros E. exact (Hfresh j (eq_sym E)).
Qed.

Lemma addNewTracks_within_budget (config : CCTVDetectionConfig)
      (results : list DetectionResult) :
  (0 <= holdFrames config)%Z ->
  forall tracked : JsMap.t TrackedFace,
    withinBudget config tracked ->
    withinBudget config
      (addNewTracks femaleBoostFactor currentTime randomSuffix results used tracked).
Proof.
  intros Hhold. unfold withinBudget, addNewTracks.
  induction (indexed results) as [|[j d] l IH]; intros tracked Ht; simpl;
    [exact Ht|].
  apply IH. destruct (hasIndex used j); [exact Ht|].
  apply Forall_set; [|exact Ht].
  intros k'. unfold newTrack.
  destruct (r_confidence d >=? MIN_VOTE_CONFIDENCE); simpl; exact Hhold.
Qed.

End NewTracks.

(** *** Missed frames *)

Section MissedFrames.

Variable config : CCTVDetectionConfig.
Variable results : list DetectionResult.
Variable matched : list string.
Variable used : list nat.

Lemma someUnused_intro (i : nat) (det : DetectionResult) :
  nth_error results i = Some det -> hasIndex used i = false ->
  someUnusedDetection results used = true.
Proof.
  intros Hnth Hunused. unfold someUnusedDetection.
  apply existsb_exists. exists (i, det). split.
  - apply In_indexed. exact Hnth.
  - simpl. rewrite Hunused. reflexivity.
Qed.

(** With a detection left unmatched the loop changes no track. *)
Lemma updateMissedFrames_idle (tracked : JsMap.t TrackedFace) :
  someUnusedDetection results used = true ->
  updateMissedFrames config results matched used tracked = tracked.
Proof.
  intros H. unfold updateMissedFrames.
  induction tracked as [|[id t] tracked IH]; simpl; [reflexivity|].
  rewrite IH. rewrite H. simpl. rewrite andb_false_r. reflexivity.
Qed.

Lemma ageTrack_spec (t : TrackedFace) :
  match ageTrack config t with
  | Some aged => (t_missedFrames t + 1 <= holdFrames config)%Z
                 /\ t_missedFrames aged = (t_missedFrames t + 1)%Z
                 /\ t_id aged = t_id t
  | None => (holdFrames config < t_missedFrames t + 1)%Z
  end.
Proof.
  unfold ageTrack.
  destruct (t_missedFrames t + 1 >? holdFrames config)%Z eqn:E.
  - apply Z.gtb_lt in E. exact E.
  - simpl. split; [|split; reflexivity].
    rewrite Z.gtb_ltb in E. apply Z.ltb_ge in E. exact E.
Qed.

(** With every detection matched, an unmatched track is aged by one frame,
    and is gone when that exceeds the hold budget. *)
Lemma updateMissedFrames_ages (tracked : JsMap.t TrackedFace)
      (id : string) (t : TrackedFace) :
  someUnusedDetection results used = false ->
  In (id, t) tracked -> hasId matched id = false ->
  ((t_missedFrames t + 1 <= holdFrames config)%Z ->
   exists aged,
     In (id, aged) (updateMissedFrames config results matched used tracked)
     /\ t_missedFrames aged = (t_missedFrames t + 1)%Z)
  /\ ((holdFrames config < t_missedFrames t + 1)%Z -> JsMap.wf tracked ->
      ~ In id (JsMap.keys (updateMissedFrames config results matched used tracked))).
Proof.
  intros Hnone Hin Hunmatched. unfold updateMissedFrames. split.
  - intros Hle. pose proof (ageTrack_spec t) as S.
    destruct (ageTrack config t) as [aged|] eqn:A; [|lia].
    exists aged. split; [|tauto].
    apply in_flat_map. exists (id, t). split; [exact Hin|].
    rewrite Hunmatched, Hnone. simpl. rewrite A. left. reflexivity.
  - intros Hgt Hwf Hkey. unfold JsMap.keys in Hkey.
    apply in_map_iff in Hkey. destruct Hkey as [[id' t'] [Eid Hin']].
    simpl in Eid. subst id'.
    apply in_flat_map in Hin'. destruct Hin' as [[id0 t0] [Hin0 Hout]].
    assert (Eid0 : id0 = id).
    { destruct (negb (hasId matched id0)
                && negb (someUnusedDetection results used)).
      - destruct (ageTrack config t0); simpl in Hout.
        + destruct Hout as [E|[]]. congruence.
        + contradiction.
      - destruct Hout as [E|[]]. congruence. }
    subst id0.
    assert (t0 = t) by (eapply keys_unique; eassumption). subst t0.
    rewrite Hunmatched, Hnone in Hout. simpl in Hout.
    pose proof (ageTrack_spec t) as S.
    destruct (ageTrack config t); [lia | contradiction].
Qed.

(** An entry the loop leaves is an entry it met, as it was or aged. *)
Lemma updateMissedFrames_In (tracked : JsMap.t TrackedFace)
      (id : string) (t' : TrackedFace) :
  In (id, t') (updateMissedFrames config results matched used tracked) ->
  exists t, In (id, t) tracked /\ (t' = t \/ ageTrack config t = Some t').
Proof.
  unfold updateMissedFrames. intros H.
  apply in_flat_map in H. destruct H as [[id0 t0] [Hin Hout]].
  destruct (negb (hasId matched id0) && negb (someUnusedDetection results used)).
  - destruct (ageTrack config t0) as [aged|] eqn:A; simpl in Hout.
    + destruct Hout as [E|[]]. injection E as E1 E2. subst id0 aged.
      exists t0. split; [exact Hin | right; exact A].
    + contradiction.
  - destruct Hout as [E|[]]. injection E as E1 E2. subst id0 t0.
    exists t'. split; [exact Hin | left; reflexivity].
Qed.

Lemma ageTrack_keeps_votes (t aged : TrackedFace) :
  ageTrack config t = Some aged ->
  t_stableGender aged = t_stableGender t /\ t_genderVotes aged = t_genderVotes t.
Proof.
  unfold ageTrack.
  destruct (t_missedFrames t + 1 >? holdFrames config)%Z; [discriminate|].
  intros H. injection H as H. subst aged. split; reflexivity.
Qed.

Lemma updateMissedFrames_within_budget (tracked : JsMap.t TrackedFace) :
  withinBudget config tracked ->
  withinBudget config (updateMissedFrames config results matched used tracked).
Proof.
  unfold withinBudget. intros H.
  apply Forall_forall. intros [id t'] Hin.
  apply updateMissedFrames_In in Hin. destruct Hin as [t [Hin [E|A]]].
  - subst t'. exact (proj1 (Forall_forall _ _) H (id, t) Hin).
  - simpl. pose proof (ageTrack_spec t) as S. rewrite A in S.
    destruct S as [Hle [Hm _]]. rewrite Hm. exact Hle.
Qed.

End MissedFrames.

(** *** The tick *)

Section Tick.

Variable sqrt : Q -> Q.
Variable femaleBoostFactor : Q.
Variable minDemographicConfidence : Q.
Variable config : CCTVDetectionConfig.
Variable currentTime : Z.
Variable randomSuffix : nat -> string.
Variable results : list DetectionResult.
Variable st : TrackerState.

Local Abbreviation matching :=
  (matchTracks sqrt femaleBoostFactor config currentTime results (countFrame st)).
Local Abbreviation tableAfter :=
  (tracked (nextState (detectionTick sqrt femaleBoostFactor minDemographicConfidence
                                     config currentTime randomSuffix results st))).

Lemma someUnused_false :
  (forall i det, nth_error results i = Some det ->
                 hasIndex (usedDetections matching) i = true) ->
  someUnusedDetection results (usedDetections matching) = false.
Proof.
  intros H. unfold someUnusedDetection.
  destruct (existsb _ (indexed results)) eqn:E; [|reflexivity].
  apply existsb_exists in E. destruct E as [[i det] [Hin Hneg]].
  apply In_indexed in Hin. simpl in Hneg. rewrite (H i det Hin) in Hneg.
  discriminate.
Qed.

(** The table a tick leaves when a detection stays unmatched. *)
Lemma tick_with_new_face (i : nat) (det : DetectionResult) :
  nth_error results i = Some det ->
  hasIndex (usedDetections matching) i = false ->
  tableAfter
  = addNewTracks femaleBoostFactor currentTime randomSuffix results
                 (usedDetections matching) (m_tracked matching).
Proof.
  intros Hnth Hunused. unfold detectionTick. simpl.
  apply updateMissedFrames_idle.
  exact (someUnused_intro results _ i det Hnth Hunused).
Qed.

(** What a tick can do to a track that stays in the table under an id no
    new track takes: leave its votes and stable gender, or write the matched
    update of it. *)
Lemma tick_track_fate (id : string) (t t' : TrackedFace) :
  JsMap.wf (tracked st) ->
  JsMap.get (tracked st) id = Some t ->
  (forall j, newId currentTime (randomSuffix j) <> id) ->
  JsMap.get tableAfter id = Some t' ->
  (t_stableGender t' = t_stableGender t /\ t_genderVotes t' = t_genderVotes t)
  \/ exists det,
      t_stableGender t'
      = t_stableGender (updateMatched femaleBoostFactor currentTime t det)
      /\ t_genderVotes t'
         = t_genderVotes (updateMatched femaleBoostFactor currentTime t det).
Proof.
  intros Hwf Hget Hfresh Hafter.
  pose proof (matchTracks_untouched sqrt femaleBoostFactor config currentTime
                                    results st) as [Hkeys _].
  simpl in Hkeys.
  unfold detectionTick in Hafter. simpl in Hafter.
  apply get_In in Hafter.
  apply updateMissedFrames_In in Hafter. destruct Hafter as [t0 [Hin Hrel]].
  apply addNewTracks_In_elsewhere in Hin; [|exact Hfresh].
  assert (Hwf' : JsMap.wf (m_tracked matching))
    by (unfold JsMap.wf; rewrite Hkeys; exact Hwf).
  apply (In_get _ _ _ Hwf') in Hin.
  assert (Same : t_stableGender t' = t_stableGender t0
                 /\ t_genderVotes t' = t_genderVotes t0).
  { destruct Hrel as [E|A]; [subst; split; reflexivity|].
    exact (ageTrack_keeps_votes config t0 t' A). }
  destruct Same as [S1 S2]. rewrite S1, S2.
  unfold matchTracks in Hin.
  destruct (matchLoop_get sqrt femaleBoostFactor config currentTime results
                          (tracked (countFrame st))
                          (mkMatching (tracked (countFrame st))
                                      (captureSession (countFrame st)) [] [])
                          id) as [E|[t1 [det [Hin1 E]]]];
    rewrite E in Hin; simpl in Hin.
  - left. assert (t0 = t) by congruence. subst. split; reflexivity.
  - right. exists det. injection Hin as Hin. subst t0.
    assert (t1 = t).
    { simpl in Hin1.
      eapply keys_unique; [exact Hwf | exact Hin1 |]. apply get_In. exact Hget. }
    subst t1. split; reflexivity.
Qed.

(** A tick hands on a table in which no track has more missed frames than
    the hold budget. *)
Lemma tick_within_budget :
  (0 <= holdFrames config)%Z ->
  withinBudget config (tracked st) -> withinBudget config tableAfter.
Proof.
  intros Hhold Hst. unfold detectionTick. simpl.
  apply updateMissedFrames_within_budget.
  apply addNewTracks_within_budget; [exact Hhold|].
  unfold matchTracks.
  apply matchLoop_within_budget; [exact Hhold | exact Hst].
Qed.

(** C8, as the code has it.  A detection that matches no track, and whose
    random id suffix no other unmatched detection of the tick has drawn as
    well, gets a track of its own under its new id: provisional, with one hit and no missed frame, at the box of
    the detection and with its gender and age group as the stable ones.  Its
    votes are the detection's own only for a confidence of at least 0.65:
    then the weight [confidence * min(faceScore, 1)] stands in the bucket of
    the age group and in the bucket of the gender, the female one multiplied
    by [1 + femaleBoostFactor * max(0, 1 - 2 * (confidence - 0.5))], and all
    other buckets are 0.  Below 0.65 every initial vote is 0. *)
Theorem unmatched_detection_spawns_track (i : nat) (det : DetectionResult) :
  nth_error results i = Some det ->
  hasIndex (usedDetections matching) i = false ->
  (forall j, j <> i -> hasIndex (usedDetections matching) j = false ->
             randomSuffix j <> randomSuffix i) ->
  exists t,
    JsMap.get tableAfter (newId currentTime (randomSuffix i)) = Some t
    /\ t_consecutiveHits t = 1%Z /\ t_missedFrames t = 0%Z
    /\ t_boundingBox t = r_boundingBox det
    /\ t_stableGender t = r_gender det /\ t_stableAgeGroup t = r_ageGroup det
    /\ (0.65 <= r_confidence det ->
        let w := r_confidence det * Qmin (r_faceScore det) 1 in
        t_genderVotes t
        = match r_gender det with
          | male => mkGV w 0
          | female =>
              mkGV 0 (w * (1 + femaleBoostFactor
                               * Qmax 0 (1 - (r_confidence det - 0.5) * 2)))
          end
        /\ t_ageVotes t
           = match r_ageGroup det with
             | kid => mkAV w 0 0
             | young => mkAV 0 w 0
             | adult => mkAV 0 0 w
             end)
    /\ (r_confidence det < 0.65 ->
        t_genderVotes t = mkGV 0 0 /\ t_ageVotes t = mkAV 0 0 0).
Proof.
  intros Hnth Hunused Hfresh.
  exists (newTrack femaleBoostFactor currentTime
                   (newId currentTime (randomSuffix i)) det).
  split.
  - rewrite (tick_with_new_face i det Hnth Hunused).
    apply addNewTracks_spawns; assumption.
  - unfold newTrack, MIN_VOTE_CONFIDENCE.
    destruct (r_confidence det >=? 0.65) eqn:C; simpl;
      (split; [reflexivity|]); (split; [reflexivity|]); (split; [reflexivity|]);
      (split; [reflexivity|]); (split; [reflexivity|]).
    + apply geb_spec in C. split.
      * intros _. split.
        -- destruct (r_gender det); reflexivity.
        -- destruct (r_ageGroup det); reflexivity.
      * intros H. exfalso. exact (Qlt_not_le _ _ H C).
    + split.
      * intros L. apply geb_spec in L. congruence.
      * intros _. split; reflexivity.
Qed.

(** C3, as the code has it.  The missed-frame loop runs only in a tick in
    which every detection was matched.  In a tick with a detection left
    unmatched, a track matched by no detection keeps its entry as it was, its
    missed frames included (the new ids being different from its id).  In a
    tick with no detection left unmatched, a track matched by no detection
    has its missed frames incremented by exactly 1, and once they exceed
    [holdFrames] it is no longer in the table.  Either way no tick hands on
    a track with more missed frames than [holdFrames]. *)
Theorem missed_frames_need_all_matched :
  ((exists i det, nth_error results i = Some det
                  /\ hasIndex (usedDetections matching) i = false) ->
   forall id t,
     JsMap.get (tracked st) id = Some t ->
     hasId (matchedIds matching) id = false ->
     (forall j, newId currentTime (randomSuffix j) <> id) ->
     JsMap.get tableAfter id = Some t)
  /\ ((forall i det, nth_error results i = Some det ->
                     hasIndex (usedDetections matching) i = true) ->
      forall id t,
        JsMap.wf (tracked st) ->
        In (id, t) (tracked st) ->
        hasId (matchedIds matching) id = false ->
        ((t_missedFrames t + 1 <= holdFrames config)%Z ->
         exists aged,
           In (id, aged) tableAfter
           /\ t_missedFrames aged = (t_missedFrames t + 1)%Z)
        /\ ((holdFrames config < t_missedFrames t + 1)%Z ->
            ~ In id (JsMap.keys tableAfter)))
  /\ ((0 <= holdFrames config)%Z ->
      withinBudget config (tracked st) -> withinBudget config tableAfter).
Proof.
  pose proof (matchTracks_untouched sqrt femaleBoostFactor config currentTime
                                    results st) as [Hkeys Hkeep].
  simpl in Hkeys, Hkeep.
  split; [|split; [|exact tick_within_budget]].
  - intros [i [det [Hnth Hunused]]] id t Hget Hunmatched Hfresh.
    rewrite (tick_with_new_face i det Hnth Hunused).
    rewrite addNewTracks_elsewhere; [|exact Hfresh].
    destruct (Hkeep id Hunmatched) as [_ [G _]]. rewrite G. exact Hget.
  - intros Hall id t Hwf Hin Hunmatched.
    pose proof (someUnused_false Hall) as Hnone.
    assert (E : tableAfter
                = updateMissedFrames config results (matchedIds matching)
                                     (usedDetections matching) (m_tracked matching)).
    { unfold detectionTick. simpl. rewrite addNewTracks_none; [reflexivity|].
      exact Hnone. }
    rewrite E.
    destruct (Hkeep id Hunmatched) as [_ [_ I]].
    destruct (updateMissedFrames_ages config results (matchedIds matching)
                (usedDetections matching) (m_tracked matching) id t
                Hnone (I t Hin) Hunmatched) as [Hage Hgone].
    split; [exact Hage|].
    intros Hgt. apply Hgone; [exact Hgt|].
    unfold JsMap.wf. rewrite Hkeys. exact Hwf.
Qed.

End Tick.

(** *** The tick on the example data *)

Lemma suffixes_not_face_1 (j : nat) :
  newId 1800 (Examples.suffixes j) <> "face_1"%string.
Proof.
  destruct j as [|[|j]]; vm_compute; discriminate.
Qed.

Lemma suffixes_fresh_0 (j : nat) :
  j <> 0%nat -> Examples.suffixes j <> Examples.suffixes 0.
Proof.
  destruct j as [|[|j]]; intros H; [contradiction | |]; vm_compute; discriminate.
Qed.

Lemma no_detection_unmatched (used : list nat) (i : nat) (det : DetectionResult) :
  nth_error (@nil DetectionResult) i = Some det -> hasIndex used i = true.
Proof.
  destruct i; discriminate.
Qed.

(** A confident stranger out of reach of the only track is given a track
    seeded with weight 0.81; a stranger of confidence 0.5 is given a track
    with no vote at all. *)
Lemma unmatched_detection_spawns_track_witness :
  (exists t,
      JsMap.get (tracked (nextState (Examples.webcamTick [Examples.stranger]
                                                         (Examples.oneTrack 0))))
                "face_1800_k3x9q"
      = Some t
      /\ t_genderVotes t = mkGV (0.9 * Qmin 0.9 1) 0
      /\ t_ageVotes t = mkAV 0 (0.9 * Qmin 0.9 1) 0)
  /\ (exists t,
         JsMap.get (tracked (nextState (Examples.webcamTick [Examples.unconfident]
                                                            (Examples.oneTrack 0))))
                   "face_1800_k3x9q"
         = Some t
         /\ t_genderVotes t = mkGV 0 0 /\ t_ageVotes t = mkAV 0 0 0).
Proof.
  split.
  - destruct (unmatched_detection_spawns_track
                Examples.exampleSqrt 0.15 0.75 DEFAULT_WEBCAM_CONFIG 1800
                Examples.suffixes [Examples.stranger] (Examples.oneTrack 0)
                0%nat Examples.stranger)
      as [t [Hget [_ [_ [_ [_ [_ [Hseed _]]]]]]]].
    + reflexivity.
    + vm_compute. reflexivity.
    + intros j Hj _. exact (suffixes_fresh_0 j Hj).
    + exists t. split; [exact Hget|].
      apply Hseed. vm_compute. discriminate.
  - destruct (unmatched_detection_spawns_track
                Examples.exampleSqrt 0.15 0.75 DEFAULT_WEBCAM_CONFIG 1800
                Examples.suffixes [Examples.unconfident] (Examples.oneTrack 0)
                0%nat Examples.unconfident)
      as [t [Hget [_ [_ [_ [_ [_ [_ Hzero]]]]]]]].
    + reflexivity.
    + vm_compute. reflexivity.
    + intros j Hj _. exact (suffixes_fresh_0 j Hj).
    + exists t. split; [exact Hget|].
      apply Hzero. vm_compute. reflexivity.
Defined.

(** The claim of C8 as it is worded fails on a detection of gender confidence
    0.5 and face score 0.9: its track holds no vote, not the weight 0.45. *)
Lemma unconfident_detection_not_seeded :
  exists t,
    JsMap.get (tracked (nextState (Examples.webcamTick [Examples.unconfident]
                                                       (Examples.oneTrack 0))))
              "face_1800_k3x9q"
    = Some t
    /\ ~ seededWithOwnValues t Examples.unconfident.
Proof.
  eexists. split; [vm_compute; reflexivity|].
  intros [H _]. vm_compute in H. discriminate H.
Qed.

(** The track of the example is matched by no detection.  Beside a stranger
    it is left as it was, no missed frame counted; with no detection at all it
    is aged to one missed frame, and at three missed frames (the hold budget
    of the webcam configuration) the next empty tick removes it, while a tick
    with a stranger keeps it, still within the budget. *)
Lemma missed_frames_need_all_matched_witness :
  JsMap.get (tracked (nextState (Examples.webcamTick [Examples.stranger]
                                                     (Examples.oneTrack 0))))
            "face_1"
  = JsMap.get (tracked (Examples.oneTrack 0)) "face_1"
  /\ (exists aged,
         In ("face_1"%string, aged)
            (tracked (nextState (Examples.webcamTick [] (Examples.oneTrack 0))))
         /\ t_missedFrames aged = 1%Z)
  /\ ~ In "face_1"%string
         (JsMap.keys (tracked (nextState (Examples.webcamTick []
                                                              (Examples.oneTrack 3)))))
  /\ withinBudget DEFAULT_WEBCAM_CONFIG
                  (tracked (nextState (Examples.webcamTick [Examples.stranger]
                                                           (Examples.oneTrack 3)))).
Proof.
  split; [|split; [|split]].
  - destruct (missed_frames_need_all_matched
                Examples.exampleSqrt 0.15 0.75 DEFAULT_WEBCAM_CONFIG 1800
                Examples.suffixes [Examples.stranger] (Examples.oneTrack 0))
      as [Hskip _].
    apply Hskip.
    + exists 0%nat, Examples.stranger. split; [reflexivity|].
      vm_compute. reflexivity.
    + vm_compute. reflexivity.
    + vm_compute. reflexivity.
    + exact suffixes_not_face_1.
  - destruct (missed_frames_need_all_matched
                Examples.exampleSqrt 0.15 0.75 DEFAULT_WEBCAM_CONFIG 1800
                Examples.suffixes [] (Examples.oneTrack 0))
      as [_ [Hage _]].
    destruct (Hage (no_detection_unmatched _) "face_1"%string (Examples.staleTrack 0))
      as [Hone _].
    + repeat constructor. simpl. intros [].
    + left. reflexivity.
    + vm_compute. reflexivity.
    + apply Hone. vm_compute. discriminate.
  - destruct (missed_frames_need_all_matched
                Examples.exampleSqrt 0.15 0.75 DEFAULT_WEBCAM_CONFIG 1800
                Examples.suffixes [] (Examples.oneTrack 3))
      as [_ [Hage _]].
    destruct (Hage (no_detection_unmatched _) "face_1"%string (Examples.staleTrack 3))
      as [_ Hgone].
    + repeat constructor. simpl. intros [].
    + left. reflexivity.
    + vm_compute. reflexivity.
    + apply Hgone. vm_compute. reflexivity.
  - destruct (missed_frames_need_all_matched
                Examples.exampleSqrt 0.15 0.75 DEFAULT_WEBCAM_CONFIG 1800
                Examples.suffixes [Examples.stranger] (Examples.oneTrack 3))
      as [_ [_ Hbudget]].
    apply Hbudget.
    + vm_compute. discriminate.
    + repeat constructor. vm_compute. discriminate.
Defined.

End TrackerProps.

(** ** Hysteresis of the stable gender *)

Module HysteresisProps.
Import Ad Detection SmartAds StabilisationProps TrackerProps.

Lemma tick_changes_need_evidence
      (sqrt : Q -> Q) (boost minConf : Q) (config : CCTVDetectionConfig)
      (now : Z) (suffix : nat -> string) (results : list DetectionResult)
      (st : TrackerState) (id : string) (t t' : TrackedFace) :
  JsMap.wf (tracked st) ->
  JsMap.get (tracked st) id = Some t ->
  (forall j, newId now (suffix j) <> id) ->
  JsMap.get (tracked (nextState (detectionTick sqrt boost minConf config now
                                               suffix results st))) id
  = Some t' ->
  t_stableGender t' <> t_stableGender t ->
  0.9 <= genderTotal (t_genderVotes t') /\ 0.25 <= genderMargin (t_genderVotes t').
Proof.
  intros Hwf Hget Hfresh Hafter Hchange.
  destruct (tick_track_fate sqrt boost minConf config now suffix results st
                            id t t' Hwf Hget Hfresh Hafter)
    as [[S _]|[det [S V]]].
  - contradiction.
  - rewrite V. apply updateMatched_changes. rewrite <- S. exact Hchange.
Qed.

(** C4.  [getStableGender] returns the previous value whenever the vote
    total is below 0.9 or the margin |female - male| is below 0.25, so it can
    return something else only when the total is at least 0.9 and the margin
    at least 0.25.  The same holds for the stable gender of a track: under
    the update of a matched tick; along any sequence of such updates (as long
    as every vote state reached is below the total or below the margin, the
    stable gender stays what it was, however long the sequence); and across
    any tick of the detection loop, for a track that is in the table before
    and after it under an id no new track takes. *)
Theorem stableGender_hysteresis :
  (forall (votes : GenderVotes) (previous : Gender),
      genderTotal votes < 0.9 \/ genderMargin votes < 0.25 ->
      getStableGender votes previous noOpts = previous)
  /\ (forall (votes : GenderVotes) (previous : Gender),
         getStableGender votes previous noOpts <> previous ->
         0.9 <= genderTotal votes /\ 0.25 <= genderMargin votes)
  /\ (forall (boost : Q) (now : Z) (t : TrackedFace) (det : DetectionResult),
         let t' := updateMatched boost now t det in
         t_stableGender t' <> t_stableGender t ->
         0.9 <= genderTotal (t_genderVotes t')
         /\ 0.25 <= genderMargin (t_genderVotes t'))
  /\ (forall (boost : Q) (ds : list (Z * DetectionResult)) (t : TrackedFace),
         Forall (fun t' => genderTotal (t_genderVotes t') < 0.9
                           \/ genderMargin (t_genderVotes t') < 0.25)
                (matchedTimeline boost t ds) ->
         Forall (fun t' => t_stableGender t' = t_stableGender t)
                (matchedTimeline boost t ds))
  /\ (forall (sqrt : Q -> Q) (boost minConf : Q) (config : CCTVDetectionConfig)
             (now : Z) (suffix : nat -> string) (results : list DetectionResult)
             (st : TrackerState) (id : string) (t t' : TrackedFace),
         JsMap.wf (tracked st) ->
         JsMap.get (tracked st) id = Some t ->
         (forall j, newId now (suffix j) <> id) ->
         JsMap.get (tracked (nextState (detectionTick sqrt boost minConf config now
                                                      suffix results st))) id
         = Some t' ->
         t_stableGender t' <> t_stableGender t ->
         0.9 <= genderTotal (t_genderVotes t')
         /\ 0.25 <= genderMargin (t_genderVotes t')).
Proof.
  split; [exact getStableGender_keeps|].
  split; [exact getStableGender_changes|].
  split; [exact updateMatched_changes|].
  split; [intros boost ds t; apply timeline_keeps|].
  exact tick_changes_need_evidence.
Qed.

(** A male track with votes male 1.0 / female 0.9 is matched twice by a
    female detection of weight 0.07: the female votes overtake, the margin
    stays under 0.25 and the track stays male.  The same track with votes
    male 1.0 / female 1.2 and one female detection of weight 0.81 turns
    female, and its evidence is then above both thresholds; so it is for the
    track of the example table when a tick matches it with that detection. *)
Lemma stableGender_hysteresis_witness :
  Forall (fun t' => t_stableGender t' = male)
         (matchedTimeline 0.15 (Examples.trackWithVotes (mkGV 1.0 0.9))
            [(1800%Z, Examples.detectionAt female young 0.7 0.1 0 0);
             (2600%Z, Examples.detectionAt female young 0.7 0.1 0 0)])
  /\ (0.9 <= genderTotal
               (t_genderVotes
                  (updateMatched 0.15 1800 (Examples.trackWithVotes (mkGV 1.0 1.2))
                                 (Examples.detectionAt female young 0.9 0.9 0 0)))
      /\ 0.25 <= genderMargin
                   (t_genderVotes
                      (updateMatched 0.15 1800
                                     (Examples.trackWithVotes (mkGV 1.0 1.2))
                                     (Examples.detectionAt female young 0.9 0.9 0 0))))
  /\ (exists t',
         JsMap.get (tracked (nextState
                      (Examples.webcamTick
                         [Examples.detectionAt female young 0.9 0.9 10 0]
                         (Examples.oneTrack 2))))
                   "face_1"
         = Some t'
         /\ t_stableGender t' = female
         /\ 0.9 <= genderTotal (t_genderVotes t')
         /\ 0.25 <= genderMargin (t_genderVotes t')).
Proof.
  destruct stableGender_hysteresis as [_ [_ [Hstep [Hseq Htick]]]].
  split; [|split].
  - apply (Hseq 0.15
             [(1800%Z, Examples.detectionAt female young 0.7 0.1 0 0);
              (2600%Z, Examples.detectionAt female young 0.7 0.1 0 0)]
             (Examples.trackWithVotes (mkGV 1.0 0.9))).
    repeat constructor; right; vm_compute; reflexivity.
  - apply (Hstep 0.15 1800%Z (Examples.trackWithVotes (mkGV 1.0 1.2))
                 (Examples.detectionAt female young 0.9 0.9 0 0)).
    vm_compute. discriminate.
  - eexists. split; [vm_compute; reflexivity|].
    split; [reflexivity|].
    apply (Htick Examples.exampleSqrt 0.15 0.75 DEFAULT_WEBCAM_CONFIG 1800%Z
                 Examples.suffixes
                 [Examples.detectionAt female young 0.9 0.9 10 0]
                 (Examples.oneTrack 2) "face_1"%string (Examples.staleTrack 2)).
    + repeat constructor. simpl. intros [].
    + reflexivity.
    + exact suffixes_not_face_1.
    + vm_compute. reflexivity.
    + discriminate.
Defined.

End HysteresisProps.

(* ================================================================== *)
(** * Part III: further properties of the code                         *)
(* ================================================================== *)

(** ** Intersection over union *)

Module GeometryProps.
Import Ad SmartAds.

Lemma gtb_comp : Proper (Qeq ==> Qeq ==> eq) Num.gtb.
Proof.
  intros a a' Ha b b' Hb. unfold Num.gtb. rewrite Ha, Hb. reflexivity.
Qed.

Lemma ratio_comp (i i' u u' : Q) :
  i == i' -> u == u' ->
  (if u >? 0 then i / u else 0) == (if u' >? 0 then i' / u' else 0).
Proof.
  intros Hi Hu. rewrite (gtb_comp u u' Hu 0 0 (Qeq_refl 0)).
  destruct (u' >? 0); [rewrite Hi, Hu|]; reflexivity.
Qed.

(** X1.  [calculateIoU] does not depend on the order of its two boxes. *)
Theorem calculateIoU_symmetric (box1 box2 : option FaceBoundingBox) :
  calculateIoU box1 box2 == calculateIoU box2 box1.
Proof.
  destruct box1 as [a|], box2 as [b|]; simpl; try reflexivity.
  unfold Num.max, Num.min.
  apply ratio_comp.
  - rewrite (Q.max_comm (x a) (x b)), (Q.max_comm (y a) (y b)).
    rewrite (Q.min_comm (x a + width a) (x b + width b)).
    rewrite (Q.min_comm (y a + height a) (y b + height b)).
    reflexivity.
  - rewrite (Q.max_comm (x a) (x b)), (Q.max_comm (y a) (y b)).
    rewrite (Q.min_comm (x a + width a) (x b + width b)).
    rewrite (Q.min_comm (y a + height a) (y b + height b)).
    ring.
Qed.

(** Two intervals of which one ends before the other begins do not overlap. *)
Lemma no_overlap_along_axis (a wa b wb : Q) :
  a + wa <= b \/ b + wb <= a ->
  Qmax 0 (Qmin (a + wa) (b + wb) - Qmax a b) == 0.
Proof.
  intros H.
  pose proof (Q.le_min_l (a + wa) (b + wb)) as M1.
  pose proof (Q.le_min_r (a + wa) (b + wb)) as M2.
  pose proof (Q.le_max_l a b) as L1.
  pose proof (Q.le_max_r a b) as L2.
  apply Q.max_l. destruct H as [H|H]; lra.
Qed.

(** X2.  The overlap ratio is never negative, and it is 0 for two boxes that
    lie apart: one ending, along the horizontal or along the vertical axis,
    where the other begins or before. *)
Theorem calculateIoU_apart (box1 box2 : option FaceBoundingBox) :
  0 <= calculateIoU box1 box2
  /\ forall a b : FaceBoundingBox,
       box1 = Some a -> box2 = Some b ->
       x a + width a <= x b \/ x b + width b <= x a
       \/ y a + height a <= y b \/ y b + height b <= y a ->
       calculateIoU box1 box2 == 0.
Proof.
  split.
  - destruct box1 as [a|], box2 as [b|]; simpl; try apply Qle_refl.
    unfold Num.max, Num.min.
    set (ox := Qmax 0 (Qmin (x a + width a) (x b + width b) - Qmax (x a) (x b))).
    set (oy := Qmax 0 (Qmin (y a + height a) (y b + height b) - Qmax (y a) (y b))).
    assert (I : 0 <= ox * oy).
    { apply Qmult_le_0_compat; apply Q.le_max_l. }
    destruct (width a * height a + width b * height b - ox * oy >? 0) eqn:U;
      [|apply Qle_refl].
    apply gtb_spec in U. apply Qle_shift_div_l; [exact U|]. lra.
  - intros a b -> -> H. simpl. unfold Num.max, Num.min.
    set (ox := Qmax 0 (Qmin (x a + width a) (x b + width b) - Qmax (x a) (x b))).
    set (oy := Qmax 0 (Qmin (y a + height a) (y b + height b) - Qmax (y a) (y b))).
    assert (I : ox * oy == 0).
    { destruct H as [H|[H|[H|H]]].
      - assert (E : ox == 0) by (apply no_overlap_along_axis; left; exact H).
        rewrite E. ring.
      - assert (E : ox == 0) by (apply no_overlap_along_axis; right; exact H).
        rewrite E. ring.
      - assert (E : oy == 0) by (apply no_overlap_along_axis; left; exact H).
        rewrite E. ring.
      - assert (E : oy == 0) by (apply no_overlap_along_axis; right; exact H).
        rewrite E. ring. }
    destruct (width a * height a + width b * height b - ox * oy >? 0);
      [|reflexivity].
    rewrite I. unfold Qdiv. ring.
Qed.

(** A track at the origin and a face two hundred pixels to its right. *)
Lemma calculateIoU_apart_witness :
  calculateIoU (Some (mkBox 0 0 100 100)) (Some (mkBox 200 0 100 100)) == 0.
Proof.
  apply (proj2 (calculateIoU_apart (Some (mkBox 0 0 100 100))
                                   (Some (mkBox 200 0 100 100)))
               (mkBox 0 0 100 100) (mkBox 200 0 100 100) eq_refl eq_refl).
  left. discriminate.
Defined.

End GeometryProps.

(** ** Greedy suppression

    [mergeDetections] and [dedupeResultsByIoU] run the same loop: a
    candidate that is fit to be kept is appended unless a kept element
    suppresses it. *)

Section Suppression.

Context {A : Type} (key : A -> Q) (fit : A -> bool) (hides : A -> A -> bool).
Variable step : list A -> A -> list A.
Hypothesis step_eq : forall acc c,
  step acc c = if fit c && negb (existsb (fun k => hides k c) acc)
               then acc ++ [c] else acc.

Local Abbreviation apart m :=
  (forall p c s, m = p ++ c :: s ->
                 fit c = true /\ forall k, In k p -> hides k c = false).

Lemma existsb_none (f : A -> bool) (l : list A) :
  existsb f l = false -> forall k, In k l -> f k = false.
Proof.
  induction l as [|a l IH]; simpl; intros H k Hk; [contradiction|].
  apply orb_false_iff in H. destruct H as [Ha Hl].
  destruct Hk as [<-|Hk]; [exact Ha | apply IH; assumption].
Qed.

Lemma suppress_keeps (l : list A) :
  forall acc x, In x acc -> In x (fold_left step l acc).
Proof.
  induction l as [|c l IH]; intros acc x Hx; cbn [fold_left]; [exact Hx|].
  apply IH. rewrite step_eq.
  destruct (fit c && negb (existsb (fun k => hides k c) acc)); [|exact Hx].
  apply in_or_app. left. exact Hx.
Qed.

Lemma suppress_In (l : list A) :
  forall acc x, In x (fold_left step l acc) ->
                In x acc \/ (In x l /\ fit x = true).
Proof.
  induction l as [|c l IH]; intros acc x Hx; cbn [fold_left] in Hx.
  - left. exact Hx.
  - apply IH in Hx. destruct Hx as [Hx|[Hx Hf]].
    + rewrite step_eq in Hx.
      destruct (fit c) eqn:F; simpl in Hx.
      * destruct (existsb (fun k => hides k c) acc); simpl in Hx.
        -- left. exact Hx.
        -- apply in_app_or in Hx. destruct Hx as [Hx|[<-|[]]].
           ++ left. exact Hx.
           ++ right. split; [left; reflexivity | exact F].
      * left. exact Hx.
    + right. split; [right; exact Hx | exact Hf].
Qed.

Lemma suppress_length (l : list A) :
  forall acc,
    (List.length (fold_left step l acc) <= List.length acc + List.length l)%nat.
Proof.
  induction l as [|c l IH]; intros acc; cbn [fold_left].
  - simpl. lia.
  - eapply Nat.le_trans; [apply IH|]. rewrite step_eq.
    destruct (fit c && negb (existsb (fun k => hides k c) acc)).
    + rewrite length_app. simpl. lia.
    + simpl. lia.
Qed.

Lemma apart_nil : apart (@nil A).
Proof.
  intros p c s H. destruct p; discriminate.
Qed.

Lemma apart_snoc (acc : list A) (c : A) :
  apart acc -> fit c = true -> existsb (fun k => hides k c) acc = false ->
  apart (acc ++ [c]).
Proof.
  intros Hacc Hf Hn p c' s E.
  destruct s as [|z s0].
  - apply app_inj_tail in E. destruct E as [E1 E2]. subst.
    split; [exact Hf|]. apply (existsb_none (fun k => hides k c')). exact Hn.
  - destruct (@exists_last _ (z :: s0)) as [s1 [z1 Es1]]; [discriminate|].
    rewrite Es1 in E.
    change (p ++ c' :: s1 ++ [z1]) with (p ++ (c' :: s1) ++ [z1]) in E.
    rewrite app_assoc in E.
    apply app_inj_tail in E. destruct E as [E1 _].
    apply (Hacc p c' s1). exact E1.
Qed.

Lemma suppress_apart (l : list A) :
  forall acc, apart acc -> apart (fold_left step l acc).
Proof.
  induction l as [|c l IH]; intros acc Hacc; cbn [fold_left]; [exact Hacc|].
  apply IH. rewrite step_eq.
  destruct (fit c) eqn:F; simpl; [|exact Hacc].
  destruct (existsb (fun k => hides k c) acc) eqn:E; simpl; [exact Hacc|].
  apply apart_snoc; assumption.
Qed.

Lemma existsb_all_false (f : A -> bool) (l : list A) :
  (forall k, In k l -> f k = false) -> existsb f l = false.
Proof.
  induction l as [|a l IH]; simpl; intros H; [reflexivity|].
  rewrite (H a (or_introl eq_refl)). simpl.
  apply IH. intros k Hk. apply H. right. exact Hk.
Qed.

Lemma suppress_fixes (s : list A) :
  forall p, apart (p ++ s) -> fold_left step s p = p ++ s.
Proof.
  induction s as [|c s IH]; intros p H; cbn [fold_left].
  - symmetry. apply app_nil_r.
  - destruct (H p c s eq_refl) as [Hf Hn].
    rewrite step_eq, Hf.
    rewrite (existsb_all_false (fun k => hides k c) p Hn). simpl.
    rewrite IH; rewrite <- app_assoc; [reflexivity | exact H].
Qed.

Lemma suppress_sorted (l : list A) :
  forall acc,
    StronglySorted (JsArray.descending key) (acc ++ l) ->
    StronglySorted (JsArray.descending key) (fold_left step l acc).
Proof.
  induction l as [|c l IH]; intros acc H; cbn [fold_left].
  - rewrite app_nil_r in H. exact H.
  - apply IH. rewrite step_eq.
    destruct (fit c && negb (existsb (fun k => hides k c) acc)).
    + rewrite <- app_assoc. exact H.
    + apply (sorted_remove_middle key acc c l). exact H.
Qed.

(** A fit candidate is kept, or hidden by a kept element that stood in
    front of it. *)
Lemma suppress_covers (l : list A) :
  forall acc,
    (forall a e, In a acc -> In e l -> key e <= key a) ->
    StronglySorted (JsArray.descending key) l ->
    forall d, In d l -> fit d = true ->
      In d (fold_left step l acc)
      \/ exists k, In k (fold_left step l acc)
                   /\ hides k d = true /\ key d <= key k.
Proof.
  induction l as [|c l IH]; intros acc Hacc Hs d Hd Hf; [contradiction|].
  cbn [fold_left].
  inversion Hs as [|? ? Hs' Hall]; subst.
  assert (Hnext : forall a e, In a (step acc c) -> In e l -> key e <= key a).
  { intros a e Ha He. rewrite step_eq in Ha.
    assert (Hc : key e <= key c).
    { rewrite Forall_forall in Hall. apply Hall. exact He. }
    destruct (fit c && negb (existsb (fun k => hides k c) acc)).
    - apply in_app_or in Ha. destruct Ha as [Ha|[<-|[]]]; [|exact Hc].
      apply Hacc; [exact Ha | right; exact He].
    - apply Hacc; [exact Ha | right; exact He]. }
  destruct Hd as [<-|Hd]; [|apply IH; assumption].
  rewrite step_eq, Hf. simpl.
  destruct (existsb (fun k => hides k c) acc) eqn:E; simpl.
  - right. apply existsb_exists in E. destruct E as [k [Hk Hh]].
    exists k. split; [apply suppress_keeps; exact Hk|].
    split; [exact Hh|]. apply Hacc; [exact Hk | left; reflexivity].
  - left. apply suppress_keeps. apply in_or_app. right. left. reflexivity.
Qed.

End Suppression.

(** The sort rearranges, it neither drops nor adds. *)
Section SortMembers.

Context {A : Type} (key : A -> Q).

Lemma insertDesc_In (e : A) (l : list A) (a : A) :
  In a (JsArray.insertDesc key e l) <-> a = e \/ In a l.
Proof.
  induction l as [|h t IH]; simpl.
  - split; intros [H|H]; auto.
  - destruct (key h >? key e); simpl.
    + rewrite IH. split; intros H; intuition auto.
    + split; intros H; intuition auto.
Qed.

Lemma sortDesc_In (l : list A) (a : A) :
  In a (JsArray.sortDesc key l) <-> In a l.
Proof.
  induction l as [|e t IH]; simpl; [reflexivity|].
  rewrite insertDesc_In, IH. split; intros [H|H]; auto.
Qed.

Lemma insertDesc_length (e : A) (l : list A) :
  List.length (JsArray.insertDesc key e l) = S (List.length l).
Proof.
  induction l as [|h t IH]; simpl; [reflexivity|].
  destruct (key h >? key e); simpl; [rewrite IH|]; reflexivity.
Qed.

Lemma sortDesc_length (l : list A) :
  List.length (JsArray.sortDesc key l) = List.length l.
Proof.
  induction l as [|e t IH]; simpl; [reflexivity|].
  rewrite insertDesc_length, IH. reflexivity.
Qed.

End SortMembers.

(** ** What a merge keeps and what it drops *)

Module MergeCoverage.
Import Ad FaceDetection.

Section Thresholds.

Variables iouThreshold containmentThreshold : Q.

Local Abbreviation boxed :=
  (fun c : RawDetection =>
     match getBox c with Some _ => true | None => false end).
Local Abbreviation shadows :=
  (fun k c : RawDetection =>
     match getBox k, getBox c with
     | Some a, Some b => overlaps iouThreshold containmentThreshold a b
     | _, _ => false
     end).

Lemma mergeStep_eq (acc : list RawDetection) (c : RawDetection) :
  mergeStep iouThreshold containmentThreshold acc c
  = if boxed c && negb (existsb (fun k => shadows k c) acc)
    then acc ++ [c] else acc.
Proof.
  unfold mergeStep, isDuplicate.
  destruct (getBox c) as [b|]; simpl; [|reflexivity].
  destruct (existsb _ acc); reflexivity.
Qed.

Lemma mergeDetections_members (detections : list RawDetection) (w h : Q)
      (d : RawDetection) :
  In d (mergeDetections detections w h iouThreshold containmentThreshold) ->
  In d detections /\ getBox d <> None.
Proof.
  unfold mergeDetections, mergeLoop.
  destruct (List.length detections =? 0)%nat; [intros []|].
  intros Hd.
  apply (suppress_In boxed shadows _ mergeStep_eq) in Hd.
  destruct Hd as [[]|[Hd Hb]].
  split; [apply (sortDesc_In getScore); exact Hd|].
  destruct (getBox d); discriminate.
Qed.

(** X3.  A merge returns only candidates that were handed to it and that
    carry a box, in descending order of score, and never more of them than
    it was given. *)
Theorem mergeDetections_selects (detections : list RawDetection) (w h : Q) :
  let m := mergeDetections detections w h iouThreshold containmentThreshold in
  (forall d, In d m -> In d detections /\ getBox d <> None)
  /\ StronglySorted (JsArray.descending getScore) m
  /\ (List.length m <= List.length detections)%nat.
Proof.
  unfold mergeDetections, mergeLoop.
  destruct (List.length detections =? 0)%nat.
  - split; [intros d []|]. split; [constructor | simpl; lia].
  - split; [|split].
    + intros d Hd.
      apply (suppress_In boxed shadows _ mergeStep_eq) in Hd.
      destruct Hd as [[]|[Hd Hb]].
      split; [apply (sortDesc_In getScore); exact Hd|].
      destruct (getBox d); [discriminate | discriminate].
    + apply (suppress_sorted getScore boxed shadows _ mergeStep_eq).
      simpl. apply sortDesc_sorted.
    + pose proof (suppress_length boxed shadows _ mergeStep_eq
                    (JsArray.sortDesc getScore detections) []) as L.
      rewrite sortDesc_length in L. exact L.
Qed.

(** X4.  No candidate a merge keeps is a duplicate of one it kept before:
    the box of a kept candidate passes neither the overlap nor the
    containment threshold against the box of any candidate in front of it. *)
Theorem mergeDetections_no_overlap
        (detections : list RawDetection) (w h : Q)
        (p : list RawDetection) (c : RawDetection) (s : list RawDetection)
        (k : RawDetection) (a b : FaceBoundingBox) :
  mergeDetections detections w h iouThreshold containmentThreshold = p ++ c :: s ->
  In k p -> getBox k = Some a -> getBox c = Some b ->
  overlaps iouThreshold containmentThreshold a b = false.
Proof.
  unfold mergeDetections, mergeLoop. intros E Hk Ha Hb.
  destruct (List.length detections =? 0)%nat.
  - destruct p; discriminate.
  - pose proof (suppress_apart boxed shadows _ mergeStep_eq
                  (JsArray.sortDesc getScore detections) []
                  (apart_nil boxed shadows) p c s E) as [_ Hn].
    specialize (Hn k Hk). rewrite Ha, Hb in Hn. exact Hn.
Qed.

(** X5.  A candidate with a box is never lost without a reason: either the
    merge returns it, or the merge returns a candidate of at least its score
    whose box it duplicates. *)
Theorem mergeDetections_covers
        (detections : list RawDetection) (w h : Q)
        (d : RawDetection) (b : FaceBoundingBox) :
  In d detections -> getBox d = Some b ->
  let m := mergeDetections detections w h iouThreshold containmentThreshold in
  In d m
  \/ exists k a, In k m /\ getBox k = Some a
                 /\ overlaps iouThreshold containmentThreshold a b = true
                 /\ getScore d <= getScore k.
Proof.
  intros Hd Hb. unfold mergeDetections, mergeLoop.
  destruct (List.length detections =? 0)%nat eqn:L.
  - apply Nat.eqb_eq in L. destruct detections; [contradiction | discriminate].
  - destruct (suppress_covers getScore boxed shadows _ mergeStep_eq
                (JsArray.sortDesc getScore detections) []
                (fun a e (Ha : In a []) _ => match Ha with end)
                (sortDesc_sorted getScore detections) d) as [H|[k [Hk [Hh Hs]]]].
    + apply (sortDesc_In getScore). exact Hd.
    + rewrite Hb. reflexivity.
    + left. exact H.
    + right. rewrite Hb in Hh.
      destruct (getBox k) as [a|] eqn:Ka; [|discriminate].
      exists k, a. repeat split; assumption.
Qed.

End Thresholds.

Lemma mergeDetections_no_overlap_witness :
  overlaps defaultIou defaultContainment
           (mkBox 0 0 100 100) (mkBox 500 500 50 50) = false.
Proof.
  apply (mergeDetections_no_overlap defaultIou defaultContainment
           [Examples.rawFace 0.7 500 500 50; Examples.rawFace 0.8 5 5 100;
            Examples.rawFace 0.9 0 0 100] 640 480
           [Examples.rawFace 0.9 0 0 100] (Examples.rawFace 0.7 500 500 50) []
           (Examples.rawFace 0.9 0 0 100)).
  - vm_compute. reflexivity.
  - left. reflexivity.
  - reflexivity.
  - reflexivity.
Defined.

Lemma mergeDetections_covers_witness :
  let d := Examples.rawFace 0.8 5 5 100 in
  let m := mergeDetections
             [Examples.rawFace 0.7 500 500 50; d; Examples.rawFace 0.9 0 0 100]
             640 480 defaultIou defaultContainment in
  In d m
  \/ exists k a, In k m /\ getBox k = Some a
                 /\ overlaps defaultIou defaultContainment a (mkBox 5 5 100 100) = true
                 /\ getScore d <= getScore k.
Proof.
  apply (mergeDetections_covers defaultIou defaultContainment
           [Examples.rawFace 0.7 500 500 50; Examples.rawFace 0.8 5 5 100;
            Examples.rawFace 0.9 0 0 100] 640 480
           (Examples.rawFace 0.8 5 5 100) (mkBox 5 5 100 100)).
  - right. left. reflexivity.
  - reflexivity.
Defined.

End MergeCoverage.

(** ** Removing doubled results *)

Module DedupeProps.
Import Ad FaceDetection FaceResults.

Local Abbreviation always := (fun _ : DetectionResult => true).
Local Abbreviation covers :=
  (fun k r : DetectionResult =>
     overlaps resultIou resultContainment (r_boundingBox k) (r_boundingBox r)).

Lemma dedupeStep_eq (acc : list DetectionResult) (r : DetectionResult) :
  dedupeStep acc r
  = if always r && negb (existsb (fun k => covers k r) acc)
    then acc ++ [r] else acc.
Proof.
  unfold dedupeStep, isDup. simpl.
  destruct (existsb _ acc); reflexivity.
Qed.

Lemma short_is_apart (results : list DetectionResult) :
  (List.length results <= 1)%nat ->
  forall p c s, results = p ++ c :: s ->
                always c = true /\ forall k, In k p -> covers k c = false.
Proof.
  intros L p c s E. split; [reflexivity|].
  destruct p as [|a p]; [intros k []|].
  rewrite E in L. simpl in L. rewrite length_app in L. simpl in L. lia.
Qed.

(** What the function returns: nothing in it is covered by an element in
    front of it, and past one element it is in descending order of score. *)
Lemma dedupe_shape (results : list DetectionResult) :
  let m := dedupeResultsByIoU results in
  (forall p c s, m = p ++ c :: s ->
                 always c = true /\ forall k, In k p -> covers k c = false)
  /\ ((1 < List.length m)%nat ->
      StronglySorted (JsArray.descending r_faceScore) m).
Proof.
  unfold dedupeResultsByIoU.
  destruct (List.length results <=? 1)%nat eqn:L.
  - apply Nat.leb_le in L. split; [apply short_is_apart; exact L | lia].
  - split.
    + apply (suppress_apart always covers _ dedupeStep_eq).
      apply apart_nil.
    + intros _.
      apply (suppress_sorted r_faceScore always covers _ dedupeStep_eq).
      simpl. apply sortDesc_sorted.
Qed.

(** X6.  Removing doubled results is idempotent: on its own output the
    function returns that output, in the same order. *)
Theorem dedupeResultsByIoU_idempotent (results : list DetectionResult) :
  dedupeResultsByIoU (dedupeResultsByIoU results) = dedupeResultsByIoU results.
Proof.
  destruct (dedupe_shape results) as [Hapart Hsorted].
  set (m := dedupeResultsByIoU results) in *.
  unfold dedupeResultsByIoU at 1.
  destruct (List.length m <=? 1)%nat eqn:L; [reflexivity|].
  apply Nat.leb_gt in L.
  rewrite (sortDesc_fixes_sorted r_faceScore m (Hsorted L)).
  apply (suppress_fixes always covers _ dedupeStep_eq m []). exact Hapart.
Qed.

(** X7.  No result that is kept is covered by a result kept in front of it:
    their boxes overlap by less than 0.6 and the later box lies in the
    earlier one for less than 0.9 of its area. *)
Theorem dedupeResultsByIoU_no_overlap
        (results p : list DetectionResult) (c : DetectionResult)
        (s : list DetectionResult) (k : DetectionResult) :
  dedupeResultsByIoU results = p ++ c :: s -> In k p ->
  overlaps resultIou resultContainment (r_boundingBox k) (r_boundingBox c) = false.
Proof.
  intros E Hk.
  destruct (dedupe_shape results) as [Hapart _].
  exact (proj2 (Hapart p c s E) k Hk).
Qed.

(** X8.  A result is dropped only for a better one: every result handed in
    is returned, or a returned result of at least its face score covers it;
    and nothing is returned that was not handed in. *)
Theorem dedupeResultsByIoU_covers (results : list DetectionResult) :
  let m := dedupeResultsByIoU results in
  (forall r, In r results ->
     In r m
     \/ exists k, In k m
                  /\ overlaps resultIou resultContainment
                              (r_boundingBox k) (r_boundingBox r) = true
                  /\ r_faceScore r <= r_faceScore k)
  /\ (forall r, In r m -> In r results).
Proof.
  unfold dedupeResultsByIoU.
  destruct (List.length results <=? 1)%nat.
  - split; [intros r Hr; left; exact Hr | intros r Hr; exact Hr].
  - split.
    + intros r Hr.
      apply (suppress_covers r_faceScore always covers _ dedupeStep_eq
               (JsArray.sortDesc r_faceScore results) []
               (fun a e (Ha : In a []) _ => match Ha with end)
               (sortDesc_sorted r_faceScore results) r).
      * apply (sortDesc_In r_faceScore). exact Hr.
      * reflexivity.
    + intros r Hr.
      apply (suppress_In always covers _ dedupeStep_eq) in Hr.
      destruct Hr as [[]|[Hr _]].
      exact (proj1 (sortDesc_In r_faceScore results r) Hr).
Qed.

Lemma dedupeResultsByIoU_no_overlap_witness :
  overlaps resultIou resultContainment
           (Examples.boxAt 0 0) (Examples.boxAt 300 0) = false.
Proof.
  apply (dedupeResultsByIoU_no_overlap
           [Examples.detectionAt male young 0.8 0.7 300 0;
            Examples.detectionAt male young 0.8 0.8 5 5;
            Examples.detectionAt male young 0.8 0.9 0 0]
           [Examples.detectionAt male young 0.8 0.9 0 0]
           (Examples.detectionAt male young 0.8 0.7 300 0) []
           (Examples.detectionAt male young 0.8 0.9 0 0)).
  - vm_compute. reflexivity.
  - left. reflexivity.
Defined.

End DedupeProps.

(** ** Stabilising the age group *)

Module AgeStabilisationProps.
Import Ad Detection.

Ltac order_cases :=
  repeat match goal with
         | H : (_ <? _) = true |- _ => apply ltb_spec in H
         | H : (_ <? _) = false |- _ => apply ltb_false in H
         | H : (_ >? _) = true |- _ => apply gtb_spec in H
         | H : (_ >? _) = false |- _ => apply gtb_false in H
         end.

(** X9.  The age group of a track moves only on evidence: when
    [getStableAgeGroup] answers something else than the previous value, the
    votes sum to at least the minimum total and the answer leads each of the
    two other buckets by at least the minimum margin. *)
Theorem getStableAgeGroup_changes
        (votes : AgeVotes) (previous : AgeGroup) (opts : StableOpts) :
  getStableAgeGroup votes previous opts <> previous ->
  minTotal opts ?? 0.9 <= v_kid votes + v_young votes + v_adult votes
  /\ match getStableAgeGroup votes previous opts with
     | kid => minMargin opts ?? 0.25 <= v_kid votes - v_young votes
              /\ minMargin opts ?? 0.25 <= v_kid votes - v_adult votes
     | young => minMargin opts ?? 0.25 <= v_young votes - v_kid votes
                /\ minMargin opts ?? 0.25 <= v_young votes - v_adult votes
     | adult => minMargin opts ?? 0.25 <= v_adult votes - v_kid votes
                /\ minMargin opts ?? 0.25 <= v_adult votes - v_young votes
     end.
Proof.
  unfold getStableAgeGroup. cbn [JsArray.sortDesc JsArray.insertDesc snd fst].
  set (T := minTotal opts ?? 0.9). set (M := minMargin opts ?? 0.25).
  destruct (v_kid votes + v_young votes + v_adult votes <? T) eqn:HT;
    [congruence|].
  repeat match goal with
         | |- context [?a >? ?b] =>
             let C := fresh "C" in
             destruct (a >? b) eqn:C; cbn [JsArray.insertDesc snd fst]
         end;
    match goal with
    | |- context [?a <? M] =>
        let C := fresh "C" in destruct (a <? M) eqn:C
    end;
    try congruence; intros _; order_cases; repeat split; lra.
Qed.

Lemma getStableAgeGroup_changes_witness :
  0.9 <= 0 + 0.2 + 1.5 /\ (0.25 <= 1.5 - 0 /\ 0.25 <= 1.5 - 0.2).
Proof.
  apply (getStableAgeGroup_changes (mkAV 0 0.2 1.5) young noOpts).
  vm_compute. discriminate.
Defined.

End AgeStabilisationProps.

(** ** Secondary gender signals *)

Module GenderSignalsProps.
Import Ad GenderHeuristics GenderSignals.

(** The grading of an aspect ratio rises with the ratio. *)
Lemma grading_monotone (r s : Q) :
  r <= s ->
  (if r <? 1.0 then 0.2 else if r <? 1.15 then 0.35
   else if r <? 1.25 then 0.5 else if r <? 1.35 then 0.65 else 0.8)
  <= (if s <? 1.0 then 0.2 else if s <? 1.15 then 0.35
      else if s <? 1.25 then 0.5 else if s <? 1.35 then 0.65 else 0.8).
Proof.
  intros H.
  repeat match goal with
         | |- context [?a <? ?b] =>
             let C := fresh "C" in destruct (a <? b) eqn:C
         end;
    AgeStabilisationProps.order_cases; lra.
Qed.

Lemma analyzeFaceShape_bounds (b : FaceBoundingBox) :
  0.2 <= analyzeFaceShape b <= 0.8.
Proof.
  unfold analyzeFaceShape.
  repeat match goal with
         | |- context [if ?c then _ else _] => destruct c
         end; split; discriminate.
Qed.

(** Among boxes of positive width a box that is at least as tall for its
    width scores at least as high. *)
Lemma analyzeFaceShape_monotone (a b : FaceBoundingBox) :
  0 < width a -> 0 < width b ->
  height a * width b <= height b * width a ->
  0.2 <= analyzeFaceShape a
  /\ analyzeFaceShape a <= analyzeFaceShape b
  /\ analyzeFaceShape b <= 0.8.
Proof.
  intros Wa Wb H.
  split; [apply analyzeFaceShape_bounds|].
  split; [|apply analyzeFaceShape_bounds].
  unfold analyzeFaceShape.
  destruct (Qeq_bool (width a) 0) eqn:Ea.
  { apply Qeq_bool_eq in Ea. rewrite Ea in Wa. destruct (Qlt_irrefl 0 Wa). }
  destruct (Qeq_bool (width b) 0) eqn:Eb.
  { apply Qeq_bool_eq in Eb. rewrite Eb in Wb. destruct (Qlt_irrefl 0 Wb). }
  apply grading_monotone.
  apply Qle_shift_div_l; [exact Wb|].
  unfold Qdiv. rewrite <- Qmult_assoc, (Qmult_comm (/ width a)), Qmult_assoc.
  apply Qle_shift_div_r; [exact Wa | exact H].
Qed.

Section Analysis.

Variable Canvas : Type.
Variable analyzeHairRegion : Canvas -> FaceBoundingBox -> bool -> Q.

Local Abbreviation analyze := (analyzeGenderHeuristics Canvas analyzeHairRegion).

Lemma analyzeGenderHeuristics_suggests
        (c : Canvas) (boundingBox : FaceBoundingBox) (rawGender : Gender)
        (rawConfidence boost : Q) (debugMode : bool) :
  let r := analyze (Some c) boundingBox rawGender rawConfidence boost debugMode in
  (suggestedGender r <> uncertain -> 0.1 < h_confidence r)
  /\ (suggestedGender r = suggest female -> 0.55 < overallFemaleScore r)
  /\ (suggestedGender r = suggest male -> overallFemaleScore r < 0.45).
Proof.
  unfold analyzeGenderHeuristics.
  cbv beta zeta. cbn [suggestedGender h_confidence overallFemaleScore].
  match goal with
  | |- context [Num.abs (?o - 0.5)] => set (overall := o)
  end.
  unfold Num.abs.
  destruct (overall >? 0.55) eqn:F.
  - apply gtb_spec in F.
    rewrite Qabs_pos by lra.
    split; [intros _; lra|]. split; [intros _; exact F | discriminate].
  - apply gtb_false in F.
    destruct (overall <? 0.45) eqn:M.
    + apply ltb_spec in M. rewrite Qabs_neg by lra.
      split; [intros _; lra|]. split; [discriminate | intros _; exact M].
    + split; [intros H; exfalso; apply H; reflexivity|].
      split; discriminate.
Qed.

Lemma analyzeGenderHeuristics_range
        (c : Canvas) (boundingBox : FaceBoundingBox) (rawGender : Gender)
        (rawConfidence boost : Q) (debugMode : bool) :
  0 <= rawConfidence <= 1 ->
  0 <= analyzeHairRegion c boundingBox debugMode <= 1 ->
  let r := analyze (Some c) boundingBox rawGender rawConfidence boost debugMode in
  0 <= overallFemaleScore r <= 1 /\ 0 <= h_confidence r <= 1.
Proof.
  intros [C0 C1] [H0 H1].
  unfold analyzeGenderHeuristics.
  cbv beta zeta. cbn [overallFemaleScore h_confidence].
  pose proof (analyzeFaceShape_bounds boundingBox) as [J0 J1].
  set (hair := analyzeHairRegion c boundingBox debugMode) in *.
  set (jaw := analyzeFaceShape boundingBox) in *.
  set (p := match rawGender with female => rawConfidence | male => 1 - rawConfidence end).
  assert (P : 0 <= p <= 1) by (subst p; destruct rawGender; lra).
  destruct P as [P0 P1].
  set (w := if rawConfidence >? 0.65 then 0.75 else 0.55).
  assert (E : 0 <= p * w + (hair * 0.6 + jaw * 0.4) * (1 - w)
              /\ p * w + (hair * 0.6 + jaw * 0.4) * (1 - w) <= 1).
  { subst w. destruct (rawConfidence >? 0.65); lra. }
  destruct E as [E0 E1].
  set (o0 := p * w + (hair * 0.6 + jaw * 0.4) * (1 - w)) in *.
  assert (O : 0 <= (if (rawConfidence <? 0.65) && (boost >? 0)
                    then Num.min 0.95 (o0 + boost * 0.5) else o0)
              /\ (if (rawConfidence <? 0.65) && (boost >? 0)
                  then Num.min 0.95 (o0 + boost * 0.5) else o0) <= 1).
  { destruct (rawConfidence <? 0.65); simpl; [|split; assumption].
    destruct (boost >? 0) eqn:B; [|split; assumption].
    apply gtb_spec in B. unfold Num.min. split.
    - apply Q.min_glb; lra.
    - apply Qle_trans with 0.95; [apply Q.le_min_l | discriminate]. }
  destruct O as [O0 O1].
  set (o := if (rawConfidence <? 0.65) && (boost >? 0)
            then Num.min 0.95 (o0 + boost * 0.5) else o0) in *.
  split; [split; assumption|].
  unfold Num.abs.
  destruct (Qlt_le_dec o 0.5) as [L|L].
  - rewrite Qabs_neg by lra. lra.
  - rewrite Qabs_pos by lra. lra.
Qed.

(** X11.  With a canvas at hand the analysis suggests a gender only with a
    confidence above 0.1, female only on a combined female score above 0.55
    and male only on one below 0.45.  For a raw confidence and a hair score
    between 0 and 1 the combined female score and the confidence it returns
    lie between 0 and 1, whatever the boost factor. *)
Theorem analyzeGenderHeuristics_verdict
        (c : Canvas) (boundingBox : FaceBoundingBox) (rawGender : Gender)
        (rawConfidence boost : Q) (debugMode : bool) :
  let r := analyze (Some c) boundingBox rawGender rawConfidence boost debugMode in
  (suggestedGender r <> uncertain -> 0.1 < h_confidence r)
  /\ (suggestedGender r = suggest female -> 0.55 < overallFemaleScore r)
  /\ (suggestedGender r = suggest male -> overallFemaleScore r < 0.45)
  /\ (0 <= rawConfidence <= 1 ->
      0 <= analyzeHairRegion c boundingBox debugMode <= 1 ->
      0 <= overallFemaleScore r <= 1 /\ 0 <= h_confidence r <= 1).
Proof.
  destruct (analyzeGenderHeuristics_suggests c boundingBox rawGender
              rawConfidence boost debugMode) as [S [F M]].
  split; [exact S|]. split; [exact F|]. split; [exact M|].
  apply analyzeGenderHeuristics_range.
Qed.

End Analysis.

(** An uncertain male reading under long hair and a tall face: the analysis
    suggests female. *)
Lemma analyzeGenderHeuristics_verdict_witness :
  let r := analyzeGenderHeuristics unit (fun _ _ _ => 0.9) (Some tt)
             (mkBox 0 0 100 130) male 0.6 0.15 false in
  suggestedGender r = suggest female
  /\ 0.1 < h_confidence r /\ 0.55 < overallFemaleScore r
  /\ 0 <= overallFemaleScore r <= 1 /\ 0 <= h_confidence r <= 1.
Proof.
  destruct (analyzeGenderHeuristics_verdict unit (fun _ _ _ => 0.9) tt
              (mkBox 0 0 100 130) male 0.6 0.15 false) as [S [F [_ R]]].
  assert (E : suggestedGender
                (analyzeGenderHeuristics unit (fun _ _ _ => 0.9) (Some tt)
                   (mkBox 0 0 100 130) male 0.6 0.15 false)
              = suggest female) by (vm_compute; reflexivity).
  split; [exact E|].
  split; [apply S; rewrite E; discriminate|].
  split; [apply F; exact E|].
  apply R; split; discriminate.
Defined.

(** X12.  With a boost factor and a hair score that are not negative, the
    correction never turns a female reading above 0.5 into male, and inside
    the band [0.45, 0.70] the confidence it returns lies between 0.5 and
    0.95. *)
Theorem applyFemaleBoost_bounds (g : Gender) (confidence boostFactor hairScore : Q) :
  0 <= boostFactor -> 0 <= hairScore ->
  let r := applyFemaleBoost g confidence boostFactor hairScore in
  (g = female -> 0.5 < confidence -> b_gender r = female)
  /\ (0.45 <= confidence <= 0.70 -> 0.5 <= b_confidence r <= 0.95).
Proof.
  intros B H r. subst r.
  assert (T : 0 <= boostFactor * (0.3 + 0.7 * hairScore)).
  { apply Qmult_le_0_compat; lra. }
  split.
  - intros -> C.
    destruct (Qlt_le_dec confidence 0.45) as [L|L]; [lra|].
    destruct (Qlt_le_dec 0.70 confidence) as [U|U].
    + rewrite GenderHeuristicsProps.boost_out_of_band by (right; exact U).
      reflexivity.
    + destruct (GenderHeuristicsProps.boost_in_band
                  female confidence boostFactor hairScore L U) as [F _].
      apply F. unfold adjustedProbability, femaleProbability.
      apply Q.min_glb_lt; lra.
  - intros [L U].
    destruct (GenderHeuristicsProps.boost_in_band
                g confidence boostFactor hairScore L U) as [F M].
    assert (P0 : 0.30 <= adjustedProbability g confidence boostFactor hairScore).
    { unfold adjustedProbability, femaleProbability.
      apply Q.min_glb; [discriminate|]. destruct g; lra. }
    assert (P1 : adjustedProbability g confidence boostFactor hairScore <= 0.95).
    { apply Q.le_min_l. }
    destruct (Qlt_le_dec 0.5 (adjustedProbability g confidence boostFactor hairScore))
      as [D|D].
    + destruct (F D) as [_ E]. rewrite E. lra.
    + destruct (M D) as [_ E]. rewrite E. lra.
Qed.

Lemma applyFemaleBoost_bounds_witness :
  let r := applyFemaleBoost female 0.6 0.15 0.5 in
  (female = female -> 0.5 < 0.6 -> b_gender r = female)
  /\ (0.45 <= 0.6 <= 0.70 -> 0.5 <= b_confidence r <= 0.95).
Proof.
  apply (applyFemaleBoost_bounds female 0.6 0.15 0.5); discriminate.
Defined.

End GenderSignalsProps.

(** ** Matching detections to tracks *)

Module MatchingProps.
Import Ad Detection SmartAds.

Section BestMatch.

Variable sqrt : Q -> Q.
Variable config : CCTVDetectionConfig.
Variable used : list nat.
Variable trackedFace : TrackedFace.

Local Abbreviation predictedBox :=
  (mkBox (x (t_boundingBox trackedFace) + vx (t_velocity trackedFace))
         (y (t_boundingBox trackedFace) + vy (t_velocity trackedFace))
         (width (t_boundingBox trackedFace))
         (height (t_boundingBox trackedFace))).

(** What the loop has checked of the detection it holds as best match. *)
Local Abbreviation admissible i detection :=
  (hasIndex used i = false
   /\ exists d,
       minDistance
         (calculateCenterDistance sqrt (Some (r_boundingBox detection))
                                  (Some (t_boundingBox trackedFace)))
         (calculateCenterDistance sqrt (Some (r_boundingBox detection))
                                  (Some predictedBox))
       = Finite d
       /\ d <= maxVelocityPx config
       /\ (0.2 < calculateIoU (Some (r_boundingBox detection))
                              (Some (t_boundingBox trackedFace))
           \/ d < 80)).

Lemma considerDetection_cases
      (best : option (nat * DetectionResult) * Q) (i : nat) (det : DetectionResult) :
  considerDetection sqrt config used trackedFace best i det = best
  \/ (fst (considerDetection sqrt config used trackedFace best i det) = Some (i, det)
      /\ admissible i det).
Proof.
  unfold considerDetection.
  destruct (hasIndex used i) eqn:U; [left; reflexivity|].
  destruct (minDistance _ _) as [d|] eqn:D; [|left; reflexivity].
  destruct (d >? maxVelocityPx config) eqn:V; [left; reflexivity|].
  match goal with
  | |- context [if ?c then _ else _] => destruct c eqn:G
  end; [|left; reflexivity].
  right. split; [reflexivity|].
  split; [reflexivity|].
  exists d. split; [reflexivity|].
  apply gtb_false in V. split; [exact V|].
  apply andb_true_iff in G. destruct G as [_ G].
  apply orb_true_iff in G. destruct G as [G|G].
  - left. apply gtb_spec in G. exact G.
  - right. apply ltb_spec in G. exact G.
Qed.

Lemma considerLoop_sound (results : list DetectionResult)
      (l : list (nat * DetectionResult)) :
  (forall iv, In iv l -> In iv (indexed results)) ->
  forall best i det,
    (fst best = None
     \/ exists j e, fst best = Some (j, e)
                    /\ nth_error results j = Some e /\ admissible j e) ->
    fst (fold_left
           (fun best iv =>
              considerDetection sqrt config used trackedFace best (fst iv) (snd iv))
           l best) = Some (i, det) ->
    nth_error results i = Some det /\ admissible i det.
Proof.
  induction l as [|[j e] l IH]; intros Hl best i det Hbest H;
    cbn [fold_left] in H.
  - destruct Hbest as [Hb|[j [e [Hb [Hn Ha]]]]]; rewrite Hb in H; [discriminate|].
    injection H as -> ->. split; assumption.
  - apply (IH (fun iv Hiv => Hl iv (or_intror Hiv)) _ i det) in H; [exact H|].
    cbn [fst snd].
    destruct (considerDetection_cases best j e) as [E|[E Ha]].
    + rewrite E. exact Hbest.
    + right. exists j, e. split; [exact E|]. split; [|exact Ha].
      apply TrackerProps.In_indexed. apply Hl. left. reflexivity.
Qed.

(** The match returned is an unclaimed element of the results. *)
Lemma findBestMatch_index (results : list DetectionResult)
      (i : nat) (det : DetectionResult) :
  findBestMatch sqrt config used trackedFace results = Some (i, det) ->
  nth_error results i = Some det /\ hasIndex used i = false.
Proof.
  unfold findBestMatch. intros H.
  apply (considerLoop_sound results (indexed results) (fun iv Hiv => Hiv)
                            (None, 0) i det) in H.
  - destruct H as [Hn [Hu _]]. split; assumption.
  - left. reflexivity.
Qed.

(** X13.  The detection a track is matched with is one of the results, not
    yet claimed by another track, within reach (its centre no farther than
    [maxVelocityPx] from the track or from where the velocity of the track
    predicts it), and either overlapping the track by more than 0.2 or
    closer than 80 pixels. *)
Theorem findBestMatch_sound (results : list DetectionResult)
        (i : nat) (det : DetectionResult) :
  findBestMatch sqrt config used trackedFace results = Some (i, det) ->
  nth_error results i = Some det
  /\ hasIndex used i = false
  /\ exists d,
      minDistance
        (calculateCenterDistance sqrt (Some (r_boundingBox det))
                                 (Some (t_boundingBox trackedFace)))
        (calculateCenterDistance sqrt (Some (r_boundingBox det))
                                 (Some predictedBox))
      = Finite d
      /\ d <= maxVelocityPx config
      /\ (0.2 < calculateIoU (Some (r_boundingBox det))
                             (Some (t_boundingBox trackedFace))
          \/ d < 80).
Proof.
  unfold findBestMatch. intros H.
  apply (considerLoop_sound results (indexed results) (fun iv Hiv => Hiv)
                            (None, 0) i det) in H.
  - destruct H as [Hn [Hu Hd]]. split; [exact Hn|]. split; assumption.
  - left. reflexivity.
Qed.

End BestMatch.

Lemma findBestMatch_sound_witness :
  nth_error [Examples.detectionAt male young 0.9 0.9 10 0] 0
  = Some (Examples.detectionAt male young 0.9 0.9 10 0)
  /\ hasIndex [] 0 = false.
Proof.
  destruct (findBestMatch_sound Examples.exampleSqrt DEFAULT_WEBCAM_CONFIG []
              (Examples.staleTrack 0)
              [Examples.detectionAt male young 0.9 0.9 10 0]
              0%nat (Examples.detectionAt male young 0.9 0.9 10 0))
    as [Hn [Hu _]].
  - vm_compute. reflexivity.
  - split; assumption.
Defined.

Lemma hasIndex_false (used : list nat) (i : nat) :
  hasIndex used i = false -> ~ In i used.
Proof.
  unfold hasIndex. intros H Hin.
  assert (T : existsb (Nat.eqb i) used = true).
  { apply existsb_exists. exists i. split; [exact Hin | apply Nat.eqb_refl]. }
  rewrite H in T. discriminate.
Qed.

Section Claims.

Variable sqrt : Q -> Q.
Variable femaleBoostFactor : Q.
Variable config : CCTVDetectionConfig.
Variable currentTime : Z.
Variable results : list DetectionResult.

Local Abbreviation turn := (matchTrack sqrt femaleBoostFactor config currentTime results).

(** What the matching loop keeps true of its two sets. *)
Local Abbreviation tidy m :=
  (NoDup (usedDetections m)
   /\ (forall i, In i (usedDetections m) -> (i < List.length results)%nat)
   /\ List.length (matchedIds m) = List.length (usedDetections m)).

Lemma matchTrack_tidy (m : Matching) (entry : string * TrackedFace) :
  tidy m -> tidy (turn m entry).
Proof.
  intros [Hnd [Hb Hl]]. destruct entry as [id t]. unfold matchTrack.
  destruct (findBestMatch sqrt config (usedDetections m) t results)
    as [[i det]|] eqn:F; [|split; [exact Hnd | split; assumption]].
  apply findBestMatch_index in F. destruct F as [Hn Hu].
  cbn [usedDetections matchedIds]. split; [|split].
  - constructor; [apply hasIndex_false; exact Hu | exact Hnd].
  - intros j [<-|Hj]; [|apply Hb; exact Hj].
    apply nth_error_Some. rewrite Hn. discriminate.
  - simpl. rewrite Hl. reflexivity.
Qed.

Lemma matchLoop_tidy (l : list (string * TrackedFace)) :
  forall m, tidy m -> tidy (fold_left turn l m).
Proof.
  induction l as [|e l IH]; intros m H; cbn [fold_left]; [exact H|].
  apply IH. apply matchTrack_tidy. exact H.
Qed.

(** X14.  In one cycle no detection is given to two tracks: the claimed
    indices are distinct positions of the result array, there is one per
    matched track, and so no more tracks are matched than faces were
    detected. *)
Theorem matchTracks_claims_once (st : TrackerState) :
  let m := matchTracks sqrt femaleBoostFactor config currentTime results st in
  NoDup (usedDetections m)
  /\ (forall i, In i (usedDetections m) -> (i < List.length results)%nat)
  /\ List.length (matchedIds m) = List.length (usedDetections m)
  /\ (List.length (matchedIds m) <= List.length results)%nat.
Proof.
  unfold matchTracks.
  destruct (matchLoop_tidy (tracked st)
              (mkMatching (tracked st) (captureSession st) [] []))
    as [Hnd [Hb Hl]].
  { split; [constructor|]. split; [intros i []|reflexivity]. }
  split; [exact Hnd|]. split; [exact Hb|]. split; [exact Hl|].
  rewrite Hl.
  apply Nat.le_trans with (List.length (seq 0 (List.length results)));
    [|rewrite length_seq; apply Nat.le_refl].
  apply NoDup_incl_length; [exact Hnd|].
  intros i Hi. apply in_seq. split; [lia|]. simpl. apply Hb. exact Hi.
Qed.

End Claims.

End MatchingProps.

(** ** What a tick does to the table *)

Module TickProps.
Import Ad Detection SmartAds TrackerProps.

Lemma keys_set_new {V : Type} (m : JsMap.t V) (k : string) (v : V) :
  ~ In k (JsMap.keys m) -> JsMap.keys (JsMap.set m k v) = JsMap.keys m ++ [k].
Proof.
  induction m as [|[k' v'] m IH]; simpl; intros H; [reflexivity|].
  destruct (String.eqb k' k) eqn:E.
  - apply String.eqb_eq in E. exfalso. apply H. left. exact E.
  - simpl. rewrite IH; [reflexivity|]. intros Hin. apply H. right. exact Hin.
Qed.

Lemma wf_set {V : Type} (m : JsMap.t V) (k : string) (v : V) :
  JsMap.wf m -> JsMap.wf (JsMap.set m k v).
Proof.
  unfold JsMap.wf. intros H.
  destruct (in_dec string_dec k (JsMap.keys m)) as [Hin|Hout].
  - rewrite keys_set_existing by exact Hin. exact H.
  - rewrite keys_set_new by exact Hout.
    apply NoDup_app; [exact H | constructor; [intros [] | constructor] |].
    intros a Ha [<-|[]]. apply Hout. exact Ha.
Qed.

Section Table.

Variable femaleBoostFactor : Q.
Variable config : CCTVDetectionConfig.
Variable currentTime : Z.
Variable randomSuffix : nat -> string.
Variable results : list DetectionResult.
Variable matched : list string.
Variable used : list nat.

Lemma addNewTracks_wf (tracked : JsMap.t TrackedFace) :
  JsMap.wf tracked ->
  JsMap.wf (addNewTracks femaleBoostFactor currentTime randomSuffix results
                         used tracked).
Proof.
  unfold addNewTracks. generalize (indexed results).
  intros l. revert tracked.
  induction l as [|[i det] l IH]; intros tracked H; cbn [fold_left]; [exact H|].
  apply IH. destruct (hasIndex used i); [exact H | apply wf_set; exact H].
Qed.

Lemma updateMissedFrames_keys (tracked : JsMap.t TrackedFace) (k : string) :
  In k (JsMap.keys (updateMissedFrames config results matched used tracked)) ->
  In k (JsMap.keys tracked).
Proof.
  intros H. unfold JsMap.keys in H. apply in_map_iff in H.
  destruct H as [[k' t'] [E Hin]]. simpl in E. subst k'.
  apply updateMissedFrames_In in Hin. destruct Hin as [t [Hin _]].
  eapply In_keys. exact Hin.
Qed.

Lemma updateMissedFrames_wf (tracked : JsMap.t TrackedFace) :
  JsMap.wf tracked ->
  JsMap.wf (updateMissedFrames config results matched used tracked).
Proof.
  unfold JsMap.wf.
  induction tracked as [|[id t] rest IH]; intros H; [constructor|].
  simpl in H. inversion H as [|? ? Hout Hrest]; subst.
  change (updateMissedFrames config results matched used ((id, t) :: rest))
    with ((if negb (hasId matched id)
              && negb (someUnusedDetection results used)
           then match ageTrack config t with
                | Some aged => [(id, aged)]
                | None => []
                end
           else [(id, t)])
          ++ updateMissedFrames config results matched used rest).
  assert (Hfresh : ~ In id (JsMap.keys
                              (updateMissedFrames config results matched used rest))).
  { intros Hin. apply Hout. apply updateMissedFrames_keys. exact Hin. }
  destruct (negb (hasId matched id) && negb (someUnusedDetection results used)).
  - destruct (ageTrack config t); simpl.
    + constructor; [exact Hfresh | apply IH; exact Hrest].
    + apply IH. exact Hrest.
  - simpl. constructor; [exact Hfresh | apply IH; exact Hrest].
Qed.

(** Where an entry of the aged table comes from. *)
Lemma updateMissedFrames_origin (tracked : JsMap.t TrackedFace)
      (id : string) (t' : TrackedFace) :
  In (id, t') (updateMissedFrames config results matched used tracked) ->
  exists t, In (id, t) tracked
            /\ (t' = t \/ (ageTrack config t = Some t' /\ hasId matched id = false)).
Proof.
  unfold updateMissedFrames. intros H. apply in_flat_map in H.
  destruct H as [[k t] [Hin H]]. exists t.
  destruct (negb (hasId matched k) && negb (someUnusedDetection results used)) eqn:C.
  - destruct (ageTrack config t) as [aged|] eqn:A; [|destruct H].
    destruct H as [H|[]]. injection H as -> ->.
    split; [exact Hin|]. right. split; [reflexivity|].
    apply andb_true_iff in C. destruct C as [C _].
    apply negb_true_iff in C. exact C.
  - destruct H as [H|[]]. injection H as -> ->.
    split; [exact Hin | left; reflexivity].
Qed.

(** An entry goes only by running out of hold frames, unmatched. *)
Lemma updateMissedFrames_gone (tracked : JsMap.t TrackedFace)
      (id : string) (t : TrackedFace) :
  JsMap.get tracked id = Some t ->
  JsMap.get (updateMissedFrames config results matched used tracked) id = None ->
  ageTrack config t = None /\ hasId matched id = false.
Proof.
  induction tracked as [|[k v] rest IH]; intros Hget Hnone; [discriminate|].
  change (updateMissedFrames config results matched used ((k, v) :: rest))
    with ((if negb (hasId matched k)
              && negb (someUnusedDetection results used)
           then match ageTrack config v with
                | Some aged => [(k, aged)]
                | None => []
                end
           else [(k, v)])
          ++ updateMissedFrames config results matched used rest) in Hnone.
  simpl in Hget. destruct (String.eqb k id) eqn:E.
  - apply String.eqb_eq in E. subst k. injection Hget as ->.
    destruct (negb (hasId matched id) && negb (someUnusedDetection results used))
      eqn:C.
    + destruct (ageTrack config t) as [aged|] eqn:A.
      * simpl in Hnone. rewrite String.eqb_refl in Hnone. discriminate.
      * split; [reflexivity|].
        apply andb_true_iff in C. destruct C as [C _].
        apply negb_true_iff in C. exact C.
    + simpl in Hnone. rewrite String.eqb_refl in Hnone. discriminate.
  - apply IH; [exact Hget|].
    destruct (negb (hasId matched k) && negb (someUnusedDetection results used)).
    + destruct (ageTrack config v); simpl in Hnone; [rewrite E in Hnone|];
        exact Hnone.
    + simpl in Hnone. rewrite E in Hnone. exact Hnone.
Qed.

End Table.

Section Tick.

Variable sqrt : Q -> Q.
Variable femaleBoostFactor : Q.
Variable minDemographicConfidence : Q.
Variable config : CCTVDetectionConfig.
Variable currentTime : Z.
Variable randomSuffix : nat -> string.
Variable results : list DetectionResult.

Local Abbreviation turn := (matchTrack sqrt femaleBoostFactor config currentTime results).

(** The entry the matching loop leaves under [k]: the one it found, or the
    matched update of a track of the loop with one of the results. *)
Lemma matchLoop_entry (l : list (string * TrackedFace)) :
  forall (m : Matching) (k : string),
    JsMap.get (m_tracked (fold_left turn l m)) k = JsMap.get (m_tracked m) k
    \/ exists t det,
        In (k, t) l /\ In det results
        /\ JsMap.get (m_tracked (fold_left turn l m)) k
           = Some (updateMatched femaleBoostFactor currentTime t det).
Proof.
  induction l as [|[id t] l IH]; intros m k; cbn [fold_left].
  - left. reflexivity.
  - destruct (IH (turn m (id, t)) k) as [E|[t' [det [Hin [Hd E]]]]].
    + rewrite E. unfold matchTrack.
      destruct (findBestMatch sqrt config (usedDetections m) t results)
        as [[b d]|] eqn:F; [|left; reflexivity].
      apply MatchingProps.findBestMatch_index in F. destruct F as [Hn _].
      apply nth_error_In in Hn.
      simpl. destruct (string_dec k id) as [->|Ne].
      * right. exists t, d. split; [left; reflexivity|].
        split; [exact Hn | apply get_after_set].
      * left. apply get_after_set_other. exact Ne.
    + right. exists t', det. split; [right; exact Hin|]. split; assumption.
Qed.

Variable st : TrackerState.

Local Abbreviation matching :=
  (matchTracks sqrt femaleBoostFactor config currentTime results (countFrame st)).
Local Abbreviation tableAfter :=
  (tracked (nextState (detectionTick sqrt femaleBoostFactor minDemographicConfidence
                                     config currentTime randomSuffix results st))).

(** The table of the matching loop holds the track of an unmatched id as it
    was. *)
Lemma unmatched_track_untouched (id : string) (t : TrackedFace) :
  JsMap.get (tracked st) id = Some t ->
  hasId (matchedIds matching) id = false ->
  JsMap.get (m_tracked matching) id = Some t.
Proof.
  intros Hget Hm.
  pose proof (matchTracks_untouched sqrt femaleBoostFactor config currentTime
                                    results st) as [_ Hun].
  destruct (Hun id Hm) as [_ [G _]]. simpl in G. rewrite G. exact Hget.
Qed.

Lemma matching_keeps_ids_unique :
  JsMap.wf (tracked st) -> JsMap.wf (m_tracked matching).
Proof.
  intros Hwf.
  pose proof (matchTracks_untouched sqrt femaleBoostFactor config currentTime
                                    results st) as [Hkeys _].
  simpl in Hkeys. unfold JsMap.wf. rewrite Hkeys. exact Hwf.
Qed.

(** What a tick can have done to a track that is still in the table. *)
Lemma tick_track_cases (id : string) (t t' : TrackedFace) :
  JsMap.wf (tracked st) ->
  JsMap.get (tracked st) id = Some t ->
  (forall j, newId currentTime (randomSuffix j) <> id) ->
  JsMap.get tableAfter id = Some t' ->
  t' = t
  \/ ageTrack config t = Some t'
  \/ exists det, In det results
                 /\ t' = updateMatched femaleBoostFactor currentTime t det.
Proof.
  intros Hwf Hget Hfresh Hafter.
  pose proof (matching_keeps_ids_unique Hwf) as Hwf'.
  unfold detectionTick in Hafter. cbn [nextState tracked] in Hafter.
  apply get_In in Hafter.
  apply updateMissedFrames_origin in Hafter.
  destruct Hafter as [t0 [Hin Hrel]].
  apply addNewTracks_In_elsewhere in Hin; [|exact Hfresh].
  apply (In_get _ _ _ Hwf') in Hin.
  destruct Hrel as [->|[A Hm]].
  - unfold matchTracks in Hin.
    destruct (matchLoop_entry (tracked (countFrame st))
                (mkMatching (tracked (countFrame st))
                            (captureSession (countFrame st)) [] []) id)
      as [E|[t1 [det [Hin1 [Hd E]]]]];
      rewrite E in Hin; simpl in Hin.
    + left. congruence.
    + right. right. exists det. split; [exact Hd|].
      injection Hin as Hin. subst t0.
      assert (t1 = t).
      { simpl in Hin1.
        eapply keys_unique; [exact Hwf | exact Hin1 |]. apply get_In. exact Hget. }
      subst t1. reflexivity.
  - right. left. rewrite (unmatched_track_untouched id t Hget Hm) in Hin.
    injection Hin as ->. exact A.
Qed.

(** X15.  A tick does one of four things to a track of the table (one entry
    per id, no new id colliding with it): it leaves the track as it is, it
    ages it by one missed frame, it writes the matched update of it with one
    of the results, or it removes it, and it removes it only when one more
    missed frame exceeds the hold budget. *)
Theorem tick_track_outcome (id : string) (t : TrackedFace) :
  JsMap.wf (tracked st) ->
  JsMap.get (tracked st) id = Some t ->
  (forall j, newId currentTime (randomSuffix j) <> id) ->
  match JsMap.get tableAfter id with
  | Some t' =>
      t' = t
      \/ ageTrack config t = Some t'
      \/ exists det, In det results
                     /\ t' = updateMatched femaleBoostFactor currentTime t det
  | None => (holdFrames config < t_missedFrames t + 1)%Z
  end.
Proof.
  intros Hwf Hget Hfresh.
  destruct (JsMap.get tableAfter id) as [t'|] eqn:Hafter.
  - exact (tick_track_cases id t t' Hwf Hget Hfresh Hafter).
  - pose proof (matching_keeps_ids_unique Hwf) as Hwf'.
    pose proof (matchTracks_untouched sqrt femaleBoostFactor config currentTime
                                      results st) as [Hkeys _].
    simpl in Hkeys.
    unfold detectionTick in Hafter. cbn [nextState tracked] in Hafter.
    assert (G : exists t0, JsMap.get (m_tracked matching) id = Some t0).
    { destruct (JsMap.get (m_tracked matching) id) as [t0|] eqn:G;
        [exists t0; reflexivity|].
      exfalso.
      assert (K : In id (JsMap.keys (m_tracked matching))).
      { rewrite Hkeys. eapply In_keys. apply get_In. exact Hget. }
      apply in_map_iff in K. destruct K as [[k v] [Ek Hin]]. simpl in Ek. subst k.
      rewrite (In_get _ _ _ Hwf' Hin) in G. discriminate. }
    destruct G as [t0 G].
    rewrite <- (addNewTracks_elsewhere femaleBoostFactor currentTime randomSuffix
                  (usedDetections matching) results id Hfresh) in G.
    destruct (updateMissedFrames_gone _ _ _ _ _ _ _ G Hafter) as [A Hm].
    rewrite addNewTracks_elsewhere in G by exact Hfresh.
    rewrite (unmatched_track_untouched id t Hget Hm) in G. injection G as <-.
    pose proof (ageTrack_spec config t) as S. rewrite A in S. exact S.
Qed.

(** X16.  A tick keeps the table at one entry per id. *)
Theorem tick_keeps_ids_unique :
  JsMap.wf (tracked st) -> JsMap.wf tableAfter.
Proof.
  intros Hwf.
  unfold detectionTick. cbn [nextState tracked].
  apply updateMissedFrames_wf. apply addNewTracks_wf.
  apply matching_keeps_ids_unique. exact Hwf.
Qed.

End Tick.

Lemma tick_track_outcome_witness :
  match JsMap.get (tracked (nextState (Examples.webcamTick [] (Examples.oneTrack 0))))
                  "face_1" with
  | Some t' =>
      t' = Examples.staleTrack 0
      \/ ageTrack DEFAULT_WEBCAM_CONFIG (Examples.staleTrack 0) = Some t'
      \/ exists det, In det []
                     /\ t' = updateMatched 0.15 1800 (Examples.staleTrack 0) det
  | None => (holdFrames DEFAULT_WEBCAM_CONFIG
             < t_missedFrames (Examples.staleTrack 0) + 1)%Z
  end.
Proof.
  apply (tick_track_outcome Examples.exampleSqrt 0.15 0.75 DEFAULT_WEBCAM_CONFIG
           1800 Examples.suffixes [] (Examples.oneTrack 0)
           "face_1" (Examples.staleTrack 0)).
  - constructor; [intros [] | constructor].
  - reflexivity.
  - apply suffixes_not_face_1.
Defined.

Lemma tick_keeps_ids_unique_witness :
  JsMap.wf (tracked (nextState (Examples.webcamTick [Examples.stranger]
                                                    (Examples.oneTrack 0)))).
Proof.
  apply (tick_keeps_ids_unique Examples.exampleSqrt 0.15 0.75 DEFAULT_WEBCAM_CONFIG
           1800 Examples.suffixes [Examples.stranger] (Examples.oneTrack 0)).
  constructor; [intros [] | constructor].
Defined.

End TickProps.

(** ** Labels given by the user *)

Module LabelingProps.
Import Ad Detection SmartAds TrackerProps Labeling.

(** A track that carries a label of the user, with the values it is held at. *)
Local Abbreviation labelled t g a g0 a0 gv av :=
  (t_isUserCorrected t = Some true
   /\ t_stableGender t = g /\ t_stableAgeGroup t = a
   /\ t_gender t = g0 /\ t_ageGroup t = a0
   /\ t_genderVotes t = gv /\ t_ageVotes t = av).

Lemma updateMatched_labelled (boost : Q) (now : Z) (t : TrackedFace)
      (det : DetectionResult) (g g0 : Gender) (a a0 : AgeGroup)
      (gv : GenderVotes) (av : AgeVotes) :
  labelled t g a g0 a0 gv av ->
  labelled (updateMatched boost now t det) g a g0 a0 gv av
  /\ t_confidence (updateMatched boost now t det) = 1.0.
Proof.
  intros [U [G [A [G' [A' [GV AV]]]]]].
  unfold updateMatched. rewrite U. simpl.
  repeat split; assumption.
Qed.

Lemma ageTrack_labelled (config : CCTVDetectionConfig) (t aged : TrackedFace)
      (g g0 : Gender) (a a0 : AgeGroup) (gv : GenderVotes) (av : AgeVotes) :
  ageTrack config t = Some aged ->
  labelled t g a g0 a0 gv av -> labelled aged g a g0 a0 gv av.
Proof.
  unfold ageTrack. intros H L.
  destruct (t_missedFrames t + 1 >? holdFrames config)%Z; [discriminate|].
  injection H as <-. exact L.
Qed.

Lemma timeline_labelled (boost : Q) (ds : list (Z * DetectionResult))
      (g g0 : Gender) (a a0 : AgeGroup) (gv : GenderVotes) (av : AgeVotes) :
  forall t, labelled t g a g0 a0 gv av ->
            forall t', In t' (matchedTimeline boost t ds) ->
                       labelled t' g a g0 a0 gv av /\ t_confidence t' = 1.0.
Proof.
  induction ds as [|[now det] ds IH]; intros t L t' Hin; [destruct Hin|].
  destruct (updateMatched_labelled boost now t det g g0 a a0 gv av L) as [L' C].
  destruct Hin as [<-|Hin]; [split; assumption|].
  exact (IH _ L' t' Hin).
Qed.

(** X17.  A correction sticks.  For a track of the table that is not marked
    a false positive, the handler files the track under its id with the
    gender and age group of the label, and however often the track is
    matched afterwards, with whatever detections, its stable gender and age
    group stay those of the label, its votes stay as the correction set them
    and its confidence stays 1. *)
Theorem label_persists (entry : GroundTruthEntry) (table : JsMap.t TrackedFace)
        (id : string) (t : TrackedFace)
        (boost : Q) (ds : list (Z * DetectionResult)) :
  e_trackingId entry = Some id -> id <> ""%string ->
  JsMap.get table id = Some t -> isFalsePositive entry = false ->
  exists c,
    JsMap.get (fst (handleLabelDetection entry table)) id = Some c
    /\ t_stableGender c = actualGender entry
    /\ t_stableAgeGroup c = actualAgeGroup entry
    /\ forall t', In t' (matchedTimeline boost c ds) ->
                  t_stableGender t' = actualGender entry
                  /\ t_stableAgeGroup t' = actualAgeGroup entry
                  /\ t_genderVotes t' = t_genderVotes c
                  /\ t_ageVotes t' = t_ageVotes c
                  /\ t_confidence t' = 1.0.
Proof.
  intros Hid Hne Hget Hfp.
  unfold handleLabelDetection, JsMap.has. rewrite Hid, Hget, Hfp.
  replace (String.eqb id "") with false
    by (symmetry; apply String.eqb_neq; exact Hne).
  cbn [negb andb fst].
  exists (correctTrack entry t).
  split; [apply get_after_set|].
  split; [reflexivity|]. split; [reflexivity|].
  intros t' Hin.
  destruct (timeline_labelled boost ds (actualGender entry) (actualGender entry)
              (actualAgeGroup entry) (actualAgeGroup entry)
              (t_genderVotes (correctTrack entry t))
              (t_ageVotes (correctTrack entry t))
              (correctTrack entry t)) with (t' := t')
    as [[_ [G [A [_ [_ [GV AV]]]]]] C].
  - repeat split; reflexivity.
  - exact Hin.
  - repeat split; assumption.
Qed.

Lemma label_persists_witness :
  exists c,
    JsMap.get (fst (handleLabelDetection
                      (mkEntry (Some "face_1"%string) female adult false)
                      (tracked (Examples.oneTrack 0)))) "face_1"
    = Some c
    /\ t_stableGender c = female
    /\ t_stableAgeGroup c = adult
    /\ forall t', In t' (matchedTimeline 0.15 c
                           [(1800%Z, Examples.detectionAt male young 0.95 0.9 0 0);
                            (1900%Z, Examples.detectionAt male young 0.95 0.9 0 0)]) ->
                  t_stableGender t' = female
                  /\ t_stableAgeGroup t' = adult
                  /\ t_genderVotes t' = t_genderVotes c
                  /\ t_ageVotes t' = t_ageVotes c
                  /\ t_confidence t' = 1.0.
Proof.
  apply (label_persists (mkEntry (Some "face_1"%string) female adult false)
           (tracked (Examples.oneTrack 0)) "face_1" (Examples.staleTrack 0)).
  - reflexivity.
  - discriminate.
  - reflexivity.
  - reflexivity.
Defined.

(** X18.  No tick takes a label back: a track that carries a label of the
    user and is still in the table after a tick (one entry per id, no new id
    colliding with it) has its stable gender and age group and all its
    votes as before, and still carries the label. *)
Theorem tick_keeps_label
        (sqrt : Q -> Q) (boost minConfidence : Q) (config : CCTVDetectionConfig)
        (now : Z) (randomSuffix : nat -> string)
        (results : list DetectionResult) (st : TrackerState)
        (id : string) (t t' : TrackedFace) :
  JsMap.wf (tracked st) ->
  JsMap.get (tracked st) id = Some t ->
  t_isUserCorrected t = Some true ->
  (forall j, newId now (randomSuffix j) <> id) ->
  JsMap.get (tracked (nextState (detectionTick sqrt boost minConfidence config
                                               now randomSuffix results st))) id
  = Some t' ->
  t_isUserCorrected t' = Some true
  /\ t_stableGender t' = t_stableGender t
  /\ t_stableAgeGroup t' = t_stableAgeGroup t
  /\ t_genderVotes t' = t_genderVotes t
  /\ t_ageVotes t' = t_ageVotes t.
Proof.
  intros Hwf Hget Hu Hfresh Hafter.
  pose proof (TickProps.tick_track_cases sqrt boost minConfidence config now
                randomSuffix results st id t t' Hwf Hget Hfresh Hafter) as H.
  assert (L : labelled t (t_stableGender t) (t_stableAgeGroup t)
                       (t_gender t) (t_ageGroup t)
                       (t_genderVotes t) (t_ageVotes t)).
  { repeat split; [exact Hu]. }
  assert (L' : labelled t' (t_stableGender t) (t_stableAgeGroup t)
                        (t_gender t) (t_ageGroup t)
                        (t_genderVotes t) (t_ageVotes t)).
  { destruct H as [->|[A|[det [_ ->]]]].
    - exact L.
    - exact (ageTrack_labelled config t t' _ _ _ _ _ _ A L).
    - exact (proj1 (updateMatched_labelled boost now t det _ _ _ _ _ _ L)). }
  destruct L' as [U [G [A [_ [_ [GV AV]]]]]].
  repeat split; assumption.
Qed.

Lemma tick_keeps_label_witness :
  let entry := mkEntry (Some "face_1"%string) female adult false in
  let t := correctTrack entry (Examples.staleTrack 0) in
  let st := mkState (fst (handleLabelDetection entry (tracked (Examples.oneTrack 0))))
                    None in
  match JsMap.get
          (tracked (nextState
                      (Examples.webcamTick
                         [Examples.detectionAt male young 0.95 0.9 0 0] st)))
          "face_1" with
  | Some t' =>
      t_isUserCorrected t' = Some true
      /\ t_stableGender t' = t_stableGender t
      /\ t_stableAgeGroup t' = t_stableAgeGroup t
      /\ t_genderVotes t' = t_genderVotes t
      /\ t_ageVotes t' = t_ageVotes t
  | None => False
  end.
Proof.
  intros entry t st.
  destruct (JsMap.get _ "face_1") as [t'|] eqn:E.
  - apply (tick_keeps_label Examples.exampleSqrt 0.15 0.75 DEFAULT_WEBCAM_CONFIG
             1800 Examples.suffixes
             [Examples.detectionAt male young 0.95 0.9 0 0] st "face_1" t t').
    + constructor; [intros [] | constructor].
    + reflexivity.
    + reflexivity.
    + apply suffixes_not_face_1.
    + exact E.
  - vm_compute in E. discriminate.
Defined.

(** *** Removing a false positive *)

Lemma get_delete_other {V : Type} (m : JsMap.t V) (k k' : string) :
  k' <> k -> JsMap.get (JsMap.delete m k) k' = JsMap.get m k'.
Proof.
  intros Hne. induction m as [|[k0 v0] m IH]; simpl; [reflexivity|].
  destruct (String.eqb k0 k) eqn:E.
  - apply String.eqb_eq in E. subst k0.
    replace (String.eqb k k') with false; [reflexivity|].
    symmetry. apply String.eqb_neq. intros H. apply Hne. symmetry. exact H.
  - simpl. rewrite IH. reflexivity.
Qed.

Lemma get_delete_same {V : Type} (m : JsMap.t V) (k : string) :
  JsMap.wf m -> JsMap.get (JsMap.delete m k) k = None.
Proof.
  unfold JsMap.wf. induction m as [|[k0 v0] m IH]; simpl; intros H; [reflexivity|].
  inversion H as [|? ? Hout Hrest]; subst.
  destruct (String.eqb k0 k) eqn:E.
  - apply String.eqb_eq in E. subst k0.
    destruct (JsMap.get m k) as [v|] eqn:G; [|reflexivity].
    exfalso. apply Hout. eapply In_keys. apply get_In. exact G.
  - simpl. rewrite E. apply IH. exact Hrest.
Qed.

Lemma keys_delete {V : Type} (m : JsMap.t V) (k a : string) :
  In a (JsMap.keys (JsMap.delete m k)) -> In a (JsMap.keys m).
Proof.
  induction m as [|[k0 v0] m IH]; simpl; [auto|].
  destruct (String.eqb k0 k); simpl.
  - intros H. right. exact H.
  - intros [H|H]; [left; exact H | right; apply IH; exact H].
Qed.

Lemma wf_delete {V : Type} (m : JsMap.t V) (k : string) :
  JsMap.wf m -> JsMap.wf (JsMap.delete m k).
Proof.
  unfold JsMap.wf. induction m as [|[k0 v0] m IH]; simpl; intros H; [constructor|].
  inversion H as [|? ? Hout Hrest]; subst.
  destruct (String.eqb k0 k); [exact Hrest|].
  simpl. constructor; [|apply IH; exact Hrest].
  intros Hin. apply Hout. eapply keys_delete. exact Hin.
Qed.

(** X19.  Marking a track of the table a false positive removes that track
    and no other: afterwards nothing is filed under its id, every other id
    holds what it held, and the table still has one entry per id.  A label
    for an id the table does not hold leaves the table as it is. *)
Theorem false_positive_is_removed
        (entry : GroundTruthEntry) (table : JsMap.t TrackedFace) (id : string) :
  JsMap.wf table ->
  e_trackingId entry = Some id -> id <> ""%string ->
  let table' := fst (handleLabelDetection entry table) in
  (JsMap.has table id = true -> isFalsePositive entry = true ->
   JsMap.get table' id = None
   /\ (forall k, k <> id -> JsMap.get table' k = JsMap.get table k)
   /\ JsMap.wf table')
  /\ (JsMap.has table id = false -> table' = table).
Proof.
  intros Hwf Hid Hne. unfold handleLabelDetection. rewrite Hid.
  replace (String.eqb id "") with false
    by (symmetry; apply String.eqb_neq; exact Hne).
  cbn [negb andb]. split.
  - intros Hhas Hfp. rewrite Hhas.
    unfold JsMap.has in Hhas.
    destruct (JsMap.get table id) as [t|]; [|discriminate].
    rewrite Hfp. cbn [fst].
    split; [apply get_delete_same; exact Hwf|].
    split; [intros k Hk; apply get_delete_other; exact Hk|].
    apply wf_delete. exact Hwf.
  - intros Hhas. rewrite Hhas. reflexivity.
Qed.

Lemma false_positive_is_removed_witness :
  let entry := mkEntry (Some "face_1"%string) male young true in
  let table := tracked (Examples.oneTrack 0) in
  JsMap.get (fst (handleLabelDetection entry table)) "face_1" = None.
Proof.
  intros entry table.
  destruct (false_positive_is_removed entry table "face_1") as [H _].
  - constructor; [intros [] | constructor].
  - reflexivity.
  - discriminate.
  - destruct H as [H _]; [reflexivity | reflexivity | exact H].
Defined.

End LabelingProps.

(** ** The viewers and counts a tick shows, and the end of a capture window *)

Module ViewerProps.
Import Ad Detection SmartAds.

Lemma result_gender_counts (l : list DetectionResult) :
  (JsArray.countIf (fun d => Gender_eqb (r_gender d) male) l
   + JsArray.countIf (fun d => Gender_eqb (r_gender d) female) l)%Z
  = Z.of_nat (List.length l).
Proof.
  apply SessionProps.countIf_split. intros d. destruct (r_gender d); reflexivity.
Qed.

Lemma result_age_counts (l : list DetectionResult) :
  (JsArray.countIf (fun d => AgeGroup_eqb (r_ageGroup d) kid) l
   + JsArray.countIf (fun d => AgeGroup_eqb (r_ageGroup d) young) l
   + JsArray.countIf (fun d => AgeGroup_eqb (r_ageGroup d) adult) l)%Z
  = Z.of_nat (List.length l).
Proof.
  unfold JsArray.countIf.
  induction l as [|a l IH]; simpl; [reflexivity|].
  destruct (r_ageGroup a); simpl List.length; lia.
Qed.

Section Tick.

Variable sqrt : Q -> Q.
Variable femaleBoostFactor : Q.
Variable minDemographicConfidence : Q.
Variable config : CCTVDetectionConfig.
Variable currentTime : Z.
Variable randomSuffix : nat -> string.
Variable results : list DetectionResult.
Variable st : TrackerState.

Local Abbreviation tick :=
  (detectionTick sqrt femaleBoostFactor minDemographicConfidence config
                 currentTime randomSuffix results st).

(** X20.  The viewers a tick shows are the tracks of its table that have
    reached the required number of consecutive hits, under their stable
    gender and age group.  Of the demographics each of the five counts is the
    number of shown viewers of that gender, or of that age group, whose
    confidence reaches the configured minimum (all five are 0 when nobody is
    shown); so the two gender counts, like the three age counts, add up to
    the number of those viewers. *)
Theorem tick_demographics :
  (forall d, In d (currentViewers tick) <->
             exists face, In face (JsMap.values (tracked (nextState tick)))
                          /\ (minConsecutiveFrames config <= t_consecutiveHits face)%Z
                          /\ d = toDetectionResult face)
  /\ let confident :=
       filter (fun d => r_confidence d >=? minDemographicConfidence)
              (currentViewers tick) in
     c_male (demographics tick)
     = JsArray.countIf (fun d => Gender_eqb (r_gender d) male) confident
     /\ c_female (demographics tick)
        = JsArray.countIf (fun d => Gender_eqb (r_gender d) female) confident
     /\ c_kid (demographics tick)
        = JsArray.countIf (fun d => AgeGroup_eqb (r_ageGroup d) kid) confident
     /\ c_young (demographics tick)
        = JsArray.countIf (fun d => AgeGroup_eqb (r_ageGroup d) young) confident
     /\ c_adult (demographics tick)
        = JsArray.countIf (fun d => AgeGroup_eqb (r_ageGroup d) adult) confident
     /\ (currentViewers tick = [] -> demographics tick = mkCounts 0 0 0 0 0)
     /\ (c_male (demographics tick) + c_female (demographics tick))%Z
        = Z.of_nat (List.length confident)
     /\ (c_kid (demographics tick) + c_young (demographics tick)
         + c_adult (demographics tick))%Z
        = Z.of_nat (List.length confident).
Proof.
  unfold detectionTick. cbn [currentViewers demographics nextState tracked].
  set (aged := updateMissedFrames config results _ _ _).
  set (shown := map toDetectionResult
                    (filter (fun face =>
                               (t_consecutiveHits face
                                >=? minConsecutiveFrames config)%Z)
                            (JsMap.values aged))).
  split.
  - intros d. subst shown. rewrite in_map_iff. split.
    + intros [face [E Hin]]. apply filter_In in Hin. destruct Hin as [Hin Hh].
      exists face. split; [exact Hin|]. split; [|symmetry; exact E].
      apply Z.geb_le in Hh. exact Hh.
    + intros [face [Hin [Hh E]]]. exists face. split; [symmetry; exact E|].
      apply filter_In. split; [exact Hin|]. apply Z.geb_le. exact Hh.
  - cbv zeta. destruct (0 <? List.length shown)%nat eqn:E.
    + cbn [c_male c_female c_kid c_young c_adult].
      repeat (split; [reflexivity|]).
      split.
      { intros Hnone. rewrite Hnone in E. discriminate. }
      split; [apply result_gender_counts | apply result_age_counts].
    + apply Nat.ltb_ge in E.
      destruct shown as [|d l]; [|simpl in E; lia].
      repeat split; reflexivity.
Qed.

End Tick.

Section Closing.

Variable minDemographicConfidence : Q.
Variable now : Z.

(** X21.  Closing a capture window with a session open clears the session
    and leaves the track table alone; the queue is asked to reorder, with
    the demographics of the summary, exactly when the summary counts at
    least one viewer. *)
Theorem endCaptureWindow_reorders_iff_viewers
        (st : TrackerState) (session : CaptureSession) :
  captureSession st = Some session ->
  let summary := finalizeSession minDemographicConfidence now session in
  let '(st', shown, reorder) :=
    endCaptureWindow minDemographicConfidence now st in
  captureSession st' = None /\ tracked st' = tracked st
  /\ shown = Some summary
  /\ ((0 < s_uniqueViewers summary)%Z -> reorder = Some (s_demographics summary))
  /\ (s_uniqueViewers summary = 0%Z -> reorder = None).
Proof.
  intros Hs. unfold endCaptureWindow. rewrite Hs. cbv zeta.
  split; [reflexivity|]. split; [reflexivity|]. split; [reflexivity|].
  pose proof (SessionProps.gender_counts
                (s_viewers (finalizeSession minDemographicConfidence now session)))
    as G.
  change (c_male (s_demographics (finalizeSession minDemographicConfidence now session))
          + c_female (s_demographics
                        (finalizeSession minDemographicConfidence now session))
          = s_uniqueViewers (finalizeSession minDemographicConfidence now session))%Z
    in G.
  rewrite G. split; intros H.
  - replace (_ >? 0)%Z with true; [reflexivity|].
    symmetry. apply Z.gtb_lt. exact H.
  - rewrite H. reflexivity.
Qed.

End Closing.

Lemma endCaptureWindow_reorders_iff_viewers_witness :
  let st := mkState [] (Some Examples.exampleSession) in
  let '(st', shown, reorder) := endCaptureWindow 0.75 9000 st in
  captureSession st' = None
  /\ reorder = Some (s_demographics (finalizeSession 0.75 9000 Examples.exampleSession)).
Proof.
  pose proof (endCaptureWindow_reorders_iff_viewers 0.75 9000
                (mkState [] (Some Examples.exampleSession))
                Examples.exampleSession eq_refl) as H.
  cbv zeta in *.
  destruct (endCaptureWindow 0.75 9000 (mkState [] (Some Examples.exampleSession)))
    as [[st' shown] reorder].
  destruct H as [H1 [_ [_ [H4 _]]]].
  split; [exact H1|]. apply H4. reflexivity.
Defined.

End ViewerProps.

(** ** Frames counted and frames seen *)

Module SessionFrameProps.
Import Ad Detection SmartAds TrackerProps SessionInvariant.

(** How the aggregate of one viewer can differ after a cycle: not at all, or
    by one more frame seen. *)
Local Abbreviation seenOnce old new :=
  (exists v', new = Some v'
              /\ a_seenFrames v'
                 = match old with
                   | Some v => (a_seenFrames v + 1)%Z
                   | None => 1%Z
                   end).

Lemma observeViewer_spec (session : CaptureSession) (id : string)
      (det : DetectionResult) :
  let s' := observeViewer session id det in
  startedAt s' = startedAt session
  /\ frameCount s' = frameCount session
  /\ (JsMap.wf (viewers session) -> JsMap.wf (viewers s'))
  /\ seenOnce (JsMap.get (viewers session) id) (JsMap.get (viewers s') id)
  /\ forall k, k <> id ->
               JsMap.get (viewers s') k = JsMap.get (viewers session) k.
Proof.
  unfold observeViewer.
  destruct (JsMap.get (viewers session) id) as [existing|] eqn:G.
  - destruct (r_confidence det >=? MIN_VOTE_CONFIDENCE);
      cbn [startedAt frameCount viewers];
      (split; [reflexivity|]; split; [reflexivity|];
       split; [apply TickProps.wf_set|];
       split; [eexists; split; [apply get_after_set | reflexivity]|];
       intros k Hk; apply get_after_set_other; exact Hk).
  - cbn [startedAt frameCount viewers].
    split; [reflexivity|]. split; [reflexivity|].
    split; [apply TickProps.wf_set|].
    split; [eexists; split; [apply get_after_set | reflexivity]|].
    intros k Hk. apply get_after_set_other. exact Hk.
Qed.

Section Loop.

Variable sqrt : Q -> Q.
Variable femaleBoostFactor : Q.
Variable config : CCTVDetectionConfig.
Variable currentTime : Z.
Variable results : list DetectionResult.

Local Abbreviation turn := (matchTrack sqrt femaleBoostFactor config currentTime results).

Lemma matchTrack_session (m : Matching) (id : string) (t : TrackedFace)
      (s : CaptureSession) :
  m_session m = Some s ->
  exists s1,
    m_session (turn m (id, t)) = Some s1
    /\ startedAt s1 = startedAt s /\ frameCount s1 = frameCount s
    /\ (JsMap.wf (viewers s) -> JsMap.wf (viewers s1))
    /\ (JsMap.get (viewers s1) id = JsMap.get (viewers s) id
        \/ seenOnce (JsMap.get (viewers s) id) (JsMap.get (viewers s1) id))
    /\ forall k, k <> id -> JsMap.get (viewers s1) k = JsMap.get (viewers s) k.
Proof.
  intros Hs. unfold matchTrack.
  destruct (findBestMatch sqrt config (usedDetections m) t results) as [[b d]|].
  - cbn [m_session]. rewrite Hs.
    destruct (t_consecutiveHits t >=? minConsecutiveFrames config)%Z.
    + exists (observeViewer s id d).
      destruct (observeViewer_spec s id d) as [A [B [C [D E]]]].
      split; [reflexivity|]. split; [exact A|]. split; [exact B|].
      split; [exact C|]. split; [right; exact D | exact E].
    + exists s. split; [reflexivity|]. split; [reflexivity|].
      split; [reflexivity|]. split; [auto|]. split; [left; reflexivity|].
      intros k _. reflexivity.
  - exists s. split; [exact Hs|]. split; [reflexivity|].
    split; [reflexivity|]. split; [auto|]. split; [left; reflexivity|].
    intros k _. reflexivity.
Qed.

Lemma matchLoop_session (l : list (string * TrackedFace)) :
  NoDup (map fst l) ->
  forall (m : Matching) (s : CaptureSession),
    m_session m = Some s ->
    exists s',
      m_session (fold_left turn l m) = Some s'
      /\ startedAt s' = startedAt s /\ frameCount s' = frameCount s
      /\ (JsMap.wf (viewers s) -> JsMap.wf (viewers s'))
      /\ forall k,
          (~ In k (map fst l) ->
           JsMap.get (viewers s') k = JsMap.get (viewers s) k)
          /\ (JsMap.get (viewers s') k = JsMap.get (viewers s) k
              \/ seenOnce (JsMap.get (viewers s) k) (JsMap.get (viewers s') k)).
Proof.
  induction l as [|[id t] l IH]; intros Hnd m s Hs; cbn [fold_left].
  - exists s. split; [exact Hs|]. split; [reflexivity|]. split; [reflexivity|].
    split; [auto|]. intros k. split; [reflexivity | left; reflexivity].
  - simpl in Hnd. inversion Hnd as [|? ? Hout Hrest]; subst.
    destruct (matchTrack_session m id t s Hs) as [s1 [H1 [A1 [B1 [C1 [D1 E1]]]]]].
    destruct (IH Hrest (turn m (id, t)) s1 H1) as [s' [H' [A' [B' [C' D']]]]].
    exists s'. split; [exact H'|]. split; [congruence|]. split; [congruence|].
    split; [auto|]. intros k. split.
    + intros Hk.
      assert (Ne : k <> id) by (intros ->; apply Hk; left; reflexivity).
      rewrite <- (E1 k Ne). apply (proj1 (D' k)).
      intros Hin. apply Hk. right. exact Hin.
    + destruct (string_dec k id) as [->|Ne].
      * rewrite (proj1 (D' id) Hout). exact D1.
      * rewrite <- (E1 k Ne). exact (proj2 (D' k)).
Qed.

Lemma matchLoop_closed (l : list (string * TrackedFace)) :
  forall m : Matching,
    m_session m = None -> m_session (fold_left turn l m) = None.
Proof.
  induction l as [|[id t] l IH]; intros m H; cbn [fold_left]; [exact H|].
  apply IH. unfold matchTrack.
  destruct (findBestMatch sqrt config (usedDetections m) t results) as [[b d]|];
    [|exact H].
  cbn [m_session]. rewrite H. reflexivity.
Qed.

End Loop.

(** X22.  A tick counts exactly one frame of an open capture session and
    lets no viewer be seen more than once in it: with one track per id in
    the table, a session in which no viewer was seen in more frames than
    were counted is again such a session after the tick, started at the
    same time and one frame longer.  A tick opens no session. *)
Theorem tick_counts_one_frame
        (sqrt : Q -> Q) (boost minConfidence : Q) (config : CCTVDetectionConfig)
        (now : Z) (randomSuffix : nat -> string)
        (results : list DetectionResult) (st : TrackerState) :
  JsMap.wf (tracked st) ->
  let after :=
    captureSession (nextState (detectionTick sqrt boost minConfidence config
                                             now randomSuffix results st)) in
  match captureSession st with
  | Some s =>
      seenWithinFrames s ->
      exists s', after = Some s'
                 /\ startedAt s' = startedAt s
                 /\ frameCount s' = (frameCount s + 1)%Z
                 /\ seenWithinFrames s'
  | None => after = None
  end.
Proof.
  intros Hwf. unfold detectionTick. cbn [nextState captureSession].
  unfold matchTracks, countFrame. cbn [tracked captureSession].
  destruct (captureSession st) as [s|].
  - intros [Hv [Hf Hseen]].
    destruct (matchLoop_session sqrt boost config now results (tracked st) Hwf
                (mkMatching (tracked st)
                            (Some (mkSession (startedAt s) (frameCount s + 1)
                                             (viewers s))) [] [])
                (mkSession (startedAt s) (frameCount s + 1) (viewers s)) eq_refl)
      as [s' [H' [A [B [C D]]]]].
    cbn [startedAt frameCount viewers] in A, B, C, D.
    exists s'. split; [exact H'|]. split; [exact A|]. split; [exact B|].
    split; [exact (C Hv)|]. split; [lia|].
    intros id v Hin. rewrite B.
    apply (In_get _ _ _ (C Hv)) in Hin.
    destruct (proj2 (D id)) as [E|[v' [E1 E2]]].
    + rewrite E in Hin. apply get_In in Hin.
      specialize (Hseen id v Hin). lia.
    + rewrite E1 in Hin. injection Hin as <-. rewrite E2.
      destruct (JsMap.get (viewers s) id) as [v0|] eqn:G; [|lia].
      apply get_In in G. specialize (Hseen id v0 G). lia.
  - apply matchLoop_closed. reflexivity.
Qed.

Lemma tick_counts_one_frame_witness :
  exists s',
    captureSession (nextState (Examples.webcamTick
                                 [Examples.detectionAt male young 0.95 0.9 0 0]
                                 (mkState (tracked (Examples.oneTrack 0))
                                          (Some Examples.exampleSession))))
    = Some s'
    /\ startedAt s' = 1000%Z /\ frameCount s' = 6%Z /\ seenWithinFrames s'.
Proof.
  apply (tick_counts_one_frame Examples.exampleSqrt 0.15 0.75 DEFAULT_WEBCAM_CONFIG
           1800 Examples.suffixes
           [Examples.detectionAt male young 0.95 0.9 0 0]
           (mkState (tracked (Examples.oneTrack 0)) (Some Examples.exampleSession))).
  - constructor; [intros [] | constructor].
  - split; [|split].
    + constructor; [|constructor; [intros [] | constructor]].
      intros [H|[]]. discriminate.
    + discriminate.
    + intros id v [H|[H|[]]]; injection H as <- <-; simpl; lia.
Defined.

End SessionFrameProps.

(** ** The ad queue *)

Module AdRotationProps.
Import Ad AdQueue AdRotation.

Lemma floor_le (q : Q) : floor q <= q.
Proof.
  apply Qfloor_le.
Qed.

Lemma floor_monotone (p q : Q) : p <= q -> floor p <= floor q.
Proof.
  intros H. unfold floor. rewrite <- Zle_Qle. apply Qfloor_resp_le. exact H.
Qed.

Lemma floor_nonneg (q : Q) : 0 <= q -> 0 <= floor q.
Proof.
  intros H. apply (floor_monotone 0 q) in H. exact H.
Qed.

(** X23.  For percentages with [0 <= start <= end <= 100] the capture window
    of an ad of non-negative duration lies inside the ad: the window starts
    at a whole second not before 0 and ends at a whole second not before its
    start and not after the end of the ad.  Nothing else of the ad changes. *)
Theorem applyCapture_window
        (ads : list AdMetadata) (startPercent endPercent : Q) (a : AdMetadata) :
  0 <= startPercent -> startPercent <= endPercent -> endPercent <= 100 ->
  In a (applyCapture ads startPercent endPercent) -> 0 <= duration a ->
  0 <= captureStart a /\ captureStart a <= captureEnd a
  /\ captureEnd a <= duration a
  /\ exists original,
      In original ads /\ id a = id original /\ duration a = duration original
      /\ gender a = gender original /\ ageGroup a = ageGroup original.
Proof.
  intros Hs Hse He Hin Hd. unfold applyCapture in Hin.
  apply in_map_iff in Hin. destruct Hin as [o [<- Ho]].
  cbn [withCapture duration captureStart captureEnd id gender ageGroup] in *.
  assert (M : duration o * startPercent <= duration o * endPercent).
  { rewrite !(Qmult_comm (duration o)). apply Qmult_le_compat_r; assumption. }
  assert (P : 0 <= duration o * startPercent)
    by (apply Qmult_le_0_compat; assumption).
  assert (U : duration o * endPercent <= duration o * 100).
  { rewrite !(Qmult_comm (duration o)). apply Qmult_le_compat_r; assumption. }
  split; [|split; [|split]].
  - apply floor_nonneg. apply Qle_shift_div_l; [reflexivity|]. lra.
  - apply floor_monotone. apply Qle_shift_div_l; [reflexivity|].
    unfold Qdiv. rewrite <- Qmult_assoc.
    setoid_replace (/ 100 * 100) with 1 by reflexivity. lra.
  - eapply Qle_trans; [apply floor_le|].
    apply Qle_shift_div_r; [reflexivity | exact U].
  - exists o. repeat split; [exact Ho].
Qed.

Lemma applyCapture_window_witness :
  let a := withCapture 75 92 (mkAd "ad-003" "sports-energy.mp4" "PowerBoost Energy"
                                   (forGender male) (forAge young) 60 36 56 None
                                   "clip.mp4") in
  0 <= captureStart a /\ captureStart a <= captureEnd a
  /\ captureEnd a <= duration a.
Proof.
  intros a.
  destruct (applyCapture_window
              [mkAd "ad-003" "sports-energy.mp4" "PowerBoost Energy"
                    (forGender male) (forAge young) 60 36 56 None "clip.mp4"]
              75 92 a) as [H1 [H2 [H3 _]]];
    try discriminate.
  - left. reflexivity.
  - repeat split; assumption.
Defined.

(** *** Reordering *)





(** *** Rotation *)

(** X25.  Outside manual mode, a queue of at least two ads with distinct ids
    never plays an ad twice in a row: the ad returned is an ad of the queue
    other than the last played one, it becomes the last played one, the new
    queue holds the same ads in a new order, and the list of played ads is
    cut to five. *)
Theorem getNextAd_never_repeats (props : UseAdQueueProps) (st : QueueState) :
  manualMode props = false ->
  (2 <= List.length (queue st))%nat ->
  NoDup (map id (queue st)) ->
  exists a,
    fst (getNextAd props st) = Some a
    /\ In a (queue st)
    /\ lastPlayedId st <> Some (id a)
    /\ lastPlayedId (snd (getNextAd props st)) = Some (id a)
    /\ Permutation (queue (snd (getNextAd props st))) (queue st)
    /\ (List.length (playedAds (snd (getNextAd props st))) <= 5)%nat.
Proof.
  intros Hm Hlen Hnd. unfold getNextAd. rewrite Hm. cbn [andb].
  destruct (queue st) as [|first [|second others]] eqn:Q;
    [simpl in Hlen; lia | simpl in Hlen; lia |].
  replace (1 <? List.length (first :: second :: others))%nat with true
    by reflexivity.
  rewrite andb_true_r.
  destruct (isLastPlayed first (lastPlayedId st)) eqn:L; cbn [fst snd queue
    lastPlayedId playedAds].
  - apply AdQueueProps.isLastPlayed_spec in L.
    exists second. split; [reflexivity|].
    split; [right; left; reflexivity|].
    split.
    + rewrite L. intros E. injection E as E.
      simpl in Hnd. inversion Hnd as [|? ? Hout _]; subst.
      apply Hout. left. symmetry. exact E.
    + split; [reflexivity|]. split; [apply perm_swap|].
      apply firstn_le_length.
  - exists first. split; [reflexivity|].
    split; [left; reflexivity|].
    split.
    + intros E. apply AdQueueProps.isLastPlayed_spec in E. rewrite E in L. discriminate.
    + split; [reflexivity|]. split.
      * apply Permutation_sym.
        apply (Permutation_cons_append (second :: others) first).
      * apply firstn_le_length.
Qed.

Lemma getNextAd_never_repeats_witness :
  exists a,
    fst (getNextAd (mkProps None 75 92 false [])
                   (mkQueue (initialAds (mkProps None 75 92 false []))
                            [] (Some "ad-001"%string) 0)) = Some a
    /\ id a = "ad-002"%string.
Proof.
  destruct (getNextAd_never_repeats
              (mkProps None 75 92 false [])
              (mkQueue (initialAds (mkProps None 75 92 false []))
                       [] (Some "ad-001"%string) 0))
    as [a [Ha _]].
  - reflexivity.
  - simpl. lia.
  - simpl. repeat constructor; simpl; intuition discriminate.
  - exists a. split; [exact Ha|].
    vm_compute in Ha. injection Ha as <-. reflexivity.
Defined.

(** X26.  In manual mode the manual queue is played in order, round and
    round: counted from the position the index stands at, call number [j]
    returns entry [j] modulo the length of the manual queue, with the
    capture window applied. *)
Theorem getNextAd_manual_cycle
        (props : UseAdQueueProps) (calls : nat) (st : QueueState) (j : nat) :
  manualMode props = true -> manualQueue props <> [] ->
  (j < calls)%nat ->
  nth_error (played props calls st) j
  = Some (option_map (withCapture (captureStartPercent props)
                                  (captureEndPercent props))
                     (nth_error (manualQueue props)
                                ((manualQueueIndex st + j)
                                   mod List.length (manualQueue props)))).
Proof.
  intros Hm Hne. revert st j.
  assert (Hn : List.length (manualQueue props) <> 0%nat).
  { destruct (manualQueue props); [congruence | discriminate]. }
  induction calls as [|k IH]; intros st j Hj; [lia|].
  cbn [played]. unfold getNextAd. rewrite Hm.
  replace (0 <? List.length (manualQueue props))%nat with true
    by (symmetry; apply Nat.ltb_lt; lia).
  cbn [andb].
  destruct (nth_error (manualQueue props)
                      (manualQueueIndex st mod List.length (manualQueue props)))
    as [entry|] eqn:E.
  - destruct j as [|j].
    + cbn [nth_error]. rewrite Nat.add_0_r, E. reflexivity.
    + cbn [nth_error]. rewrite IH by lia. cbn [manualQueueIndex].
      set (n := List.length (manualQueue props)) in *.
      replace ((((manualQueueIndex st mod n + 1) mod n) + j) mod n)%nat
        with ((manualQueueIndex st + S j) mod n)%nat; [reflexivity|].
      rewrite (Nat.Div0.add_mod_idemp_l (manualQueueIndex st mod n + 1) j n).
      rewrite <- Nat.add_assoc.
      rewrite (Nat.Div0.add_mod_idemp_l (manualQueueIndex st) (1 + j) n).
      reflexivity.
  - exfalso. apply nth_error_None in E.
    pose proof (Nat.mod_upper_bound (manualQueueIndex st)
                                    (List.length (manualQueue props)) Hn).
    lia.
Qed.

Lemma getNextAd_manual_cycle_witness :
  nth_error (played (mkProps None 75 92 true (firstn 2 sampleAds)) 3
                    (initialState (mkProps None 75 92 true (firstn 2 sampleAds))))
            2
  = Some (option_map (withCapture 75 92) (nth_error (firstn 2 sampleAds) 0)).
Proof.
  apply (getNextAd_manual_cycle (mkProps None 75 92 true (firstn 2 sampleAds)) 3
           (initialState (mkProps None 75 92 true (firstn 2 sampleAds))) 2).
  - reflexivity.
  - discriminate.
  - lia.
Defined.

End AdRotationProps.

(** ** The filter behind the detector *)

Module FaceFilterProps.
Import Ad Detection FaceDetection GenderHeuristics FaceFilter.

Lemma times_le_of_le_div (a b c : Q) : 0 < c -> a <= b / c -> a * c <= b.
Proof.
  intros Hc H.
  assert (E : b / c * c == b).
  { rewrite Qmult_comm. apply Qmult_div_r. intros Z. rewrite Z in Hc.
    exact (Qlt_irrefl 0 Hc). }
  rewrite <- E. apply Qmult_le_compat_r; [exact H | apply Qlt_le_weak; exact Hc].
Qed.

Lemma le_times_of_div_le (a b c : Q) : 0 < c -> b / c <= a -> b <= a * c.
Proof.
  intros Hc H.
  assert (E : b / c * c == b).
  { rewrite Qmult_comm. apply Qmult_div_r. intros Z. rewrite Z in Hc.
    exact (Qlt_irrefl 0 Hc). }
  rewrite <- E. apply Qmult_le_compat_r; [exact H | apply Qlt_le_weak; exact Hc].
Qed.

Section Filter.

Variable Canvas : Type.
Variable hasTextureVariation : Canvas -> FaceBoundingBox -> bool.
Variable analyzeHairRegion : Canvas -> FaceBoundingBox -> bool -> Outcome Q.
Variables videoWidth videoHeight scaleBack : Q.
Variable config : CCTVDetectionConfig.
Variable detectorUsed : DetectorKind.
Variable roiOffset : option (Q * Q).
Variable debugMode : bool.
Variable textureCheckCanvas : option Canvas.
Variable now : Z.

Local Abbreviation keep :=
  (keeps Canvas hasTextureVariation videoWidth videoHeight scaleBack config
         roiOffset textureCheckCanvas).
Local Abbreviation result :=
  (toResult Canvas analyzeHairRegion videoWidth videoHeight scaleBack config
            detectorUsed roiOffset debugMode textureCheckCanvas now).
Local Abbreviation process :=
  (processDetections Canvas hasTextureVariation analyzeHairRegion
                     videoWidth videoHeight scaleBack config detectorUsed
                     roiOffset debugMode textureCheckCanvas now).

(** What the filter has checked of a detection it lets through. *)
Lemma keeps_checked (d : FaceWithAgeAndGender) :
  keep d = true ->
  let fw := width (f_box d) / scaleBack in
  let fh := height (f_box d) / scaleBack in
  let fx := x (f_box d) / scaleBack + offsetX roiOffset in
  let fy := y (f_box d) / scaleBack + offsetY roiOffset in
  requiredMinScore config <= f_score d
  /\ minFaceSizePx config <= fw /\ minFaceSizePx config <= fh
  /\ minFaceSizePercent config <= fw * fh / (videoWidth * videoHeight) * 100
  /\ fw * fh / (videoWidth * videoHeight) * 100 <= 35
  /\ aspectRatioMin config <= fw / fh /\ fw / fh <= aspectRatioMax config
  /\ 0 <= fx /\ 0 <= fy /\ fx + fw <= videoWidth /\ fy + fh <= videoHeight.
Proof.
  unfold keeps. cbv zeta.
  repeat match goal with
         | |- (if ?c then false else _) = true -> _ =>
             let C := fresh "C" in
             destruct c eqn:C; [discriminate|]
         end.
  intros _.
  repeat match goal with
         | H : (_ || _) = false |- _ =>
             apply orb_false_iff in H; destruct H
         end.
  AgeStabilisationProps.order_cases.
  repeat split; assumption.
Qed.

Lemma toResult_box (d : FaceWithAgeAndGender) :
  r_faceScore (result d) = f_score d
  /\ r_boundingBox (result d)
     = mkBox (Num.max 0 (x (f_box d) / scaleBack + offsetX roiOffset))
             (Num.max 0 (y (f_box d) / scaleBack + offsetY roiOffset))
             (Num.min (width (f_box d) / scaleBack)
                      (videoWidth - x (f_box d) / scaleBack))
             (Num.min (height (f_box d) / scaleBack)
                      (videoHeight - y (f_box d) / scaleBack)).
Proof.
  unfold toResult.
  destruct (femaleBoostFactor config ?? 0 >? 0); split; reflexivity.
Qed.

(** X27.  What comes out of the filter fits the frame.  With a positive
    scale, frame size and minimum face size and a region offset that is not
    negative, every result has a face score of at least
    [max(hardMinFaceScore ?? 0.15, minFaceScore)]; its box is the box of a
    detection handed in, scaled back and moved by the offset, unclipped;
    the box lies inside the frame, is at least the minimum size each way,
    covers between the minimum percentage and 35 percent of the frame, and
    its width over its height is within the two aspect bounds.  The count
    of results is the length of the result array and never exceeds the raw
    count. *)
Theorem processDetections_results_fit (detections : list FaceWithAgeAndGender) :
  0 < scaleBack -> 0 < videoWidth -> 0 < videoHeight ->
  0 < minFaceSizePx config ->
  0 <= offsetX roiOffset -> 0 <= offsetY roiOffset ->
  (filteredCount (process detections) <= rawCount (process detections))%nat
  /\ filteredCount (process detections)
     = List.length (results (process detections))
  /\ forall r, In r (results (process detections)) ->
       let b := r_boundingBox r in
       requiredMinScore config <= r_faceScore r
       /\ (exists d, In d detections
                     /\ x b == x (f_box d) / scaleBack + offsetX roiOffset
                     /\ y b == y (f_box d) / scaleBack + offsetY roiOffset
                     /\ width b == width (f_box d) / scaleBack
                     /\ height b == height (f_box d) / scaleBack)
       /\ 0 <= x b /\ 0 <= y b
       /\ x b + width b <= videoWidth /\ y b + height b <= videoHeight
       /\ minFaceSizePx config <= width b /\ minFaceSizePx config <= height b
       /\ minFaceSizePercent config * (videoWidth * videoHeight)
          <= width b * height b * 100
       /\ width b * height b * 100 <= 35 * (videoWidth * videoHeight)
       /\ aspectRatioMin config * height b <= width b
       /\ width b <= aspectRatioMax config * height b.
Proof.
  intros Hs Hw Hh Hpx Hox Hoy.
  unfold processDetections. cbn [filteredCount rawCount results].
  split; [rewrite length_map; apply filter_length_le|].
  split; [reflexivity|].
  intros r Hr. apply in_map_iff in Hr. destruct Hr as [d [<- Hd]].
  apply filter_In in Hd. destruct Hd as [Hin Hk].
  apply keeps_checked in Hk. cbv zeta in Hk.
  destruct Hk as [K1 [K2 [K3 [K4 [K5 [K6 [K7 [K8 [K9 [K10 K11]]]]]]]]]].
  destruct (toResult_box d) as [Es Eb].
  cbv zeta. rewrite Es, Eb. cbn [x y width height]. unfold Num.max, Num.min.
  set (fw := width (f_box d) / scaleBack) in *.
  set (fh := height (f_box d) / scaleBack) in *.
  set (bx := x (f_box d) / scaleBack) in *.
  set (by' := y (f_box d) / scaleBack) in *.
  assert (EX : Qmax 0 (bx + offsetX roiOffset) == bx + offsetX roiOffset)
    by (apply Q.max_r; exact K8).
  assert (EY : Qmax 0 (by' + offsetY roiOffset) == by' + offsetY roiOffset)
    by (apply Q.max_r; exact K9).
  assert (EW : Qmin fw (videoWidth - bx) == fw) by (apply Q.min_l; lra).
  assert (EH : Qmin fh (videoHeight - by') == fh) by (apply Q.min_l; lra).
  assert (V : 0 < videoWidth * videoHeight).
  { rewrite <- (Qmult_0_l videoHeight). apply Qmult_lt_compat_r; assumption. }
  assert (Pfh : 0 < fh) by lra.
  assert (EP : fw * fh / (videoWidth * videoHeight) * 100
               == fw * fh * 100 / (videoWidth * videoHeight))
    by (unfold Qdiv; ring).
  rewrite EP in K4, K5.
  rewrite EX, EY, EW, EH.
  split; [exact K1|].
  split.
  { exists d. split; [exact Hin|]. split; [exact EX|]. split; [exact EY|].
    split; [exact EW | exact EH]. }
  split; [exact K8|]. split; [exact K9|].
  split; [exact K10|]. split; [exact K11|].
  split; [exact K2|]. split; [exact K3|].
  split; [apply times_le_of_le_div; assumption|].
  split; [apply le_times_of_div_le; assumption|].
  split; [apply times_le_of_le_div; assumption|].
  apply le_times_of_div_le; assumption.
Qed.

Lemma round_below (q : Q) (n : Z) :
  (round q <? n)%Z = true <-> q < inject_Z n - (1 # 2).
Proof.
  unfold round. rewrite Z.ltb_lt. split; intros H.
  - pose proof (Qlt_floor (q + (1 # 2))) as U.
    assert (L : inject_Z (Qfloor (q + (1 # 2)) + 1) <= inject_Z n).
    { rewrite <- Zle_Qle. lia. }
    lra.
  - pose proof (Qfloor_le (q + (1 # 2))) as L.
    rewrite Zlt_Qlt. lra.
Qed.

(** X28.  The age group of a result is the age reading rounded to the
    nearest year (halves upwards) and then cut at 13 and 35: a reading below
    12.5 gives [kid], from 12.5 and below 34.5 [young], from 34.5 [adult].
    Gender and confidence are the raw reading unless the configured female
    boost is positive, and then they are the bias correction of the raw
    reading, at the neutral hair score 0.5 whenever hair analysis is
    switched off, has no canvas, or fails. *)
Theorem toResult_labels (d : FaceWithAgeAndGender) :
  (f_age d < 12.5 -> r_ageGroup (result d) = kid)
  /\ (12.5 <= f_age d -> f_age d < 34.5 -> r_ageGroup (result d) = young)
  /\ (34.5 <= f_age d -> r_ageGroup (result d) = adult)
  /\ (femaleBoostFactor config ?? 0 <= 0 ->
      r_gender (result d) = f_gender d
      /\ r_confidence (result d) = f_genderProbability d)
  /\ (0 < femaleBoostFactor config ?? 0 ->
      (enableHairHeuristics config ?? false = false
       \/ textureCheckCanvas = None
       \/ (forall c b, analyzeHairRegion c b debugMode = Thrown)) ->
      let adjusted :=
        applyFemaleBoost (f_gender d) (f_genderProbability d)
                         (femaleBoostFactor config ?? 0) 0.5 in
      r_gender (result d) = b_gender adjusted
      /\ r_confidence (result d) = b_confidence adjusted).
Proof.
  assert (A : r_ageGroup (result d)
              = if (round (f_age d) <? 13)%Z then kid
                else if (round (f_age d) <? 35)%Z then young else adult).
  { unfold toResult. destruct (femaleBoostFactor config ?? 0 >? 0); reflexivity. }
  pose proof (round_below (f_age d) 13) as R13.
  pose proof (round_below (f_age d) 35) as R35.
  assert (E13 : inject_Z 13 - (1 # 2) == 12.5) by reflexivity.
  assert (E35 : inject_Z 35 - (1 # 2) == 34.5) by reflexivity.
  rewrite E13 in R13. rewrite E35 in R35.
  split; [|split; [|split; [|split]]].
  - intros H. rewrite A. rewrite (proj2 R13 H). reflexivity.
  - intros H1 H2. rewrite A.
    destruct (round (f_age d) <? 13)%Z.
    + pose proof (proj1 R13 eq_refl). lra.
    + rewrite (proj2 R35 H2). reflexivity.
  - intros H. rewrite A.
    destruct (round (f_age d) <? 13)%Z.
    + pose proof (proj1 R13 eq_refl). lra.
    + destruct (round (f_age d) <? 35)%Z; [|reflexivity].
      pose proof (proj1 R35 eq_refl). lra.
  - intros H. unfold toResult.
    replace (femaleBoostFactor config ?? 0 >? 0) with false
      by (symmetry; apply gtb_false; exact H).
    split; reflexivity.
  - intros H Hair. unfold toResult.
    replace (femaleBoostFactor config ?? 0 >? 0) with true
      by (symmetry; apply gtb_spec; exact H).
    cbn [r_gender r_confidence].
    destruct Hair as [Off|[NoCanvas|Fails]].
    + rewrite Off. split; reflexivity.
    + rewrite NoCanvas. destruct (enableHairHeuristics config ?? false);
        split; reflexivity.
    + destruct (enableHairHeuristics config ?? false); [|split; reflexivity].
      destruct textureCheckCanvas as [c|]; [|split; reflexivity].
      rewrite Fails. split; reflexivity.
Qed.

End Filter.

Lemma toResult_labels_witness :
  r_ageGroup (toResult unit (fun _ _ _ => Thrown) 640 480 2 Examples.recordedConfig
                       ssd None false None 1000
                       (mkFace (mkBox 200 100 160 200) 0.9 (249 # 20) male 0.8))
  = kid
  /\ r_ageGroup (toResult unit (fun _ _ _ => Thrown) 640 480 2 Examples.recordedConfig
                          ssd None false None 1000
                          (mkFace (mkBox 200 100 160 200) 0.9 12.5 male 0.8))
     = young.
Proof.
  split.
  - apply (toResult_labels unit (fun _ _ _ => Thrown) 640 480 2
             Examples.recordedConfig ssd None false None 1000
             (mkFace (mkBox 200 100 160 200) 0.9 (249 # 20) male 0.8)).
    reflexivity.
  - apply (toResult_labels unit (fun _ _ _ => Thrown) 640 480 2
             Examples.recordedConfig ssd None false None 1000
             (mkFace (mkBox 200 100 160 200) 0.9 12.5 male 0.8));
      [discriminate | reflexivity].
Defined.

Lemma processDetections_results_fit_witness :
  let p := processDetections unit (fun _ _ => true) (fun _ _ _ => Returned 0.5)
             640 480 2 Examples.recordedConfig ssd None false None 1000
             [mkFace (mkBox 200 100 160 200) 0.9 29 male 0.8;
              mkFace (mkBox 0 0 10 10) 0.9 29 male 0.8;
              mkFace (mkBox 300 300 160 200) 0.1 29 male 0.8] in
  filteredCount p = 1%nat
  /\ forall r, In r (results p) ->
                0 <= x (r_boundingBox r)
                /\ x (r_boundingBox r) + width (r_boundingBox r) <= 640.
Proof.
  destruct (processDetections_results_fit unit (fun _ _ => true)
              (fun _ _ _ => Returned 0.5)
              640 480 2 Examples.recordedConfig ssd None false None 1000
              [mkFace (mkBox 200 100 160 200) 0.9 29 male 0.8;
               mkFace (mkBox 0 0 10 10) 0.9 29 male 0.8;
               mkFace (mkBox 300 300 160 200) 0.1 29 male 0.8])
    as [_ [Hc Hfit]]; try reflexivity; try discriminate.
  split; [reflexivity|].
  intros r Hr. destruct (Hfit r Hr) as [_ [_ [Hx [_ [Hxw _]]]]].
  split; assumption.
Defined.

End FaceFilterProps.

(** ** Contrast *)

Module ContrastProps.
Import ImagePreprocessing.

Lemma round_monotone (p q : Q) : p <= q -> (round p <= round q)%Z.
Proof.
  intros H. unfold round. apply Qfloor_resp_le. lra.
Qed.

Lemma contrastChannel_range (contrast : Q) (v : Z) :
  (0 <= contrastChannel contrast v <= 255)%Z.
Proof.
  unfold contrastChannel.
  destruct (Qeq_bool (259 - contrast * 255) 0).
  - destruct (v >? 128)%Z; lia.
  - lia.
Qed.

(** The sign of the factor is the sign of [259 - contrast * 255]. *)
Lemma factor_negative (contrast : Q) :
  259 # 255 < contrast ->
  (259 * (contrast * 255 + 255)) / (255 * (259 - contrast * 255)) < 0.
Proof.
  intros H.
  assert (D : 255 * (259 - contrast * 255) < 0) by lra.
  assert (N : 0 < 259 * (contrast * 255 + 255)) by lra.
  set (n := 259 * (contrast * 255 + 255)) in *.
  set (m := 255 * (259 - contrast * 255)) in *.
  assert (P : 0 < n / - m).
  { apply Qlt_shift_div_l; lra. }
  assert (E : n / m == - (n / - m)).
  { unfold Qdiv. setoid_replace (/ - m) with (- / m).
    - ring.
    - unfold Qinv, Qopp. destruct m as [[|a|a] b]; simpl; reflexivity. }
  rewrite E. lra.
Qed.

Lemma contrastLoop_nth (contrast : Q) (n : nat) :
  forall (data : list Z) (i : nat) (v : Z),
    (List.length data <= n)%nat ->
    nth_error data i = Some v ->
    nth_error (contrastLoop contrast data) i
    = Some (if (i mod 4 =? 3)%nat then v else contrastChannel contrast v).
Proof.
  induction n as [|n IH]; intros data i v Hlen H.
  - destruct data; [destruct i; discriminate | simpl in Hlen; lia].
  - destruct data as [|r [|g [|b [|a rest]]]].
    + destruct i; discriminate.
    + destruct i as [|i]; [injection H as <-; reflexivity|].
      destruct i; discriminate.
    + destruct i as [|[|i]]; try (injection H as <-; reflexivity).
      destruct i; discriminate.
    + destruct i as [|[|[|i]]]; try (injection H as <-; reflexivity).
      destruct i; discriminate.
    + destruct i as [|[|[|[|i]]]]; try (injection H as <-; reflexivity).
      cbn [contrastLoop nth_error] in *.
      rewrite (IH rest i v); [|simpl in Hlen; lia | exact H].
      replace (S (S (S (S i))) mod 4)%nat with (i mod 4)%nat; [reflexivity|].
      change (S (S (S (S i)))) with (4 + i)%nat.
      rewrite <- (Nat.Div0.add_mod_idemp_l 4 i 4). reflexivity.
Qed.

Lemma contrastLoop_length (contrast : Q) (n : nat) :
  forall data : list Z,
    (List.length data <= n)%nat ->
    List.length (contrastLoop contrast data) = List.length data.
Proof.
  induction n as [|n IH]; intros data Hlen.
  - destruct data; [reflexivity | simpl in Hlen; lia].
  - destruct data as [|r [|g [|b [|a rest]]]]; try reflexivity.
    cbn [contrastLoop List.length] in *. rewrite IH; [reflexivity | lia].
Qed.

(** X29.  A contrast setting above 259/255 turns the image into its
    negative: every colour channel is mapped by a function that reverses the
    order of brightness and keeps 128 in place.  The loop gives back an
    array of the same length, with every fourth entry (alpha) untouched and
    every other entry mapped by that function into 0..255. *)
Theorem applyContrast_inverts (data : list Z) (contrast : Q) :
  259 # 255 < contrast ->
  (forall u v : Z, (u <= v)%Z ->
                   (contrastChannel contrast v <= contrastChannel contrast u)%Z)
  /\ contrastChannel contrast 128 = 128%Z
  /\ List.length (applyContrast data contrast) = List.length data
  /\ forall (i : nat) (v : Z),
       nth_error data i = Some v ->
       nth_error (applyContrast data contrast) i
       = Some (if (i mod 4 =? 3)%nat then v else contrastChannel contrast v)
       /\ (0 <= contrastChannel contrast v <= 255)%Z.
Proof.
  intros H.
  pose proof (factor_negative contrast H) as F.
  assert (NZ : Qeq_bool (259 - contrast * 255) 0 = false).
  { destruct (Qeq_bool (259 - contrast * 255) 0) eqn:E; [|reflexivity].
    apply Qeq_bool_eq in E. lra. }
  assert (N1 : Qeq_bool contrast 1.0 = false).
  { destruct (Qeq_bool contrast 1.0) eqn:E; [|reflexivity].
    apply Qeq_bool_eq in E. rewrite E in H. discriminate. }
  split; [|split; [|split]].
  - intros u v Huv. unfold contrastChannel. rewrite NZ.
    set (factor := 259 * (contrast * 255 + 255) / (255 * (259 - contrast * 255))) in *.
    apply Z.min_le_compat_l. apply Z.max_le_compat_l.
    apply round_monotone.
    assert (I : inject_Z u <= inject_Z v) by (rewrite <- Zle_Qle; exact Huv).
    assert (M : factor * (inject_Z v - 128) <= factor * (inject_Z u - 128)).
    { assert (M' : (- factor) * (inject_Z u - 128) <= (- factor) * (inject_Z v - 128)).
      { rewrite !(Qmult_comm (- factor)). apply Qmult_le_compat_r; lra. }
      lra. }
    lra.
  - unfold contrastChannel. rewrite NZ.
    set (factor := 259 * (contrast * 255 + 255) / (255 * (259 - contrast * 255))).
    assert (E : factor * (inject_Z 128 - 128) + 128 == 128).
    { setoid_replace (inject_Z 128 - 128) with 0 by reflexivity. ring. }
    unfold round. rewrite E. reflexivity.
  - unfold applyContrast. rewrite N1.
    apply (contrastLoop_length contrast (List.length data)). apply Nat.le_refl.
  - intros i v Hv. split; [|apply contrastChannel_range].
    unfold applyContrast. rewrite N1.
    apply (contrastLoop_nth contrast (List.length data)); [apply Nat.le_refl|].
    exact Hv.
Qed.

(** The indoor preset, contrast 1.3, on a dark, a middle and a bright pixel. *)
Lemma applyContrast_inverts_witness :
  applyContrast [100; 128; 160; 255]%Z 1.3 = [255; 128; 0; 255]%Z
  /\ (contrastChannel 1.3 160 <= contrastChannel 1.3 100)%Z.
Proof.
  destruct (applyContrast_inverts [100; 128; 160; 255]%Z 1.3) as [M _].
  - reflexivity.
  - split; [vm_compute; reflexivity|]. apply M. lia.
Defined.

End ContrastProps.

(** ** What the passes hand to the filter *)

Module CollectedProps.
Import Ad Detection FaceDetection.

Section Cycle.

Variable Canvas : Type.
Variable detectAllFaces :
  CallSite -> Input Canvas -> DetectorOptions -> Outcome (list RawDetection).
Variable createProcessedCanvas :
  PreprocessingOptions -> Q -> option ROIConfig -> Outcome (option Canvas).
Variable ssdLoaded : bool.
Variable isCCTV : bool.
Variable config : CCTVDetectionConfig.
Variables videoWidth videoHeight : Q.

Local Abbreviation collect12 :=
  (collectPass1And2 Canvas detectAllFaces createProcessedCanvas ssdLoaded isCCTV
                    config videoWidth videoHeight).
Local Abbreviation pass3 :=
  (applyPass3 Canvas detectAllFaces createProcessedCanvas ssdLoaded isCCTV
              config videoWidth videoHeight).
Local Abbreviation collect :=
  (collectDetections Canvas detectAllFaces createProcessedCanvas ssdLoaded isCCTV
                     config videoWidth videoHeight).

(** The candidate set is what some merge returned. *)
Local Abbreviation merged l :=
  (exists input iou containment,
      l = mergeDetections input videoWidth videoHeight iou containment).

Lemma collectPass1And2_merged (c : Collected Canvas) :
  collect12 = Returned c ->
  merged (detections c)
  /\ (passUsed c = 1%Z \/ passUsed c = 2%Z)
  /\ (passUsed c = 1%Z -> scaleBack c = 1 /\ upscaled c = false).
Proof.
  unfold collectPass1And2.
  destruct (pass1Detections _ _ _ _ _) as [all1 used1].
  set (m1 := mergeDetections (JsArray.flat all1) videoWidth videoHeight
                             defaultIou defaultContainment).
  destruct (if requireFaceTexture config ?? false
            then createProcessedCanvas (mkPre 1 1 0 false) 1 None
            else Returned None) as [texture|]; [|discriminate].
  cbn [bind].
  destruct (shouldRunPass2 isCCTV config m1).
  - destruct (createProcessedCanvas _ (upscale config) _) as [[cv|]|];
      [| |discriminate]; cbn [bind].
    + destruct (pass2Detections _ _ _ _ cv) as [p2 hit].
      intros H. injection H as <-. cbn [detections passUsed].
      split; [|split; [right; reflexivity | discriminate]].
      destruct (0 <? List.length _)%nat.
      * eexists _, _, _. reflexivity.
      * eexists _, _, _. reflexivity.
    + intros H. injection H as <-. cbn [detections passUsed].
      split; [eexists _, _, _; reflexivity|].
      split; [right; reflexivity | discriminate].
  - intros H. injection H as <-. cbn [detections passUsed scaleBack upscaled].
    split; [eexists _, _, _; reflexivity|].
    split; [left; reflexivity | intros _; split; reflexivity].
Qed.

Lemma applyPass3_merged (c : Collected Canvas) :
  merged (detections c) -> merged (detections (pass3 c)).
Proof.
  intros H. unfold applyPass3.
  destruct (shouldRunPass3 isCCTV config (detections c)); [|exact H].
  destruct (pass3Candidates _ _ _ _ _ _ _) as [[m3|]|]; try exact H.
  destruct (0 <? List.length m3)%nat; [|exact H].
  cbn [detections]. eexists _, _, _. reflexivity.
Qed.

(** X30.  Whatever the detector answers, the candidate set the passes hand to
    the filter is the output of a merge: every candidate has a box, the
    candidates stand in descending order of score, and there are no more
    passes on record than two.  On a webcam or with the tiny detector only
    Pass 1 runs, at full scale. *)
Theorem collectDetections_hands_over_merged (c : Collected Canvas) :
  collect = Returned c ->
  (forall d, In d (detections c) -> getBox d <> None)
  /\ StronglySorted (JsArray.descending getScore) (detections c)
  /\ (passUsed c = 1%Z \/ passUsed c = 2%Z)
  /\ (isCCTV = false \/ detector config = tiny ->
      passUsed c = 1%Z /\ scaleBack c = 1 /\ upscaled c = false).
Proof.
  unfold collectDetections.
  destruct collect12 as [c12|] eqn:E; [|discriminate].
  cbn [bind]. intros H. injection H as <-.
  destruct (collectPass1And2_merged c12 E) as [M [P S]].
  destruct (applyPass3_merged c12 M) as [input [iou [ct Em]]].
  split; [|split; [|split]].
  - intros d Hd. rewrite Em in Hd.
    exact (proj2 (MergeCoverage.mergeDetections_members iou ct input
                    videoWidth videoHeight d Hd)).
  - rewrite Em.
    exact (proj1 (MergeProps.mergeDetections_shape iou ct input
                    videoWidth videoHeight)).
  - unfold applyPass3.
    destruct (shouldRunPass3 isCCTV config (detections c12)); [|exact P].
    destruct (pass3Candidates _ _ _ _ _ _ _) as [[m3|]|]; try exact P.
    destruct (0 <? List.length m3)%nat; exact P.
  - intros Hweb.
    assert (N2 : forall found, shouldRunPass2 isCCTV config found = false).
    { intros found. unfold shouldRunPass2.
      destruct Hweb as [->| ->]; [reflexivity|].
      destruct isCCTV; reflexivity. }
    assert (N3 : forall found, shouldRunPass3 isCCTV config found = false).
    { intros found. unfold shouldRunPass3.
      destruct Hweb as [->| ->]; [reflexivity|].
      destruct isCCTV; reflexivity. }
    unfold applyPass3. rewrite N3.
    unfold collectPass1And2 in E.
    destruct (pass1Detections _ _ _ _ _) as [all1 used1].
    rewrite N2 in E.
    destruct (if requireFaceTexture config ?? false
              then createProcessedCanvas (mkPre 1 1 0 false) 1 None
              else Returned None) as [texture|]; [|discriminate].
    cbn [bind] in E. injection E as <-.
    repeat split; reflexivity.
Qed.

End Cycle.

Lemma collectDetections_hands_over_merged_witness :
  exists c,
    collectDetections unit Examples.flakyDetector Examples.unitCanvas true true
                      Examples.recordedConfig 640 480 = Returned c
    /\ (forall d, In d (detections c) -> getBox d <> None)
    /\ (passUsed c = 1%Z \/ passUsed c = 2%Z).
Proof.
  destruct (collectDetections unit Examples.flakyDetector Examples.unitCanvas
                              true true Examples.recordedConfig 640 480)
    as [c|] eqn:E; [|vm_compute in E; discriminate].
  exists c. split; [reflexivity|].
  destruct (collectDetections_hands_over_merged unit Examples.flakyDetector
              Examples.unitCanvas true true Examples.recordedConfig 640 480 c E)
    as [B [_ [P _]]].
  split; assumption.
Defined.

End CollectedProps.
